(** * peek: a terminal pager -- shallow embedding of its core and proofs

    The development follows [src/main.c] (and, for language detection, also
    the extended table of the later revision of the same file): text
    clean-up at ingestion
    ([strip_overstrikes], [strip_ansi]), hard wrapping ([wrap_line]),
    language detection ([detect_language]), the man-page header test
    ([is_man_section_header]) and the man branch of [highlight_line], the
    buffer store ([close_current_buffer]), linear search ([search_buffer],
    [find_all_matches], [prompt_search], [next_match], [prev_match]) and the
    key dispatcher ([handle_input]).

    Conventions.
    - A C string is the list of its bytes before the terminating NUL
      ([cstr]); reading [*p] at the end of the list reads that NUL.
    - [int] values are integers of [Z]; every value the modelled code
      computes stays far inside the 32-bit range (line counts are at most
      [MAX_LINES], line lengths below [MAX_LINE_LEN]).
    - Loops whose termination is not structural take a fuel argument and
      return [None] when it runs out; each is proved to return with the fuel
      its caller passes.
    - Calls into ncurses and [free] are recorded as events, in program
      order; what the program reads from outside (screen size, key, typed
      text, file contents) is an argument of the function that reads it. *)

From Stdlib Require Import ZArith List Ascii String Bool Lia.
From stdpp Require Import base list.
Import ListNotations.

Local Open Scope Z_scope.

(** ** Characters and C strings *)

Abbreviation cstr := (list ascii).

Definition cs (s : string) : cstr := list_ascii_of_string s.

Definition char_code (c : ascii) : Z := Z.of_N (N_of_ascii c).

Definition NUL : ascii := "000"%char.
Definition BEL : ascii := "007"%char.
Definition BS : ascii := "008"%char.
Definition TAB : ascii := "009"%char.
Definition ESC : ascii := "027"%char.
Definition SPACE : ascii := " "%char.
Definition DQUOTE : ascii := "034"%char.
Definition SQUOTE : ascii := "039"%char.
Definition BACKSLASH : ascii := "092"%char.

(** [*p] : the byte under the pointer, NUL at the end of the string. *)
Definition peek (p : cstr) : ascii :=
  match p with
  | [] => NUL
  | c :: _ => c
  end.

(** [if ( *p ) p++;] *)
Definition advance (p : cstr) : cstr :=
  match p with
  | [] => []
  | _ :: p' => p'
  end.

(** [while ( *p && !stop( *p )) p++;] *)
Fixpoint skip_until (stop : ascii -> bool) (p : cstr) : cstr :=
  match p with
  | [] => []
  | c :: p' => if stop c then p else skip_until stop p'
  end.

(** ** Cleanup helpers *)

(** [strip_overstrikes]: [src] is the unread rest of the line, [dst] the
    bytes written so far, i.e. [s[0..dst)].  The write pointer never passes
    the read pointer, so the in-place copy reads the original bytes. *)
Fixpoint strip_overstrikes_loop (src dst : cstr) : cstr :=
  match src with
  | [] => dst
  | c :: src' =>
      if Ascii.eqb c BS then
        strip_overstrikes_loop src'
          (match dst with
           | [] => []
           | _ :: _ => removelast dst
           end)
      else strip_overstrikes_loop src' (dst ++ [c])
  end.

Definition strip_overstrikes (s : cstr) : cstr := strip_overstrikes_loop s [].

(** [*p >= '@' && *p <= '~'] : the final byte of a CSI sequence. *)
Definition is_csi_final (c : ascii) : bool :=
  (char_code "@"%char <=? char_code c) && (char_code c <=? char_code "~"%char).

Definition is_bel (c : ascii) : bool := Ascii.eqb c BEL.

(** [strip_ansi]: [p] is the unread rest, [d] the bytes written so far. *)
Fixpoint strip_ansi_loop (fuel : nat) (p d : cstr) : option cstr :=
  match p with
  | [] => Some d
  | c :: p1 =>
      match fuel with
      | O => None
      | S fuel' =>
          if Ascii.eqb c ESC then
            if Ascii.eqb (peek p1) "["%char then
              strip_ansi_loop fuel' (advance (skip_until is_csi_final (tl p1))) d
            else if Ascii.eqb (peek p1) "]"%char then
              strip_ansi_loop fuel' (advance (skip_until is_bel (tl p1))) d
            else
              strip_ansi_loop fuel' (advance p1) d
          else strip_ansi_loop fuel' p1 (d ++ [c])
      end
  end.

Definition strip_ansi (s : cstr) : option cstr :=
  strip_ansi_loop (length s) s [].

(** [rtrim]: [n] is [length s]; the loop cuts one trailing space or tab per
    round. *)
Fixpoint rtrim_loop (fuel : nat) (s : cstr) : cstr :=
  match fuel with
  | O => s
  | S fuel' =>
      if (0 <? Z.of_nat (length s))
         && (Ascii.eqb (List.last s NUL) SPACE || Ascii.eqb (List.last s NUL) TAB)
      then rtrim_loop fuel' (removelast s)
      else s
  end.

Definition rtrim (s : cstr) : cstr := rtrim_loop (length s) s.


(** ** The C library functions the program calls

    Their code is not part of the program; each is written from its
    description in the C standard, on [cstr]. *)

(** [strncmp(s, prefix, strlen(prefix)) == 0], the body of [starts_with]. *)
Fixpoint starts_with (s prefix : cstr) : bool :=
  match prefix, s with
  | [], _ => true
  | _ :: _, [] => false
  | a :: prefix', b :: s' => Ascii.eqb a b && starts_with s' prefix'
  end.

(** [strstr(haystack, needle)]: the suffix of [haystack] that begins at the
    first occurrence of [needle], [None] for the null pointer. *)
Fixpoint strstr (haystack needle : cstr) : option cstr :=
  if starts_with haystack needle then Some haystack
  else
    match haystack with
    | [] => None
    | _ :: h' => strstr h' needle
    end.

(** [strstr(s, needle) != NULL], as [contains_substr] has it. *)
Definition contains_substr (s needle : cstr) : bool :=
  match strstr s needle with
  | Some _ => true
  | None => false
  end.

(** [strrchr(s, c)] for a non-NUL [c]: the suffix that begins at the last
    occurrence of [c]. *)
Fixpoint strrchr (s : cstr) (c : ascii) : option cstr :=
  match s with
  | [] => None
  | a :: s' =>
      match strrchr s' c with
      | Some r => Some r
      | None => if Ascii.eqb a c then Some s else None
      end
  end.

(** [strcmp(a, b) == 0] *)
Fixpoint streq (a b : cstr) : bool :=
  match a, b with
  | [], [] => true
  | x :: a', y :: b' => Ascii.eqb x y && streq a' b'
  | _, _ => false
  end.

(** <ctype.h> in the "C" locale (also what a UTF-8 locale answers for single
    bytes). *)
Definition in_range (lo hi c : ascii) : bool :=
  (char_code lo <=? char_code c) && (char_code c <=? char_code hi).

Definition isupper (c : ascii) : bool := in_range "A" "Z" c.
Definition islower (c : ascii) : bool := in_range "a" "z" c.
Definition isalpha (c : ascii) : bool := isupper c || islower c.
Definition isdigit (c : ascii) : bool := in_range "0" "9" c.
Definition isalnum (c : ascii) : bool := isalpha c || isdigit c.
(** space, \t, \n, \v, \f, \r *)
Definition isspace (c : ascii) : bool :=
  Ascii.eqb c SPACE || in_range "009" "013" c.

(** ** Wrapping *)

(** [segments] is [None] for the null pointer, else the slots filled so far
    ([result.segments[0 .. count)]). *)
Record WrappedLine := {
  count : Z;
  segments : option (list cstr)
}.

(** The body of [while (pos < len)]: [strncpy(seg, line + pos, take)] copies
    [take] bytes starting at [pos]. *)
Fixpoint wrap_line_loop (fuel : nat) (line : cstr) (width len pos : Z)
    (result : WrappedLine) : option WrappedLine :=
  if pos <? len then
    match fuel with
    | O => None
    | S fuel' =>
        let remaining := len - pos in
        let take_n := if remaining >? width then width else remaining in
        let seg := take (Z.to_nat take_n) (drop (Z.to_nat pos) line) in
        wrap_line_loop fuel' line width len (pos + take_n)
          {| count := count result + 1;
             segments := option_map (fun a => a ++ [seg]) (segments result) |}
    end
  else Some result.

(** [line] is [None] for a null pointer. *)
Definition wrap_line (line : option cstr) (width : Z) : option WrappedLine :=
  let result := {| count := 0; segments := None |} in
  match line with
  | None => Some result
  | Some line =>
      if width <=? 0 then Some result
      else
        let len := Z.of_nat (length line) in
        if len =? 0 then Some {| count := 1; segments := Some [ [] ] |}
        else
          wrap_line_loop (length line) line width len 0
            {| count := 0; segments := Some [] |}
  end.

(** ** Language detection *)

Inductive Language :=
| LANG_NONE | LANG_C | LANG_CPP | LANG_PYTHON | LANG_JAVA | LANG_JS | LANG_TS
| LANG_HTML | LANG_CSS | LANG_SHELL | LANG_MARKDOWN | LANG_MAN | LANG_RUST
| LANG_GO | LANG_RUBY | LANG_PHP | LANG_SQL | LANG_JSON | LANG_XML | LANG_YAML.
(** [src/main.c] stops at [LANG_MAN]; the later revision adds the rest. *)

(** The man-page fallback both revisions end with. *)
Definition man_marker (filepath : cstr) : bool :=
  contains_substr filepath (cs "/man/") || contains_substr filepath (cs ".man").

(** [detect_language] of [src/main.c] (ten language families). *)
Definition detect_language (filepath : cstr) : Language :=
  match strrchr filepath "." with
  | None => LANG_NONE
  | Some ext =>
      if streq ext (cs ".c") || streq ext (cs ".h") then LANG_C
      else if streq ext (cs ".cpp") || streq ext (cs ".cc")
              || streq ext (cs ".hpp") then LANG_CPP
      else if streq ext (cs ".py") then LANG_PYTHON
      else if streq ext (cs ".java") then LANG_JAVA
      else if streq ext (cs ".js") then LANG_JS
      else if streq ext (cs ".ts") || streq ext (cs ".tsx") then LANG_TS
      else if streq ext (cs ".html") || streq ext (cs ".htm") then LANG_HTML
      else if streq ext (cs ".css") then LANG_CSS
      else if streq ext (cs ".sh") || streq ext (cs ".bash")
              || streq ext (cs ".zsh") then LANG_SHELL
      else if streq ext (cs ".md") || streq ext (cs ".markdown") then LANG_MARKDOWN
      else if man_marker filepath then LANG_MAN
      else LANG_NONE
  end.

(** The extension table of [src/main.c], as data: what "matches the table"
    means in the statements below. *)
Definition extension_table : list (string * Language) :=
  [ (".c", LANG_C); (".h", LANG_C);
    (".cpp", LANG_CPP); (".cc", LANG_CPP); (".hpp", LANG_CPP);
    (".py", LANG_PYTHON); (".java", LANG_JAVA); (".js", LANG_JS);
    (".ts", LANG_TS); (".tsx", LANG_TS);
    (".html", LANG_HTML); (".htm", LANG_HTML); (".css", LANG_CSS);
    (".sh", LANG_SHELL); (".bash", LANG_SHELL); (".zsh", LANG_SHELL);
    (".md", LANG_MARKDOWN); (".markdown", LANG_MARKDOWN) ]%string.

(** The later revision of the file (the one with SQL, RSS and horizontal
    scrolling) extends the table; the rest of the function is unchanged. *)
Module Later.

Definition detect_language (filepath : cstr) : Language :=
  match strrchr filepath "." with
  | None => LANG_NONE
  | Some ext =>
      if streq ext (cs ".c") || streq ext (cs ".h") then LANG_C
      else if streq ext (cs ".cpp") || streq ext (cs ".cc")
              || streq ext (cs ".hpp") || streq ext (cs ".cxx") then LANG_CPP
      else if streq ext (cs ".py") then LANG_PYTHON
      else if streq ext (cs ".java") then LANG_JAVA
      else if streq ext (cs ".js") then LANG_JS
      else if streq ext (cs ".ts") || streq ext (cs ".tsx") then LANG_TS
      else if streq ext (cs ".html") || streq ext (cs ".htm") then LANG_HTML
      else if streq ext (cs ".css") then LANG_CSS
      else if streq ext (cs ".sh") || streq ext (cs ".bash")
              || streq ext (cs ".zsh") then LANG_SHELL
      else if streq ext (cs ".md") || streq ext (cs ".markdown") then LANG_MARKDOWN
      else if streq ext (cs ".rs") then LANG_RUST
      else if streq ext (cs ".go") then LANG_GO
      else if streq ext (cs ".rb") then LANG_RUBY
      else if streq ext (cs ".php") then LANG_PHP
      else if streq ext (cs ".sql") then LANG_SQL
      else if streq ext (cs ".json") then LANG_JSON
      else if streq ext (cs ".xml") then LANG_XML
      else if streq ext (cs ".yaml") || streq ext (cs ".yml") then LANG_YAML
      else if man_marker filepath then LANG_MAN
      else LANG_NONE
  end.

Definition extension_table : list (string * Language) :=
  [ (".c", LANG_C); (".h", LANG_C);
    (".cpp", LANG_CPP); (".cc", LANG_CPP); (".hpp", LANG_CPP); (".cxx", LANG_CPP);
    (".py", LANG_PYTHON); (".java", LANG_JAVA); (".js", LANG_JS);
    (".ts", LANG_TS); (".tsx", LANG_TS);
    (".html", LANG_HTML); (".htm", LANG_HTML); (".css", LANG_CSS);
    (".sh", LANG_SHELL); (".bash", LANG_SHELL); (".zsh", LANG_SHELL);
    (".md", LANG_MARKDOWN); (".markdown", LANG_MARKDOWN);
    (".rs", LANG_RUST); (".go", LANG_GO); (".rb", LANG_RUBY); (".php", LANG_PHP);
    (".sql", LANG_SQL); (".json", LANG_JSON); (".xml", LANG_XML);
    (".yaml", LANG_YAML); (".yml", LANG_YAML) ]%string.

End Later.

(** First entry of the table whose extension is exactly [ext]. *)
Fixpoint table_lookup (table : list (string * Language)) (ext : cstr)
    : option Language :=
  match table with
  | [] => None
  | (e, l) :: table' =>
      if streq ext (cs e) then Some l else table_lookup table' ext
  end.

(** ** Man-page section headers *)

Fixpoint is_man_section_header_loop (s : cstr) (letters : Z) : bool :=
  match s with
  | [] => 3 <=? letters
  | c :: s' =>
      if Ascii.eqb c SPACE then is_man_section_header_loop s' letters
      else if negb (isalpha c) then false
      else
        let letters := letters + 1 in
        if negb (isupper c) then false
        else is_man_section_header_loop s' letters
  end.

Definition is_man_section_header (s : cstr) : bool :=
  is_man_section_header_loop s 0.

(** ** Effects

    The calls that leave the process state: ncurses output, [free], in
    program order. *)

Inductive event :=
| Attron (pair : Z) (bold : bool)      (* attron(COLOR_PAIR(pair) [| A_BOLD]) *)
| Attroff (pair : Z) (bold : bool)
| Mvaddch (y x : Z) (ch : ascii)
| Mvaddnstr (y x : Z) (str : cstr) (n : Z)
| Mvhline (y x : Z) (ch : ascii) (n : Z)
| Mvprintw (y x : Z) (text : string)
| Move (y x : Z)
| Refresh
| Napms (ms : Z)
| Echo
| Noecho
| CursSet (visibility : Z)
| Free (ptr : option cstr).

Definition COLOR_NORMAL : Z := 1.
Definition COLOR_KEYWORD : Z := 2.
Definition COLOR_STRING : Z := 3.
Definition COLOR_COMMENT : Z := 4.
Definition COLOR_NUMBER : Z := 5.
Definition COLOR_TYPE : Z := 6.
Definition COLOR_FUNCTION : Z := 7.
Definition COLOR_TABBAR : Z := 8.
Definition COLOR_STATUS : Z := 9.

(** [for (i = a; i < b; i++) body] for a body that neither breaks nor
    changes [i]. *)
Definition for_loop {S : Type} (a b : Z) (body : Z -> S -> S) (s : S) : S :=
  fold_left (fun s k => body (a + Z.of_nat k) s) (seq 0 (Z.to_nat (b - a))) s.

(** ** Buffers and the viewer state *)

Definition MAX_BUFFERS : Z := 16.
Definition MAX_LINES : Z := 10000.
Definition MAX_LINE_LEN : Z := 2048.

(** A slot of [lines] holds [None] for the null pointer, else the string it
    owns. *)
Record Buffer := {
  lines : list (option cstr);
  line_count : Z;
  filepath : cstr;
  http_request : cstr;
  lang : Language;
  scroll_offset : Z;
  is_active : Z;
  is_http_buffer : Z
}.

Record ViewerState := {
  buffers : list Buffer;
  buffer_count : Z;
  current_buffer : Z;
  search_term : cstr;
  search_line : Z;
  search_match_count : Z;
  current_match : Z;
  show_line_numbers : Z;
  wrap_enabled : Z;
  copy_mode : Z;
  copy_start_line : Z;
  copy_end_line : Z
}.

(** What [calloc] hands out. *)
Definition zero_buffer : Buffer :=
  {| lines := replicate (Z.to_nat MAX_LINES) None; line_count := 0;
     filepath := []; http_request := []; lang := LANG_NONE;
     scroll_offset := 0; is_active := 0; is_http_buffer := 0 |}.

Definition zero_state : ViewerState :=
  {| buffers := replicate (Z.to_nat MAX_BUFFERS) zero_buffer;
     buffer_count := 0; current_buffer := 0; search_term := [];
     search_line := 0; search_match_count := 0; current_match := 0;
     show_line_numbers := 0; wrap_enabled := 0; copy_mode := 0;
     copy_start_line := 0; copy_end_line := 0 |}.

(** Field assignments. *)
Definition set_scroll_offset (v : Z) (b : Buffer) : Buffer :=
  {| lines := lines b; line_count := line_count b; filepath := filepath b;
     http_request := http_request b; lang := lang b; scroll_offset := v;
     is_active := is_active b; is_http_buffer := is_http_buffer b |}.

Definition set_buffers (v : list Buffer) (s : ViewerState) : ViewerState :=
  {| buffers := v; buffer_count := buffer_count s;
     current_buffer := current_buffer s; search_term := search_term s;
     search_line := search_line s; search_match_count := search_match_count s;
     current_match := current_match s; show_line_numbers := show_line_numbers s;
     wrap_enabled := wrap_enabled s; copy_mode := copy_mode s;
     copy_start_line := copy_start_line s; copy_end_line := copy_end_line s |}.

Definition set_buffer_count (v : Z) (s : ViewerState) : ViewerState :=
  {| buffers := buffers s; buffer_count := v;
     current_buffer := current_buffer s; search_term := search_term s;
     search_line := search_line s; search_match_count := search_match_count s;
     current_match := current_match s; show_line_numbers := show_line_numbers s;
     wrap_enabled := wrap_enabled s; copy_mode := copy_mode s;
     copy_start_line := copy_start_line s; copy_end_line := copy_end_line s |}.

Definition set_current_buffer (v : Z) (s : ViewerState) : ViewerState :=
  {| buffers := buffers s; buffer_count := buffer_count s;
     current_buffer := v; search_term := search_term s;
     search_line := search_line s; search_match_count := search_match_count s;
     current_match := current_match s; show_line_numbers := show_line_numbers s;
     wrap_enabled := wrap_enabled s; copy_mode := copy_mode s;
     copy_start_line := copy_start_line s; copy_end_line := copy_end_line s |}.

Definition set_search_term (v : cstr) (s : ViewerState) : ViewerState :=
  {| buffers := buffers s; buffer_count := buffer_count s;
     current_buffer := current_buffer s; search_term := v;
     search_line := search_line s; search_match_count := search_match_count s;
     current_match := current_match s; show_line_numbers := show_line_numbers s;
     wrap_enabled := wrap_enabled s; copy_mode := copy_mode s;
     copy_start_line := copy_start_line s; copy_end_line := copy_end_line s |}.

Definition set_search_match_count (v : Z) (s : ViewerState) : ViewerState :=
  {| buffers := buffers s; buffer_count := buffer_count s;
     current_buffer := current_buffer s; search_term := search_term s;
     search_line := search_line s; search_match_count := v;
     current_match := current_match s; show_line_numbers := show_line_numbers s;
     wrap_enabled := wrap_enabled s; copy_mode := copy_mode s;
     copy_start_line := copy_start_line s; copy_end_line := copy_end_line s |}.

Definition set_current_match (v : Z) (s : ViewerState) : ViewerState :=
  {| buffers := buffers s; buffer_count := buffer_count s;
     current_buffer := current_buffer s; search_term := search_term s;
     search_line := search_line s; search_match_count := search_match_count s;
     current_match := v; show_line_numbers := show_line_numbers s;
     wrap_enabled := wrap_enabled s; copy_mode := copy_mode s;
     copy_start_line := copy_start_line s; copy_end_line := copy_end_line s |}.

Definition set_show_line_numbers (v : Z) (s : ViewerState) : ViewerState :=
  {| buffers := buffers s; buffer_count := buffer_count s;
     current_buffer := current_buffer s; search_term := search_term s;
     search_line := search_line s; search_match_count := search_match_count s;
     current_match := current_match s; show_line_numbers := v;
     wrap_enabled := wrap_enabled s; copy_mode := copy_mode s;
     copy_start_line := copy_start_line s; copy_end_line := copy_end_line s |}.

Definition set_wrap_enabled (v : Z) (s : ViewerState) : ViewerState :=
  {| buffers := buffers s; buffer_count := buffer_count s;
     current_buffer := current_buffer s; search_term := search_term s;
     search_line := search_line s; search_match_count := search_match_count s;
     current_match := current_match s; show_line_numbers := show_line_numbers s;
     wrap_enabled := v; copy_mode := copy_mode s;
     copy_start_line := copy_start_line s; copy_end_line := copy_end_line s |}.

Definition set_copy_mode (v : Z) (s : ViewerState) : ViewerState :=
  {| buffers := buffers s; buffer_count := buffer_count s;
     current_buffer := current_buffer s; search_term := search_term s;
     search_line := search_line s; search_match_count := search_match_count s;
     current_match := current_match s; show_line_numbers := show_line_numbers s;
     wrap_enabled := wrap_enabled s; copy_mode := v;
     copy_start_line := copy_start_line s; copy_end_line := copy_end_line s |}.

Definition set_copy_start_line (v : Z) (s : ViewerState) : ViewerState :=
  {| buffers := buffers s; buffer_count := buffer_count s;
     current_buffer := current_buffer s; search_term := search_term s;
     search_line := search_line s; search_match_count := search_match_count s;
     current_match := current_match s; show_line_numbers := show_line_numbers s;
     wrap_enabled := wrap_enabled s; copy_mode := copy_mode s;
     copy_start_line := v; copy_end_line := copy_end_line s |}.

Definition set_copy_end_line (v : Z) (s : ViewerState) : ViewerState :=
  {| buffers := buffers s; buffer_count := buffer_count s;
     current_buffer := current_buffer s; search_term := search_term s;
     search_line := search_line s; search_match_count := search_match_count s;
     current_match := current_match s; show_line_numbers := show_line_numbers s;
     wrap_enabled := wrap_enabled s; copy_mode := copy_mode s;
     copy_start_line := copy_start_line s; copy_end_line := v |}.

(** [state->buffers[i]], read and written.  The program only indexes inside
    the array; outside it the read gives [zero_buffer] and the write is
    lost. *)
Definition buffer_at (state : ViewerState) (i : Z) : Buffer :=
  default zero_buffer (buffers state !! Z.to_nat i).

Definition store_buffer (i : Z) (b : Buffer) (state : ViewerState) : ViewerState :=
  set_buffers (<[Z.to_nat i := b]> (buffers state)) state.

(** [buf->lines[i]] as a pointer, and the string behind it.  The program
    reads only slots below [line_count], which hold strings; for any other
    slot the text is empty. *)
Definition line_ptr (ls : list (option cstr)) (i : Z) : option cstr :=
  default None (ls !! Z.to_nat i).

Definition line_text (buf : Buffer) (i : Z) : cstr :=
  default [] (line_ptr (lines buf) i).

(** [free_buffer] *)
Definition free_buffer (buf : Buffer) : list event * Buffer :=
  let '(evs, ls) :=
    for_loop 0 (line_count buf)
      (fun i '(evs, ls) => (evs ++ [Free (line_ptr ls i)], <[Z.to_nat i := None]> ls))
      ([], lines buf) in
  (evs,
   {| lines := ls; line_count := 0; filepath := filepath buf;
      http_request := http_request buf; lang := lang buf;
      scroll_offset := scroll_offset buf; is_active := 0;
      is_http_buffer := is_http_buffer buf |}).

(** The status-line message block that several functions repeat. *)
Definition status_message (max_y max_x : Z) (msg : string) : list event :=
  [ Attron COLOR_STATUS true;
    Mvhline (max_y - 2) 0 SPACE max_x;
    Mvprintw (max_y - 2) 1 msg;
    Attroff COLOR_STATUS true;
    Refresh;
    Napms 1500 ].

(** [close_current_buffer]; [max_y] and [max_x] are what [getmaxy] and
    [getmaxx] answer. *)
Definition close_current_buffer (max_y max_x : Z) (state : ViewerState)
    : list event * ViewerState :=
  if buffer_count state <=? 1 then
    (status_message max_y max_x "Cannot close the last buffer", state)
  else
    let current := current_buffer state in
    let '(evs, freed) := free_buffer (buffer_at state current) in
    let state := store_buffer current freed state in
    let state :=
      for_loop current (buffer_count state - 1)
        (fun i state => store_buffer i (buffer_at state (i + 1)) state) state in
    let state := set_buffer_count (buffer_count state - 1) state in
    let state :=
      if current_buffer state >=? buffer_count state
      then set_current_buffer (buffer_count state - 1) state
      else state in
    (evs, state).

(** ** Search *)

Fixpoint search_buffer_loop (n : nat) (buf : Buffer) (term : cstr)
    (line direction : Z) : Z :=
  match n with
  | O => -1
  | S n' =>
      let line := if line <? 0 then line_count buf - 1 else line in
      let line := if line >=? line_count buf then 0 else line in
      if contains_substr (line_text buf line) term then line
      else search_buffer_loop n' buf term (line + direction) direction
  end.

Definition search_buffer (state : ViewerState) (term : cstr)
    (start_line direction : Z) : Z :=
  let buf := buffer_at state (current_buffer state) in
  match term with
  | [] => -1
  | _ :: _ =>
      search_buffer_loop (Z.to_nat (line_count buf)) buf term start_line direction
  end.

(** [for (i = 0; i < bound; i++) if (strstr(buf->lines[i], term)) count++;]
    The loop is written out three times in the source with [bound] the
    matched line, and once in [find_all_matches] with [bound] the line
    count. *)
Definition count_matching_lines (buf : Buffer) (term : cstr) (bound : Z) : Z :=
  for_loop 0 bound
    (fun i count => if contains_substr (line_text buf i) term then count + 1 else count)
    0.

Definition find_all_matches (state : ViewerState) : ViewerState :=
  let buf := buffer_at state (current_buffer state) in
  let state := set_search_match_count 0 state in
  match search_term state with
  | [] => state
  | _ :: _ =>
      set_search_match_count
        (count_matching_lines buf (search_term state) (line_count buf)) state
  end.

(** [while (len > 0 && isspace(input[len - 1])) input[--len] = 0;] *)
Fixpoint trim_trailing_space (fuel : nat) (input : cstr) : cstr :=
  match fuel with
  | O => input
  | S fuel' =>
      if (0 <? Z.of_nat (length input)) && isspace (List.last input NUL)
      then trim_trailing_space fuel' (removelast input)
      else input
  end.

(** What [prompt_search] holds in [input] after [getnstr(input, 255)] and
    the trimming loop; [typed] is the line the user enters at the prompt. *)
Definition search_input (typed : cstr) : cstr :=
  let input := take 255 typed in
  trim_trailing_space (length input) input.

(** [prompt_search] *)
Definition prompt_search (max_y max_x : Z) (typed : cstr) (state : ViewerState)
    : list event * ViewerState :=
  let evs :=
    [ Attron COLOR_STATUS true;
      Mvhline (max_y - 2) 0 SPACE max_x;
      Mvprintw (max_y - 2) 1 "Search: ";
      Attroff COLOR_STATUS true;
      Move (max_y - 2) 9;
      Refresh;
      Echo; CursSet 1; Noecho; CursSet 0 ] in
  let input := search_input typed in
  match input with
  | [] => (evs, state)
  | _ :: _ =>
      let state := set_search_term (take 255 input) state in
      let state := find_all_matches state in
      let found := search_buffer state (search_term state) 0 1 in
      if found >=? 0 then
        let cur := current_buffer state in
        let state := store_buffer cur (set_scroll_offset found (buffer_at state cur)) state in
        let count :=
          count_matching_lines (buffer_at state (current_buffer state))
            (search_term state) found in
        (evs, set_current_match count state)
      else (evs, state)
  end.

Definition next_match (state : ViewerState) : ViewerState :=
  match search_term state with
  | [] => state
  | _ :: _ =>
      let cur := current_buffer state in
      let buf := buffer_at state cur in
      let found := search_buffer state (search_term state) (scroll_offset buf + 1) 1 in
      if found >=? 0 then
        let state := store_buffer cur (set_scroll_offset found buf) state in
        let buf := buffer_at state cur in
        set_current_match (count_matching_lines buf (search_term state) found) state
      else state
  end.

Definition prev_match (state : ViewerState) : ViewerState :=
  match search_term state with
  | [] => state
  | _ :: _ =>
      let cur := current_buffer state in
      let buf := buffer_at state cur in
      let found := search_buffer state (search_term state) (scroll_offset buf - 1) (-1) in
      if found >=? 0 then
        let state := store_buffer cur (set_scroll_offset found buf) state in
        let buf := buffer_at state cur in
        set_current_match (count_matching_lines buf (search_term state) found) state
      else state
  end.

(** ** Loading *)

Definition NEWLINE : ascii := "010"%char.

(** [line[strcspn(line, "\n")] = 0;] *)
Fixpoint cut_at_newline (line : cstr) : cstr :=
  match line with
  | [] => []
  | c :: line' => if Ascii.eqb c NEWLINE then [] else c :: cut_at_newline line'
  end.

(** The read loop of [load_file]: [chunks] are the strings [fgets] returns,
    in order, up to the end of the file. *)
Fixpoint load_file_lines (chunks : list cstr) (buf : Buffer) : option Buffer :=
  match chunks with
  | [] => Some buf
  | line :: chunks' =>
      if line_count buf <? MAX_LINES then
        let line := cut_at_newline line in
        let line := strip_overstrikes line in
        match strip_ansi line with
        | None => None
        | Some line =>
            let line := rtrim line in
            load_file_lines chunks'
              {| lines := <[Z.to_nat (line_count buf) := Some line]> (lines buf);
                 line_count := line_count buf + 1;
                 filepath := filepath buf; http_request := http_request buf;
                 lang := lang buf; scroll_offset := scroll_offset buf;
                 is_active := is_active buf; is_http_buffer := is_http_buffer buf |}
        end
      else Some buf
  end.

(** [load_file]; [file] is [None] when [fopen] fails.  The result pairs the
    return value with the buffer. *)
Definition load_file (buf : Buffer) (path : cstr) (file : option (list cstr))
    : option (Z * Buffer) :=
  match file with
  | None => Some (-1, buf)
  | Some chunks =>
      let buf :=
        {| lines := lines buf; line_count := 0;
           filepath := take 1023 path; http_request := [];
           lang := detect_language path; scroll_offset := 0;
           is_active := 1; is_http_buffer := 0 |} in
      match load_file_lines chunks buf with
      | None => None
      | Some buf => Some (0, buf)
      end
  end.

(** One round of the argument loop of [main] for a plain file argument:
    the loop test [state->buffer_count < MAX_BUFFERS], then
    [if (load_file(&state->buffers[state->buffer_count], argv[i]) == 0)
     state->buffer_count++;] *)
Definition main_load_file (path : cstr) (file : option (list cstr))
    (state : ViewerState) : option ViewerState :=
  if buffer_count state <? MAX_BUFFERS then
    match load_file (buffer_at state (buffer_count state)) path file with
    | None => None
    | Some (rc, buf) =>
        let state := store_buffer (buffer_count state) buf state in
        if rc =? 0 then Some (set_buffer_count (buffer_count state + 1) state)
        else Some state
    end
  else Some state.

(** The state [main] starts from: zeroed memory with line numbers and
    wrapping switched on. *)
Definition initial_state : ViewerState :=
  set_wrap_enabled 1 (set_show_line_numbers 1 zero_state).

(** ** Input *)

Definition key (c : ascii) : Z := char_code c.
Definition KEY_DOWN : Z := 258.
Definition KEY_UP : Z := 259.
Definition KEY_BTAB : Z := 353.

(** [buf->scroll_offset = v] for [buf = &state->buffers[state->current_buffer]] *)
Definition scroll_to (v : Z) (state : ViewerState) : ViewerState :=
  let cur := current_buffer state in
  store_buffer cur (set_scroll_offset v (buffer_at state cur)) state.

(** [if (state->copy_mode) state->copy_end_line = buf->scroll_offset;] *)
Definition track_selection (state : ViewerState) : ViewerState :=
  if copy_mode state =? 0 then state
  else
    set_copy_end_line
      (scroll_offset (buffer_at state (current_buffer state))) state.

(** [!x] *)
Definition lnot (x : Z) : Z := if x =? 0 then 1 else 0.

(** [handle_input]: [ch] is the key [getch] returns, [max_y] and [max_x] the
    screen size, [typed] the text entered at the search prompt, should the
    key open it.  The result carries the new [*running] too.  The keys that
    hand over to another process while they run (r, R, o, and y in copy
    mode) are outside the model: [None]. *)
Definition handle_input (ch max_y max_x : Z) (typed : cstr)
    (state : ViewerState) (running : Z)
    : option (list event * ViewerState * Z) :=
  let visible_lines := max_y - 3 in
  let buf := buffer_at state (current_buffer state) in
  if (ch =? key "q") || (ch =? key "Q") then
    Some ([], state, if copy_mode state =? 0 then 0 else running)
  else if ch =? 27 then
    Some ([], if copy_mode state =? 0 then state else set_copy_mode 0 state, running)
  else if (ch =? key "r") || (ch =? key "R") then
    if copy_mode state =? 0 then None else Some ([], state, running)
  else if (ch =? key "x") || (ch =? key "X") then
    if copy_mode state =? 0 then
      let '(evs, state) := close_current_buffer max_y max_x state in
      Some (evs, state, running)
    else Some ([], state, running)
  else if ch =? key "v" then
    if copy_mode state =? 0 then
      Some ([],
            set_copy_end_line (scroll_offset buf)
              (set_copy_start_line (scroll_offset buf) (set_copy_mode 1 state)),
            running)
    else Some ([], state, running)
  else if ch =? key "y" then
    if copy_mode state =? 0 then Some ([], state, running) else None
  else if (ch =? key "l") || (ch =? key "L") then
    Some ([], set_show_line_numbers (lnot (show_line_numbers state)) state, running)
  else if (ch =? key "w") || (ch =? key "W") then
    Some ([], set_wrap_enabled (lnot (wrap_enabled state)) state, running)
  else if ch =? key "/" then
    if copy_mode state =? 0 then
      let '(evs, state) := prompt_search max_y max_x typed state in
      Some (evs, state, running)
    else Some ([], state, running)
  else if ch =? key "n" then
    Some ([], if copy_mode state =? 0 then next_match state else state, running)
  else if ch =? key "N" then
    Some ([], if copy_mode state =? 0 then prev_match state else state, running)
  else if (ch =? key "o") || (ch =? key "O") then
    if copy_mode state =? 0 then None else Some ([], state, running)
  else if (ch =? key "j") || (ch =? KEY_DOWN) then
    if scroll_offset buf <? line_count buf - 1 then
      Some ([], track_selection (scroll_to (scroll_offset buf + 1) state), running)
    else Some ([], state, running)
  else if (ch =? key "k") || (ch =? KEY_UP) then
    if scroll_offset buf >? 0 then
      Some ([], track_selection (scroll_to (scroll_offset buf - 1) state), running)
    else Some ([], state, running)
  else if ch =? key "g" then
    Some ([], track_selection (scroll_to 0 state), running)
  else if ch =? key "G" then
    let so := line_count buf - visible_lines in
    let so := if so <? 0 then 0 else so in
    Some ([], track_selection (scroll_to so state), running)
  else if (ch =? key "d") || (ch =? 4) then
    let so := scroll_offset buf + Z.quot visible_lines 2 in
    let so := if so >? line_count buf - visible_lines
              then line_count buf - visible_lines else so in
    let so := if so <? 0 then 0 else so in
    Some ([], track_selection (scroll_to so state), running)
  else if (ch =? key "u") || (ch =? 21) then
    let so := scroll_offset buf - Z.quot visible_lines 2 in
    let so := if so <? 0 then 0 else so in
    Some ([], track_selection (scroll_to so state), running)
  else if ch =? key "009" then
    if (copy_mode state =? 0) && (buffer_count state >? 1) then
      Some ([],
            set_current_buffer
              (Z.rem (current_buffer state + 1) (buffer_count state)) state,
            running)
    else Some ([], state, running)
  else if ch =? KEY_BTAB then
    if (copy_mode state =? 0) && (buffer_count state >? 1) then
      let cur := current_buffer state - 1 in
      let cur := if cur <? 0 then buffer_count state - 1 else cur in
      Some ([], set_current_buffer cur state, running)
    else Some ([], state, running)
  else Some ([], state, running).

(** ** Highlighting *)

Definition is_keyword_of (keywords : list string) (word : cstr) : bool :=
  existsb (fun k => streq word (cs k)) keywords.

Definition is_c_keyword : cstr -> bool :=
  is_keyword_of
    [ "auto"; "break"; "case"; "char"; "const"; "continue"; "default"; "do";
      "double"; "else"; "enum"; "extern"; "float"; "for"; "goto"; "if";
      "int"; "long"; "register"; "return"; "short"; "signed"; "sizeof"; "static";
      "struct"; "switch"; "typedef"; "union"; "unsigned"; "void"; "volatile";
      "while" ]%string.

Definition is_python_keyword : cstr -> bool :=
  is_keyword_of
    [ "False"; "None"; "True"; "and"; "as"; "assert"; "async"; "await";
      "break"; "class"; "continue"; "def"; "del"; "elif"; "else"; "except";
      "finally"; "for"; "from"; "global"; "if"; "import"; "in"; "is";
      "lambda"; "nonlocal"; "not"; "or"; "pass"; "raise"; "return"; "try";
      "while"; "with"; "yield" ]%string.

Definition is_js_keyword : cstr -> bool :=
  is_keyword_of
    [ "async"; "await"; "break"; "case"; "catch"; "class"; "const"; "continue";
      "debugger"; "default"; "delete"; "do"; "else"; "export"; "extends";
      "finally"; "for"; "function"; "if"; "import"; "in"; "instanceof"; "let";
      "new"; "return"; "super"; "switch"; "this"; "throw"; "try"; "typeof";
      "var"; "void"; "while"; "with"; "yield" ]%string.

(** [s[k]] *)
Definition char_at (s : cstr) (k : Z) : ascii := nth (Z.to_nat k) s NUL.

(** Number of leading bytes of [s] that satisfy [P]. *)
Fixpoint span_length (P : ascii -> bool) (s : cstr) : Z :=
  match s with
  | [] => 0
  | c :: s' => if P c then 1 + span_length P s' else 0
  end.

(** [while (j < len && P(line[j])) j++;] with [len = strlen(line)]: the
    value of [j] after the loop. *)
Definition scan_while (P : ascii -> bool) (line : cstr) (j : Z) : Z :=
  j + span_length P (drop (Z.to_nat j) line).

(** [while (k < j && x < max_x) mvaddch(y, x++, s[k++]);] run for at most
    [n] rounds: the calls, and [k] and [x] after the loop. *)
Fixpoint put_chars (n : nat) (y x : Z) (s : cstr) (k j max_x : Z)
    : list event * Z * Z :=
  match n with
  | O => ([], k, x)
  | S n' =>
      if (k <? j) && (x <? max_x) then
        let '(evs, k', x') := put_chars n' y (x + 1) s (k + 1) j max_x in
        (Mvaddch y x (char_at s k) :: evs, k', x')
      else ([], k, x)
  end.

Definition draw_tok (y x : Z) (s : cstr) (i j max_x pair : Z) (bold : bool)
    : list event :=
  if x >=? max_x then []
  else
    [Attron pair bold]
      ++ (put_chars (Z.to_nat (j - i)) y x s i j max_x).1.1
      ++ [Attroff pair bold].

(** The token loop of the man branch. *)
Fixpoint highlight_man_loop (fuel : nat) (line : cstr) (len y i x line_width : Z)
    : option (list event) :=
  if (i <? len) && (x <? line_width) then
    match fuel with
    | O => None
    | S fuel' =>
        let ch := char_at line i in
        if isspace ch then
          app [Mvaddch y x ch]
            <$> highlight_man_loop fuel' line len y (i + 1) (x + 1) line_width
        else if Ascii.eqb ch "-" then
          let j := scan_while (fun c => negb (isspace c)) line i in
          app (draw_tok y x line i j line_width COLOR_NUMBER true)
            <$> highlight_man_loop fuel' line len y j (x + (j - i)) line_width
        else if isalpha ch || Ascii.eqb ch "_" then
          let j :=
            scan_while
              (fun c => isalnum c || Ascii.eqb c "_" || Ascii.eqb c "-") line i in
          let k := j in
          let kk := scan_while isdigit line (k + 2) in
          if (k + 2 <? len) && Ascii.eqb (char_at line k) "("
             && isdigit (char_at line (k + 1))
             && (kk <? len) && Ascii.eqb (char_at line kk) ")"
          then
            app (draw_tok y x line i j line_width COLOR_FUNCTION true
                   ++ draw_tok y (x + (j - i)) line k (kk + 1) line_width
                        COLOR_TYPE false)
              <$> highlight_man_loop fuel' line len y (kk + 1)
                    (x + (j - i) + (kk + 1 - k)) line_width
          else
            let '(evs, i', x') :=
              put_chars (Z.to_nat (j - i)) y x line i j line_width in
            app evs <$> highlight_man_loop fuel' line len y i' x' line_width
        else
          app [Mvaddch y x ch]
            <$> highlight_man_loop fuel' line len y (i + 1) (x + 1) line_width
    end
  else Some [].

(** The inner loop of a string literal: [n] bounds the rounds. *)
Fixpoint string_loop (n : nat) (y : Z) (line : cstr) (len i col line_width : Z)
    (quote : ascii) : list event * Z * Z :=
  match n with
  | O => ([], i, col)
  | S n' =>
      if (i <? len) && (col <? line_width) then
        let ch := char_at line i in
        if Ascii.eqb ch quote
           && ((i =? 0) || negb (Ascii.eqb (char_at line (i - 1)) BACKSLASH))
        then ([Mvaddch y col ch], i + 1, col + 1)
        else
          let '(evs, i', col') :=
            string_loop n' y line len (i + 1) (col + 1) line_width quote in
          (Mvaddch y col ch :: evs, i', col')
      else ([], i, col)
  end.

Definition slash_comment_lang (lang : Language) : bool :=
  match lang with
  | LANG_C | LANG_CPP | LANG_JAVA | LANG_JS | LANG_TS | LANG_CSS => true
  | _ => false
  end.

Definition hash_comment_lang (lang : Language) : bool :=
  match lang with
  | LANG_PYTHON | LANG_SHELL => true
  | _ => false
  end.

Definition keyword_of_lang (lang : Language) (word : cstr) : bool :=
  match lang with
  | LANG_C | LANG_CPP => is_c_keyword word
  | LANG_PYTHON => is_python_keyword word
  | LANG_JS | LANG_TS => is_js_keyword word
  | _ => false
  end.

(** The token loop for the other languages. *)
Fixpoint highlight_code_loop (fuel : nat) (line : cstr) (lang : Language)
    (len y i col line_width : Z) : option (list event) :=
  if (i <? len) && (col <? line_width) then
    match fuel with
    | O => None
    | S fuel' =>
        let ch := char_at line i in
        if slash_comment_lang lang && (i + 1 <? len)
           && Ascii.eqb (char_at line i) "/" && Ascii.eqb (char_at line (i + 1)) "/"
        then
          Some ([Attron COLOR_COMMENT false]
                  ++ (put_chars (Z.to_nat (len - i)) y col line i len line_width).1.1
                  ++ [Attroff COLOR_COMMENT false])
        else if hash_comment_lang lang && Ascii.eqb ch "#" then
          Some ([Attron COLOR_COMMENT false]
                  ++ (put_chars (Z.to_nat (len - i)) y col line i len line_width).1.1
                  ++ [Attroff COLOR_COMMENT false])
        else if Ascii.eqb ch DQUOTE || Ascii.eqb ch SQUOTE then
          let '(evs, i', col') :=
            string_loop (Z.to_nat (len - (i + 1))) y line len (i + 1) (col + 1)
              line_width ch in
          app ([Attron COLOR_STRING false; Mvaddch y col ch] ++ evs
                 ++ [Attroff COLOR_STRING false])
            <$> highlight_code_loop fuel' line lang len y i' col' line_width
        else if isdigit ch then
          let j := scan_while (fun c => isdigit c || Ascii.eqb c ".") line i in
          let '(evs, i', col') :=
            put_chars (Z.to_nat (j - i)) y col line i j line_width in
          app ([Attron COLOR_NUMBER false] ++ evs ++ [Attroff COLOR_NUMBER false])
            <$> highlight_code_loop fuel' line lang len y i' col' line_width
        else if isalpha ch || Ascii.eqb ch "_" then
          let w :=
            Z.min (scan_while (fun c => isalnum c || Ascii.eqb c "_") line i - i) 127 in
          let word := take (Z.to_nat w) (drop (Z.to_nat i) line) in
          let is_keyword := keyword_of_lang lang word in
          let '(evs, _, col') :=
            put_chars (Z.to_nat w) y col word 0 w line_width in
          app ((if is_keyword then [Attron COLOR_KEYWORD true] else [])
                 ++ evs
                 ++ (if is_keyword then [Attroff COLOR_KEYWORD true] else []))
            <$> highlight_code_loop fuel' line lang len y (i + w) col' line_width
        else
          app [Mvaddch y col ch]
            <$> highlight_code_loop fuel' line lang len y (i + 1) (col + 1) line_width
    end
  else Some [].

(** [while ( *p == ' ') p++;] *)
Fixpoint skip_spaces (p : cstr) : cstr :=
  match p with
  | [] => []
  | c :: p' => if Ascii.eqb c SPACE then skip_spaces p' else p
  end.

(** [highlight_line]; [line] is [None] for a null pointer.  The result is
    the sequence of screen calls. *)
Definition highlight_line (line : option cstr) (lang : Language)
    (y start_x line_width : Z) : option (list event) :=
  match line with
  | None => Some []
  | Some line =>
      let len := Z.of_nat (length line) in
      match lang with
      | LANG_MAN =>
          let p := skip_spaces line in
          if is_man_section_header p then
            Some [ Attron COLOR_KEYWORD true;
                   Mvaddnstr y start_x line (line_width - start_x);
                   Attroff COLOR_KEYWORD true ]
          else highlight_man_loop (length line) line len y 0 start_x line_width
      | _ => highlight_code_loop (length line) line lang len y 0 start_x line_width
      end
  end.

(** ** Notions the statements use *)

(** The least [n] with [a <= n * b], for [0 < b]. *)
Definition ceil_div (a b : Z) : Z := (a + b - 1) / b.

(** A line made of overstrike pairs only: each [x] printed, backspaced over
    and printed again. *)
Definition overstruck (xs : cstr) : cstr :=
  flat_map (fun x => [x; BS; x]) xs.

(** The letters of a string, in the sense of [isalpha]. *)
Definition letters_of (s : cstr) : cstr := List.filter isalpha s.

(** [needle] occurs in [s] as a run of consecutive, equal bytes. *)
Definition is_substring (needle s : cstr) : Prop :=
  exists pre post, s = pre ++ needle ++ post.

(** No entry of [table] is the extension of [filepath]; in particular when
    [filepath] has no extension at all. *)
Definition no_extension_matches (table : list (string * Language))
    (filepath : cstr) : Prop :=
  forall ext, strrchr filepath "." = Some ext -> table_lookup table ext = None.

(** The line [search_buffer] starts from: [start_line] itself when it is a
    line of the buffer, the last line for a negative one, the first line for
    one past the end. *)
Definition first_probe (n start_line : Z) : Z :=
  if start_line <? 0 then n - 1
  else if start_line >=? n then 0
  else start_line.

(** The state [main] ends up with for one file of three lines (the loader
    returns, see [foo_bar_baz_loaded]). *)
Definition foo_bar_baz : ViewerState :=
  default zero_state
    (main_load_file (cs "sample.txt")
       (Some [cs "foo" ++ [NEWLINE]; cs "bar" ++ [NEWLINE]; cs "baz" ++ [NEWLINE]])
       initial_state).

(** The state [main] ends up with for three files, with the second one
    selected afterwards. *)
Definition three_buffers : ViewerState :=
  let load (path text : string) (st : ViewerState) :=
    default st (main_load_file (cs path) (Some [cs text ++ [NEWLINE]]) st) in
  set_current_buffer 1
    (load "c.txt" "third" (load "b.txt" "second" (load "a.txt" "first" initial_state)))%string.

(** The scroll invariant of a buffer. *)
Definition scroll_in_range (b : Buffer) : Prop :=
  0 <= scroll_offset b < Z.max 1 (line_count b).

(** The store is in order: the current index is one of the buffers in use,
    these fit the array, and each keeps the scroll invariant. *)
Definition store_ok (st : ViewerState) : Prop :=
  0 <= current_buffer st < buffer_count st
  /\ buffer_count st <= Z.of_nat (length (buffers st))
  /\ forall i, 0 <= i < buffer_count st -> scroll_in_range (buffer_at st i).

(** The state after one key, for a key inside the model. *)
Definition after_key (ch max_y max_x : Z) (typed : cstr) (st : ViewerState)
    : ViewerState :=
  match handle_input ch max_y max_x typed st 1 with
  | Some (_, st', _) => st'
  | None => st
  end.

(** ** Further notions for the statements *)

(** A line of overstrikes in general: each [x] printed over some [u] (the
    underscore for underlining, [x] itself for bold). *)
Definition overstruck_over (pairs : list (ascii * ascii)) : cstr :=
  flat_map (fun p => [p.1; BS; p.2]) pairs.

Definition blank (c : ascii) : Prop := c = SPACE \/ c = TAB.

(** What the read loop of [load_file] stores for one string from [fgets]. *)
Definition clean_line (raw : cstr) : option cstr :=
  rtrim <$> strip_ansi (strip_overstrikes (cut_at_newline raw)).

(** While copy mode is on, the end of the selection is the line the current
    buffer is scrolled to. *)
Definition selection_ok (st : ViewerState) : Prop :=
  copy_mode st <> 0 ->
  copy_end_line st = scroll_offset (buffer_at st (current_buffer st)).

(** The keys that do nothing while copy mode is on. *)
Definition keys_off_in_copy_mode : list Z :=
  [ key "q"; key "Q"; key "r"; key "R"; key "x"; key "X"; key "v"; key "/";
    key "n"; key "N"; key "o"; key "O"; key "009"; KEY_BTAB ].

(** The fields of the selection. *)
Definition copy_fields (st : ViewerState) : Z * Z * Z :=
  (copy_mode st, copy_start_line st, copy_end_line st).

(** ** Commands *)

(** [is_man_command_arg]; [None] is the null pointer. *)
Definition is_man_command_arg (arg : option cstr) : bool :=
  match arg with
  | None => false
  | Some [] => false
  | Some ((_ :: _) as arg) =>
      if starts_with arg (cs "man ") then true
      else if contains_substr arg (cs "man ") then
        match strstr arg (cs "man ") with
        | Some p => negb (Ascii.eqb (char_at p 4) NUL)
        | None => false
        end
      else false
  end.

(** ** The other loaders *)

Definition CR : ascii := "013"%char.

(** [while (len > 0 && (line[len-1] == '\n' || line[len-1] == '\r'))
     line[--len] = '\0';] with [len = strlen(line)] *)
Fixpoint chomp_loop (fuel : nat) (line : cstr) : cstr :=
  match fuel with
  | O => line
  | S fuel' =>
      if (0 <? Z.of_nat (length line))
         && (Ascii.eqb (List.last line NUL) NEWLINE
             || Ascii.eqb (List.last line NUL) CR)
      then chomp_loop fuel' (removelast line)
      else line
  end.

Definition chomp (line : cstr) : cstr := chomp_loop (length line) line.

(** [buf->lines[buf->line_count++] = strdup(line);] *)
Definition push_line (line : cstr) (buf : Buffer) : Buffer :=
  {| lines := <[Z.to_nat (line_count buf) := Some line]> (lines buf);
     line_count := line_count buf + 1;
     filepath := filepath buf; http_request := http_request buf;
     lang := lang buf; scroll_offset := scroll_offset buf;
     is_active := is_active buf; is_http_buffer := is_http_buffer buf |}.

(** The read loop of [load_stdin] and of [load_command] (the same text in
    both): [stream] holds the strings [fgets] has yet to return.  The test
    calls [fgets] before it looks at [line_count], so a full buffer still
    takes one string off the stream.  The result carries what is left of the
    stream. *)
Fixpoint read_lines (stream : list cstr) (buf : Buffer)
    : option (Buffer * list cstr) :=
  match stream with
  | [] => Some (buf, [])
  | line :: stream' =>
      if line_count buf <? MAX_LINES then
        let line := chomp line in
        let line := strip_overstrikes line in
        match strip_ansi line with
        | None => None
        | Some line => read_lines stream' (push_line (rtrim line) buf)
        end
      else Some (buf, stream')
  end.

(** [load_stdin]; [stdin] is the stream before the call, and the result
    carries the stream after it. *)
Definition load_stdin (buf : Buffer) (stdin : list cstr)
    : option (Z * Buffer * list cstr) :=
  let buf :=
    {| lines := lines buf; line_count := 0;
       filepath := take 1023 (cs "<stdin>"); http_request := [];
       lang := LANG_NONE; scroll_offset := 0;
       is_active := 1; is_http_buffer := 0 |} in
  match read_lines stdin buf with
  | None => None
  | Some (buf, stdin) =>
      Some (if line_count buf >? 0 then 0 else -1, buf, stdin)
  end.

(** [load_command]; [pipe] is what [popen(cmd, "r")] delivers: [None] for
    the null pointer, else the strings [fgets] returns from it. *)
Definition load_command (buf : Buffer) (label : cstr)
    (pipe : option (list cstr)) (lang : Language) : option (Z * Buffer) :=
  match pipe with
  | None => Some (-1, buf)
  | Some stream =>
      let buf :=
        {| lines := lines buf; line_count := 0;
           filepath := take 1023 label; http_request := [];
           lang := lang; scroll_offset := 0;
           is_active := 1; is_http_buffer := 0 |} in
      match read_lines stream buf with
      | None => None
      | Some (buf, _) => Some (if line_count buf >? 0 then 0 else -1, buf)
      end
  end.


(** ** Start-up *)









(** A buffer as a loader leaves it. *)
Definition loaded_buffer (b : Buffer) : Prop :=
  scroll_offset b = 0 /\ is_active b = 1
  /\ 0 <= line_count b <= MAX_LINES
  /\ forall i, 0 <= i < line_count b -> line_ptr (lines b) i <> None.

(** What the read loop of [load_stdin] and [load_command] stores for one
    string from [fgets]. *)
Definition clean_chunk (raw : cstr) : option cstr :=
  rtrim <$> strip_ansi (strip_overstrikes (chomp raw)).

Definition line_end (c : ascii) : Prop := c = NEWLINE \/ c = CR.

(** The buffer [b] holds the strings of [stream], read into [old] under the
    name [path] and the language [l]. *)
Definition holds_stream (stream : list cstr) (path : cstr) (l : Language)
    (old b : Buffer) : Prop :=
  line_count b = Z.min (Z.of_nat (length stream)) MAX_LINES
  /\ scroll_offset b = 0 /\ is_active b = 1 /\ is_http_buffer b = 0
  /\ filepath b = path /\ lang b = l
  /\ length (lines b) = length (lines old)
  /\ (forall (j : nat) raw,
        stream !! j = Some raw -> Z.of_nat j < MAX_LINES ->
        exists s,
          line_ptr (lines b) (Z.of_nat j) = Some s
          /\ clean_chunk raw = Some s
          /\ ~ In BS s /\ ~ In ESC s
          /\ (forall c, last s = Some c -> ~ blank c))
  /\ (forall i, Z.of_nat (length stream) <= i ->
        line_ptr (lines b) i = line_ptr (lines old) i).



(** ** HTTP requests *)

(** [snprintf(cmd, sizeof(cmd), "xh %s 2>&1 | jq . 2>/dev/null || xh %s 2>&1",
     request_input, request_input);] *)
Definition http_command (request_input : cstr) : cstr :=
  take 2047 (cs "xh " ++ request_input ++ cs " 2>&1 | jq . 2>/dev/null || xh "
             ++ request_input ++ cs " 2>&1").

(** [snprintf(label, sizeof(label), "[HTTP: %s]", request_input);] *)
Definition http_label (request_input : cstr) : cstr :=
  take 255 (cs "[HTTP: " ++ request_input ++ cs "]").

(** [load_http_response]; [popen] answers for the command it is given as in
    [load_command].  The function first frees the lines the buffer holds,
    then reads the output of the command with the loop of [load_command].
    The result carries the calls of [free], the return value and the
    buffer. *)
Definition load_http_response (popen : cstr -> option (list cstr))
    (buf : Buffer) (request_input : cstr) : option (list event * Z * Buffer) :=
  let '(evs, ls) :=
    for_loop 0 (line_count buf)
      (fun i '(evs, ls) => (evs ++ [Free (line_ptr ls i)], <[Z.to_nat i := None]> ls))
      ([], lines buf) in
  let buf :=
    {| lines := ls; line_count := 0;
       filepath := take 1023 (http_label request_input);
       http_request := take 511 request_input;
       lang := LANG_NONE; scroll_offset := 0;
       is_active := 1; is_http_buffer := 1 |} in
  match popen (http_command request_input) with
  | None => Some (evs, -1, buf)
  | Some stream =>
      match read_lines stream buf with
      | None => None
      | Some (buf, _) => Some (evs, if line_count buf >? 0 then 0 else -1, buf)
      end
  end.

(** What [prompt_http_request] holds in [input] after
    [getnstr(input, sizeof(input) - 1)] and the trimming loop. *)
Definition http_input (typed : cstr) : cstr :=
  let input := take 511 typed in
  trim_trailing_space (length input) input.

(** [prompt_http_request]; [typed] is the line entered at the prompt. *)
Definition prompt_http_request (max_y max_x : Z) (typed : cstr)
    (popen : cstr -> option (list cstr)) (state : ViewerState)
    : option (list event * ViewerState) :=
  let evs :=
    [ Attron COLOR_STATUS true;
      Mvhline (max_y - 2) 0 SPACE max_x;
      Mvprintw (max_y - 2) 1 "HTTP Request (e.g. GET api.example.com/path): ";
      Attroff COLOR_STATUS true;
      Move (max_y - 2) 49;
      Refresh;
      Echo; CursSet 1; Noecho; CursSet 0 ] in
  let input := http_input typed in
  match input with
  | [] => Some (evs, state)
  | _ :: _ =>
      if buffer_count state <? MAX_BUFFERS then
        match load_http_response popen
                (buffer_at state (buffer_count state)) input with
        | None => None
        | Some (fevs, rc, buf) =>
            let state := store_buffer (buffer_count state) buf state in
            if rc =? 0 then
              let state := set_current_buffer (buffer_count state) state in
              Some (evs ++ fevs,
                    set_buffer_count (buffer_count state + 1) state)
            else
              Some (evs ++ fevs
                    ++ status_message max_y max_x "Failed to execute HTTP request",
                    state)
        end
      else
        Some (evs ++ status_message max_y max_x "Maximum buffer limit reached",
              state)
  end.


(** Every line array of the store has its [MAX_LINES] slots, and the store
    its [MAX_BUFFERS] buffers. *)
Definition full_size (st : ViewerState) : Prop :=
  Z.of_nat (length (buffers st)) = MAX_BUFFERS
  /\ forall i, Z.of_nat (length (lines (buffer_at st i))) = MAX_LINES.

(** The block that [prompt_search], [next_match] and [prev_match] share for
    a line that was found: scroll to it and count the matching lines above
    it. *)
Definition jump_to_match (found : Z) (st : ViewerState) : ViewerState :=
  let cur := current_buffer st in
  let st1 := store_buffer cur (set_scroll_offset found (buffer_at st cur)) st in
  set_current_match
    (count_matching_lines (buffer_at st1 cur) (search_term st) found) st1.

(** ** What reaches the screen *)

(** The character cells a sequence of calls writes with [mvaddch], in
    order: row, column, byte. *)
Definition drawn (evs : list event) : list (Z * Z * ascii) :=
  flat_map (fun e => match e with
                     | Mvaddch y x c => [(y, x, c)]
                     | _ => []
                     end) evs.

(** The cells of a string written from column [x] of row [y] on. *)
Definition cells (y x : Z) (s : cstr) : list (Z * Z * ascii) :=
  imap (fun k c => (y, x + Z.of_nat k, c)) s.




(** The cells of the bytes [i], ..., [i + d - 1] of [line] written from
    column [x] on and cut at column [w]. *)
Definition shown (line : cstr) (y w i x d : Z) : list (Z * Z * ascii) :=
  cells y x (take (Z.to_nat (Z.min d (w - x))) (drop (Z.to_nat i) line)).

(** The attribute calls of a sequence of screen calls, followed from the
    attribute [open] being on ([None]: none): the attribute that is on at
    the end, or [None] when an [attron] comes while one is on, or an
    [attroff] that does not match the one that is on. *)
Fixpoint attr_run (open : option (Z * bool)) (evs : list event)
    : option (option (Z * bool)) :=
  match evs with
  | [] => Some open
  | Attron p b :: evs' =>
      match open with
      | None => attr_run (Some (p, b)) evs'
      | Some _ => None
      end
  | Attroff p b :: evs' =>
      match open with
      | Some (p', b') =>
          if (p =? p') && Bool.eqb b b' then attr_run None evs' else None
      | None => None
      end
  | _ :: evs' => attr_run open evs'
  end.

(** ** Opening a file from the viewer *)




(** ** Drawing the buffer *)

Definition COLOR_LINENR : Z := 10.
Definition COLOR_COPY_SELECT : Z := 11.

(** The calls of [draw_buffer]: those of [event], and the ones it makes
    besides. *)
Inductive call :=
| Ncurses (e : event)
| AttronSelect                      (* attron(COLOR_PAIR(COLOR_COPY_SELECT) | A_REVERSE) *)
| AttroffSelect
| MvprintwNumber (y x n : Z)        (* mvprintw(y, x, "%4d ", n) *)
| FreeArray (segments : list cstr). (* free(wl->segments) *)

(** The screen rows a sequence of [event]s names. *)
Definition rows (evs : list event) : list Z :=
  flat_map (fun e => match e with
                     | Mvaddch y _ _ | Mvaddnstr y _ _ _ | Mvhline y _ _ _
                     | Mvprintw y _ _ | Move y _ => [y]
                     | _ => []
                     end) evs.

(** The screen rows a sequence of calls names. *)
Definition call_rows (calls : list call) : list Z :=
  flat_map (fun c => match c with
                     | Ncurses e => rows [e]
                     | MvprintwNumber y _ _ => [y]
                     | _ => []
                     end) calls.

(** The text cells a sequence of calls writes with [mvaddch] and
    [mvaddnstr] (which writes at most [n] bytes of its string). *)
Definition written (calls : list call) : list (Z * Z * ascii) :=
  flat_map (fun c => match c with
                     | Ncurses (Mvaddch y x ch) => [(y, x, ch)]
                     | Ncurses (Mvaddnstr y x str n) =>
                         cells y x (take (Z.to_nat n) str)
                     | _ => []
                     end) calls.

(** [free_wrapped_line]: the calls, and [*wl] afterwards. *)
Definition free_wrapped_line (wl : WrappedLine) : list call * WrappedLine :=
  match segments wl with
  | None => ([], wl)
  | Some segs =>
      (for_loop 0 (count wl)
         (fun i calls => calls ++ [Ncurses (Free (segs !! Z.to_nat i))]) []
       ++ [FreeArray segs],
       {| count := 0; segments := None |})
  end.

(** [in_selection] of [draw_buffer] *)
Definition in_selection (state : ViewerState) (line : Z) : bool :=
  let a := copy_start_line state in
  let b := copy_end_line state in
  let lo := if a <? b then a else b in
  let hi := if a >? b then a else b in
  negb (copy_mode state =? 0) && (line >=? lo) && (line <=? hi).

(** [if (in_selection) attron(...); highlight_line(...);
     if (in_selection) attroff(...);] *)
Definition draw_text (state : ViewerState) (line_nr : Z) (text : option cstr)
    (lang : Language) (y start_x line_width : Z) : option (list call) :=
  match highlight_line text lang y start_x line_width with
  | None => None
  | Some evs =>
      Some ((if in_selection state line_nr then [AttronSelect] else [])
              ++ map Ncurses evs
              ++ (if in_selection state line_nr then [AttroffSelect] else []))
  end.

(** [for (seg = 0; seg < wl.count && y < content_start_y + content_height;
     seg++)] of the wrapping branch, from [seg] on, for at most [n] rounds:
    the calls and [y] after the loop. *)
Fixpoint draw_segments (n : nat) (state : ViewerState) (lang : Language)
    (wl : WrappedLine) (logical_line max_x content_height line_nr_width : Z)
    (seg y : Z) : option (list call * Z) :=
  match n with
  | O => Some ([], y)
  | S n' =>
      if (seg <? count wl) && (y <? 1 + content_height) then
        let number :=
          if negb (show_line_numbers state =? 0) && (seg =? 0) then
            [ Ncurses (Attron COLOR_LINENR false);
              MvprintwNumber y 1 (logical_line + 1);
              Ncurses (Attroff COLOR_LINENR false) ]
          else if negb (show_line_numbers state =? 0) then
            [ Ncurses (Mvprintw y 1 "     ") ]
          else [] in
        let text :=
          match segments wl with
          | Some segs => segs !! Z.to_nat seg
          | None => None
          end in
        match draw_text state logical_line text lang y (line_nr_width + 1) max_x with
        | None => None
        | Some calls =>
            match draw_segments n' state lang wl logical_line max_x
                    content_height line_nr_width (seg + 1) (y + 1) with
            | None => None
            | Some (more, y') => Some (number ++ calls ++ more, y')
            end
        end
      else Some ([], y)
  end.

(** The first [while] of the wrapping branch, and the second one after it. *)
Fixpoint draw_wrapped (fuel : nat) (state : ViewerState) (buf : Buffer)
    (max_x content_height line_nr_width y logical_line : Z)
    : option (list call) :=
  if (y <? 1 + content_height) && (logical_line <? line_count buf) then
    match fuel with
    | O => None
    | S fuel' =>
        let text_width := max_x - line_nr_width - 1 in
        let text_width := if text_width <=? 0 then max_x else text_width in
        match wrap_line (line_ptr (lines buf) logical_line) text_width with
        | None => None
        | Some wl =>
            match draw_segments (Z.to_nat (count wl)) state (lang buf) wl
                    logical_line max_x content_height line_nr_width 0 y with
            | None => None
            | Some (calls, y') =>
                app ([Ncurses (Mvhline y 0 SPACE max_x)] ++ calls
                       ++ (free_wrapped_line wl).1)
                  <$> draw_wrapped fuel' state buf max_x content_height
                        line_nr_width y' (logical_line + 1)
            end
        end
    end
  else
    Some (for_loop y (1 + content_height)
            (fun y calls => calls ++ [Ncurses (Mvhline y 0 SPACE max_x)]) []).

(** One round of the [for] of the other branch. *)
Definition draw_row (state : ViewerState) (buf : Buffer)
    (max_x line_nr_width i : Z) : option (list call) :=
  let line_idx := scroll_offset buf + i in
  let y := 1 + i in
  if line_idx >=? line_count buf then Some [Ncurses (Mvhline y 0 SPACE max_x)]
  else
    let number :=
      if negb (show_line_numbers state =? 0) then
        [ Ncurses (Attron COLOR_LINENR false);
          MvprintwNumber y 1 (line_idx + 1);
          Ncurses (Attroff COLOR_LINENR false) ]
      else [] in
    match draw_text state line_idx (line_ptr (lines buf) line_idx) (lang buf)
            y (line_nr_width + 1) max_x with
    | None => None
    | Some calls => Some ([Ncurses (Mvhline y 0 SPACE max_x)] ++ number ++ calls)
    end.

(** [draw_buffer]; [max_y] and [max_x] are the screen size. *)
Definition draw_buffer (max_y max_x : Z) (state : ViewerState)
    : option (list call) :=
  let buf := buffer_at state (current_buffer state) in
  let content_height := max_y - 3 in
  let line_nr_width := if show_line_numbers state =? 0 then 0 else 6 in
  if negb (wrap_enabled state =? 0) then
    draw_wrapped (Z.to_nat (line_count buf - scroll_offset buf)) state buf
      max_x content_height line_nr_width 1 (scroll_offset buf)
  else
    for_loop 0 content_height
      (fun i acc =>
         match acc with
         | None => None
         | Some calls =>
             app calls <$> draw_row state buf max_x line_nr_width i
         end)
      (Some []).

(** The rows of the content area in the order and number the wrapping
    branch fills them: the segments of the lines from [logical_line] on. *)
Definition segments_of (line : option cstr) (width : Z) : list cstr :=
  match wrap_line line width with
  | Some {| count := _; segments := Some segs |} => segs
  | _ => []
  end.

(** Calls of [attron], [attroff] and [mvaddch] only. *)
Definition plain (evs : list event) : bool :=
  forallb (fun e => match e with
                    | Attron _ _ | Attroff _ _ | Mvaddch _ _ _ => true
                    | _ => false
                    end) evs.

(** The segments of the lines [logical_line], [logical_line + 1], ... of a
    buffer up to its last line, in order. *)
Definition segments_from (buf : Buffer) (width logical_line : Z) : list cstr :=
  concat (map (fun k : nat =>
                 segments_of (line_ptr (lines buf) (logical_line + Z.of_nat k)) width)
            (seq 0 (Z.to_nat (line_count buf - logical_line)))).

(** Strings written one per row from row [y] on, each from column [x] on and
    cut at column [w]. *)
Definition rows_of_text (y x w : Z) (texts : list cstr) : list (Z * Z * ascii) :=
  concat (imap (fun r s => cells (y + Z.of_nat r) x (take (Z.to_nat (w - x)) s))
            texts).

(** ** The main loop *)





(** * Proofs *)

(** ** Overstrike collapse *)

Lemma strip_overstrikes_loop_app a : forall b d,
  strip_overstrikes_loop (a ++ b) d
  = strip_overstrikes_loop b (strip_overstrikes_loop a d).
Proof.
  induction a as [|c a IH]; intros b d; simpl; [reflexivity|].
  destruct (Ascii.eqb c BS); apply IH.
Qed.

Lemma removelast_keeps_out (c : ascii) (d : cstr) :
  ~ In c d -> ~ In c (removelast d).
Proof.
  induction d as [|x d IH]; simpl; [tauto|].
  destruct d as [|y d]; [simpl; tauto|].
  intros Hn [He|Hin]; [apply Hn; now left|].
  apply IH; [|exact Hin]. intros H. apply Hn. now right.
Qed.

Lemma strip_overstrikes_loop_no_bs src : forall dst,
  ~ In BS dst -> ~ In BS (strip_overstrikes_loop src dst).
Proof.
  induction src as [|c src IH]; intros dst Hd; simpl; [exact Hd|].
  destruct (Ascii.eqb c BS) eqn:Hc.
  - apply IH. destruct dst as [|x dst]; [exact Hd|].
    now apply removelast_keeps_out.
  - apply IH. intros Hin. apply in_app_or in Hin as [Hin|[He|[]]]; [tauto|].
    subst c. rewrite Ascii.eqb_refl in Hc. discriminate.
Qed.

Lemma strip_overstrikes_loop_pair x src dst :
  x <> BS ->
  strip_overstrikes_loop (x :: BS :: x :: src) dst
  = strip_overstrikes_loop src (dst ++ [x]).
Proof.
  intros Hx. apply Ascii.eqb_neq in Hx.
  cbn [strip_overstrikes_loop]. rewrite Hx, Ascii.eqb_refl.
  rewrite removelast_last.
  destruct (dst ++ [x]) eqn:E; [destruct dst; discriminate|].
  now rewrite <- E.
Qed.

Lemma strip_overstrikes_loop_overstruck xs : forall dst,
  Forall (fun x => x <> BS) xs ->
  strip_overstrikes_loop (overstruck xs) dst = dst ++ xs.
Proof.
  induction xs as [|x xs IH]; intros dst Hxs.
  - simpl. now rewrite app_nil_r.
  - inversion Hxs as [|? ? Hx Hxs']; subst.
    change (overstruck (x :: xs)) with (x :: BS :: x :: overstruck xs).
    rewrite strip_overstrikes_loop_pair by exact Hx.
    rewrite (IH _ Hxs'). now rewrite <- app_assoc.
Qed.

(** C8.  [strip_overstrikes] reads the line left to right; a backspace is
    never copied and removes the last byte written so far, if there is one
    (so a leading backspace does nothing); any other byte is appended.  From
    this, a line made only of pairs [x BS x] comes out as the [x]s alone,
    and no backspace is left in any output. *)
Theorem strip_overstrikes_collapses :
  (forall s, strip_overstrikes (s ++ [BS]) = removelast (strip_overstrikes s))
  /\ (forall s c, c <> BS -> strip_overstrikes (s ++ [c]) = strip_overstrikes s ++ [c])
  /\ (forall s, strip_overstrikes (BS :: s) = strip_overstrikes s)
  /\ (forall s, ~ In BS (strip_overstrikes s))
  /\ (forall xs, Forall (fun x => x <> BS) xs ->
        strip_overstrikes (overstruck xs) = xs).
Proof.
  unfold strip_overstrikes. repeat split.
  - intros s. rewrite strip_overstrikes_loop_app. simpl.
    destruct (strip_overstrikes_loop s []); reflexivity.
  - intros s c Hc. rewrite strip_overstrikes_loop_app. simpl.
    apply Ascii.eqb_neq in Hc. now rewrite Hc.
  - intros s. apply strip_overstrikes_loop_no_bs. simpl. tauto.
  - intros xs Hxs. now rewrite strip_overstrikes_loop_overstruck.
Qed.

Lemma strip_overstrikes_collapses_witness :
  strip_overstrikes (overstruck (cs "NAME")) = cs "NAME".
Proof.
  apply (proj2 (proj2 (proj2 (proj2 strip_overstrikes_collapses)))).
  repeat constructor; discriminate.
Defined.

(** ** Escape stripping *)

Lemma skip_until_length stop p : (length (skip_until stop p) <= length p)%nat.
Proof.
  induction p as [|c p IH]; simpl; [lia|].
  destruct (stop c); simpl; lia.
Qed.

Lemma advance_length p : (length (advance p) <= length p)%nat.
Proof. destruct p; simpl; lia. Qed.

Lemma strip_ansi_loop_returns fuel : forall p d,
  (length p <= fuel)%nat ->
  exists r, strip_ansi_loop fuel p d = Some (d ++ r) /\ ~ In ESC r.
Proof.
  induction fuel as [|fuel IH]; intros p d Hlen.
  - destruct p; simpl in *; [|lia]. exists []. rewrite app_nil_r. auto.
  - destruct p as [|c p1]; simpl.
    + exists []. rewrite app_nil_r. auto.
    + simpl in Hlen.
      destruct (Ascii.eqb c ESC) eqn:Hc.
      * pose proof (advance_length p1) as Ha.
        pose proof (skip_until_length is_csi_final (tl p1)) as H1.
        pose proof (skip_until_length is_bel (tl p1)) as H2.
        pose proof (advance_length (skip_until is_csi_final (tl p1))) as H3.
        pose proof (advance_length (skip_until is_bel (tl p1))) as H4.
        assert (length (tl p1) <= length p1)%nat by (destruct p1; simpl; lia).
        destruct (Ascii.eqb (peek p1) "["%char);
          [|destruct (Ascii.eqb (peek p1) "]"%char)]; apply IH; lia.
      * destruct (IH p1 (d ++ [c])) as (r & Hr & Hesc); [lia|].
        exists (c :: r). rewrite Hr, <- app_assoc. split; [reflexivity|].
        intros [He|Hin]; [|tauto].
        subst c. rewrite Ascii.eqb_refl in Hc. discriminate.
Qed.

Lemma strip_ansi_loop_no_esc fuel : forall p d,
  ~ In ESC p -> (length p <= fuel)%nat ->
  strip_ansi_loop fuel p d = Some (d ++ p).
Proof.
  induction fuel as [|fuel IH]; intros p d Hesc Hlen.
  - destruct p; simpl in *; [|lia]. now rewrite app_nil_r.
  - destruct p as [|c p1]; simpl.
    + now rewrite app_nil_r.
    + simpl in Hlen. destruct (Ascii.eqb c ESC) eqn:Hc.
      * apply Ascii.eqb_eq in Hc. subst c. exfalso. apply Hesc. now left.
      * rewrite IH; [|intros Hin; apply Hesc; now right|lia].
        now rewrite <- app_assoc.
Qed.

(** C2.  On every input [strip_ansi] returns; its output holds no ESC byte,
    and stripping the output again gives the output back. *)
Theorem strip_ansi_idempotent (s : cstr) :
  exists t, strip_ansi s = Some t /\ ~ In ESC t /\ strip_ansi t = Some t.
Proof.
  unfold strip_ansi.
  destruct (strip_ansi_loop_returns (length s) s []) as (r & Hr & Hesc); [lia|].
  exists r. simpl in Hr. repeat split; trivial.
  now apply (strip_ansi_loop_no_esc (length r) r []).
Qed.

(** ** Wrapping *)

Lemma ceil_div_bounds a b :
  0 < b -> 0 < a -> (ceil_div a b - 1) * b < a <= ceil_div a b * b.
Proof.
  intros Hb Ha. unfold ceil_div.
  pose proof (Z.div_mod (a + b - 1) b) as Hdm.
  pose proof (Z.mod_pos_bound (a + b - 1) b Hb) as Hm.
  nia.
Qed.

Lemma ceil_div_step a b : 0 < b -> b < a -> ceil_div a b = 1 + ceil_div (a - b) b.
Proof.
  intros Hb Ha. unfold ceil_div.
  replace (a + b - 1) with ((a - b + b - 1) + 1 * b) by lia.
  rewrite Z.div_add by lia. lia.
Qed.

Lemma ceil_div_last a b : 0 < a <= b -> ceil_div a b = 1.
Proof.
  intros H. unfold ceil_div.
  symmetry. apply (Z.div_unique_pos (a + b - 1) b 1 (a - 1)); lia.
Qed.

Lemma ceil_div_0 b : 0 < b -> ceil_div 0 b = 0.
Proof. intros H. unfold ceil_div. apply Z.div_small. lia. Qed.

Lemma wrap_line_loop_spec (line : cstr) (width : Z) :
  0 < width ->
  forall fuel pos cnt segs,
    0 <= pos <= Z.of_nat (length line) ->
    (Z.to_nat (Z.of_nat (length line) - pos) <= fuel)%nat ->
    exists rest,
      wrap_line_loop fuel line width (Z.of_nat (length line)) pos
        {| count := cnt; segments := Some segs |}
      = Some {| count := cnt + Z.of_nat (length rest);
                segments := Some (segs ++ rest) |}
      /\ concat rest = drop (Z.to_nat pos) line
      /\ Z.of_nat (length rest) = ceil_div (Z.of_nat (length line) - pos) width
      /\ (forall i seg, rest !! i = Some seg ->
            Z.of_nat (length seg)
            = Z.min width (Z.of_nat (length line) - pos - Z.of_nat i * width)).
Proof.
  intros Hw. set (len := Z.of_nat (length line)).
  induction fuel as [|fuel IH]; intros pos cnt segs Hpos Hfuel.
  - assert (pos = len) by lia. subst pos.
    exists []. simpl. rewrite Z.ltb_irrefl, app_nil_r, Z.add_0_r.
    repeat split.
    + symmetry. apply drop_ge. unfold len. lia.
    + rewrite Z.sub_diag. now rewrite ceil_div_0.
    + intros i seg H. discriminate.
  - cbn [wrap_line_loop count segments option_map].
    destruct (pos <? len) eqn:Hlt.
    + apply Z.ltb_lt in Hlt.
      set (take_n := if len - pos >? width then width else len - pos).
      assert (Htake : 0 < take_n <= width /\ take_n <= len - pos
                      /\ (take_n = width \/ take_n = len - pos)).
      { unfold take_n. destruct (len - pos >? width) eqn:E.
        - apply Z.gtb_lt in E. lia.
        - rewrite Z.gtb_ltb in E. apply Z.ltb_ge in E. lia. }
      clearbody take_n.
      set (seg := take (Z.to_nat take_n) (drop (Z.to_nat pos) line)).
      destruct (IH (pos + take_n) (cnt + 1) (segs ++ [seg])) as (rest & Hr & Hcat & Hn & Hlen);
        [lia|lia|].
      assert (Hseg : Z.of_nat (length seg) = take_n).
      { unfold seg. rewrite length_take, length_drop. unfold len in *. lia. }
      exists (seg :: rest). repeat split.
      * etransitivity; [exact Hr|].
        f_equal. f_equal; [simpl length; lia|]. f_equal. now rewrite <- app_assoc.
      * simpl. rewrite Hcat. unfold seg.
        replace (Z.to_nat (pos + take_n)) with (Z.to_nat pos + Z.to_nat take_n)%nat by lia.
        rewrite <- drop_drop. apply take_drop.
      * simpl length. rewrite Nat2Z.inj_succ, Hn.
        destruct Htake as (H1 & H2 & [H3|H3]).
        -- destruct (Z.eq_dec (len - pos) width) as [E|E].
           ++ rewrite H3. replace (len - (pos + width)) with 0 by lia.
              rewrite ceil_div_0, ceil_div_last; lia.
           ++ rewrite (ceil_div_step (len - pos) width) by lia.
              rewrite H3.
              replace (len - (pos + width)) with (len - pos - width) by lia. lia.
        -- rewrite H3. replace (len - (pos + (len - pos))) with 0 by lia.
           rewrite ceil_div_0, ceil_div_last; lia.
      * intros [|i] s Hi; simpl in Hi.
        -- inversion Hi; subst s. rewrite Hseg. lia.
        -- rewrite (Hlen i s Hi). rewrite Nat2Z.inj_succ.
           destruct Htake as (H1 & H2 & [H3|H3]); rewrite H3.
           ++ f_equal. lia.
           ++ pose proof (lookup_lt_Some _ _ _ Hi) as Hb.
              assert (Z.of_nat (length rest) = 0).
              { rewrite Hn. replace (len - (pos + take_n)) with 0 by lia.
                now apply ceil_div_0. }
              lia.
    + apply Z.ltb_ge in Hlt. assert (pos = len) by lia. subst pos.
      exists []. rewrite app_nil_r, Z.add_0_r.
      repeat split.
      * symmetry. apply drop_ge. unfold len. lia.
      * rewrite Z.sub_diag. now rewrite ceil_div_0.
      * intros i seg H. discriminate.
Qed.

(** C1.  For a positive width [wrap_line] returns the segments of the line
    in order: their concatenation is the line; an empty line gives the one
    empty segment; a non-empty line gives [ceil_div len width] segments, all
    but the last of exactly [width] bytes and the last holding the remaining
    [len - (count - 1) * width] bytes, between 1 and [width].  For a width
    of zero or less the result has no segments at all (count 0 and a null
    segment array).  The three sample calls of the specification are
    included. *)
Theorem wrap_line_segments (line : cstr) (width : Z) :
  (0 < width ->
   exists segs,
     wrap_line (Some line) width
     = Some {| count := Z.of_nat (length segs); segments := Some segs |}
     /\ concat segs = line
     /\ (line = [] -> segs = [ [] ])
     /\ (line <> [] ->
         Z.of_nat (length segs) = ceil_div (Z.of_nat (length line)) width
         /\ (forall i seg, segs !! i = Some seg -> (S i < length segs)%nat ->
               Z.of_nat (length seg) = width)
         /\ (forall seg, last segs = Some seg ->
               Z.of_nat (length seg)
               = Z.of_nat (length line) - (Z.of_nat (length segs) - 1) * width
               /\ 0 < Z.of_nat (length seg) <= width)))
  /\ (width <= 0 ->
      wrap_line (Some line) width = Some {| count := 0; segments := None |})
  /\ wrap_line (Some (cs "abcdefgh")) 3
     = Some {| count := 3; segments := Some [cs "abc"; cs "def"; cs "gh"] |}
  /\ wrap_line (Some (cs "")) 5 = Some {| count := 1; segments := Some [cs ""] |}
  /\ wrap_line (Some line) 0 = Some {| count := 0; segments := None |}.
Proof.
  split; [|split; [|repeat split]].
  - intros Hw. unfold wrap_line.
    destruct (width <=? 0) eqn:E; [apply Z.leb_le in E; lia|].
    destruct line as [|c line'] eqn:Hline.
    + exists [ [] ]. simpl. repeat split; congruence.
    + rewrite <- Hline.
      assert (Hne : 0 < Z.of_nat (length line)) by (subst line; simpl; lia).
      destruct (Z.of_nat (length line) =? 0) eqn:E0; [apply Z.eqb_eq in E0; lia|].
      destruct (wrap_line_loop_spec line width Hw (length line) 0 0 [])
        as (segs & Hr & Hcat & Hn & Hlen); [lia|lia|].
      rewrite Z.sub_0_r in Hn.
      pose proof (ceil_div_bounds _ _ Hw Hne) as Hb. rewrite <- Hn in Hb.
      exists segs. rewrite Hr. simpl. repeat split; trivial.
      * intros E1. subst line. discriminate.
      * intros i seg Hi Hlt. rewrite (Hlen i seg Hi). nia.
      * rewrite last_lookup in H0. rewrite (Hlen _ _ H0).
        pose proof (lookup_lt_Some _ _ _ H0). nia.
      * rewrite last_lookup in H0. rewrite (Hlen _ _ H0).
        pose proof (lookup_lt_Some _ _ _ H0). nia.
      * rewrite last_lookup in H0. rewrite (Hlen _ _ H0).
        pose proof (lookup_lt_Some _ _ _ H0). nia.
  - intros Hw. unfold wrap_line.
    apply Z.leb_le in Hw. now rewrite Hw.
Qed.

Lemma wrap_line_segments_witness :
  exists segs,
    wrap_line (Some (cs "abcdefgh")) 3
    = Some {| count := Z.of_nat (length segs); segments := Some segs |}
    /\ concat segs = cs "abcdefgh"
    /\ (cs "abcdefgh" = [] -> segs = [ [] ])
    /\ (cs "abcdefgh" <> [] ->
        Z.of_nat (length segs) = ceil_div (Z.of_nat (length (cs "abcdefgh"))) 3
        /\ (forall i seg, segs !! i = Some seg -> (S i < length segs)%nat ->
              Z.of_nat (length seg) = 3)
        /\ (forall seg, last segs = Some seg ->
              Z.of_nat (length seg)
              = Z.of_nat (length (cs "abcdefgh")) - (Z.of_nat (length segs) - 1) * 3
              /\ 0 < Z.of_nat (length seg) <= 3)).
Proof.
  apply (proj1 (wrap_line_segments (cs "abcdefgh") 3)). lia.
Defined.

(** ** The C library models meet their descriptions *)

Lemma streq_eq a : forall b, streq a b = true <-> a = b.
Proof.
  induction a as [|x a IH]; intros [|y b]; simpl; split; try congruence.
  - intros H. apply andb_true_iff in H as [H1 H2].
    apply Ascii.eqb_eq in H1. apply IH in H2. congruence.
  - intros H. inversion H; subst. rewrite Ascii.eqb_refl. simpl. now apply IH.
Qed.

Lemma starts_with_prefix s : forall prefix,
  starts_with s prefix = true <-> exists rest, s = prefix ++ rest.
Proof.
  induction s as [|b s IH]; intros [|a prefix]; simpl.
  - split; [exists []; reflexivity|reflexivity].
  - split; [discriminate|intros [rest H]; discriminate].
  - split; [exists (b :: s); reflexivity|reflexivity].
  - rewrite andb_true_iff, Ascii.eqb_eq, IH. split.
    + intros [-> [rest ->]]. now exists rest.
    + intros [rest H]. inversion H; subst. split; [reflexivity|now exists rest].
Qed.

(** [strstr] finds the needle exactly when it occurs as a run of consecutive
    bytes of the haystack. *)
Lemma contains_substr_spec s needle :
  contains_substr s needle = true <-> is_substring needle s.
Proof.
  unfold contains_substr, is_substring. induction s as [|c s IH]; cbn [strstr].
  - destruct (starts_with [] needle) eqn:E.
    + apply starts_with_prefix in E as [rest E]. split; [|reflexivity].
      intros _. exists [], rest. exact E.
    + split; [discriminate|]. intros (pre & post & H).
      destruct pre; [|discriminate]. simpl in H.
      assert (E' : starts_with [] needle = true)
        by (apply starts_with_prefix; eauto).
      congruence.
  - destruct (starts_with (c :: s) needle) eqn:E.
    + apply starts_with_prefix in E as [rest E]. split; [|reflexivity].
      intros _. exists [], rest. exact E.
    + rewrite IH. split.
      * intros (pre & post & ->). now exists (c :: pre), post.
      * intros (pre & post & H). destruct pre as [|x pre].
        -- simpl in H.
           assert (E' : starts_with (c :: s) needle = true)
             by (apply starts_with_prefix; eauto).
           congruence.
        -- inversion H; subst. now exists pre, post.
Qed.

(** [strrchr] answers the null pointer exactly when the byte does not occur,
    and otherwise the suffix that starts at its last occurrence. *)
Lemma strrchr_none s c : strrchr s c = None <-> ~ In c s.
Proof.
  induction s as [|a s IH]; simpl; [tauto|].
  destruct (strrchr s c) eqn:E.
  - split; [discriminate|]. intros H. exfalso.
    assert (Hs : ~ In c s) by tauto. apply IH in Hs. discriminate.
  - destruct (Ascii.eqb a c) eqn:Ea.
    + apply Ascii.eqb_eq in Ea. split; [discriminate|]. intros H. tauto.
    + apply Ascii.eqb_neq in Ea. split; [|reflexivity].
      intros _ [H|H]; [congruence|]. now apply (proj1 IH).
Qed.

Lemma strrchr_last pre c rest :
  ~ In c rest -> strrchr (pre ++ c :: rest) c = Some (c :: rest).
Proof.
  intros Hrest. induction pre as [|a pre IH]; simpl.
  - apply strrchr_none in Hrest. rewrite Hrest. now rewrite Ascii.eqb_refl.
  - now rewrite IH.
Qed.

(** ** Language detection *)

Ltac walk_table ext :=
  repeat match goal with
         | |- context [streq ext ?k] => destruct (streq ext k); cbn [orb]; try reflexivity
         end.

Lemma detect_language_by_table filepath ext :
  strrchr filepath "." = Some ext ->
  detect_language filepath
  = match table_lookup extension_table ext with
    | Some l => l
    | None => if man_marker filepath then LANG_MAN else LANG_NONE
    end.
Proof.
  intros H. unfold detect_language. rewrite H.
  unfold extension_table. cbn [table_lookup]. walk_table ext.
Qed.

Lemma later_detect_language_by_table filepath ext :
  strrchr filepath "." = Some ext ->
  Later.detect_language filepath
  = match table_lookup Later.extension_table ext with
    | Some l => l
    | None => if man_marker filepath then LANG_MAN else LANG_NONE
    end.
Proof.
  intros H. unfold Later.detect_language. rewrite H.
  unfold Later.extension_table. cbn [table_lookup]. walk_table ext.
Qed.

Lemma man_marker_spec filepath :
  man_marker filepath = true
  <-> is_substring (cs "/man/") filepath \/ is_substring (cs ".man") filepath.
Proof.
  unfold man_marker. rewrite orb_true_iff, !contains_substr_spec. tauto.
Qed.

Lemma table_lookup_exact table ext l :
  table_lookup table ext = Some l -> exists e, In (e, l) table /\ ext = cs e.
Proof.
  induction table as [|[e l'] table IH]; simpl; [discriminate|].
  destruct (streq ext (cs e)) eqn:E.
  - intros [= ->]. apply streq_eq in E. exists e. auto.
  - intros H. destruct (IH H) as (e' & Hin & He). exists e'. auto.
Qed.

(** C6, as the code has it.  Both revisions of [detect_language] look only
    at the suffix that starts at the last dot of the path.  A path with no
    dot is tagged [LANG_NONE], whatever else it contains.  Otherwise the
    suffix is compared, byte for byte, with the entries of the extension
    table ([table_lookup] answers only for a suffix equal to an entry); the
    first equal entry gives the tag, and when none is equal the tag is
    [LANG_MAN] if the path contains "/man/" or ".man" and [LANG_NONE] if
    not. *)
Theorem detect_language_spec (filepath : cstr) :
  (~ In "."%char filepath ->
     detect_language filepath = LANG_NONE
     /\ Later.detect_language filepath = LANG_NONE)
  /\ (forall pre rest,
        filepath = pre ++ "."%char :: rest -> ~ In "."%char rest ->
        detect_language filepath
        = match table_lookup extension_table ("."%char :: rest) with
          | Some l => l
          | None => if man_marker filepath then LANG_MAN else LANG_NONE
          end
        /\ Later.detect_language filepath
           = match table_lookup Later.extension_table ("."%char :: rest) with
             | Some l => l
             | None => if man_marker filepath then LANG_MAN else LANG_NONE
             end)
  /\ (forall table ext l,
        table_lookup table ext = Some l ->
        exists e, In (e, l) table /\ ext = cs e)
  /\ (man_marker filepath = true
      <-> is_substring (cs "/man/") filepath
          \/ is_substring (cs ".man") filepath)
  /\ detect_language (cs "main.c") = LANG_C
  /\ detect_language (cs "main.C") = LANG_NONE
  /\ detect_language (cs "/usr/share/man/man1/ls.1") = LANG_MAN
  /\ Later.detect_language (cs "lib.rs") = LANG_RUST.
Proof.
  split; [|split; [|split; [|split; [|repeat split]]]].
  - intros Hdot. apply strrchr_none in Hdot.
    unfold detect_language, Later.detect_language. now rewrite Hdot.
  - intros pre rest -> Hrest.
    pose proof (strrchr_last pre "."%char rest Hrest) as H.
    split.
    + now apply detect_language_by_table.
    + now apply later_detect_language_by_table.
  - exact table_lookup_exact.
  - apply man_marker_spec.
Qed.

Lemma detect_language_spec_witness :
  detect_language (cs "notes.txt") = LANG_NONE
  /\ Later.detect_language (cs "notes.txt") = LANG_NONE.
Proof.
  pose proof (proj1 (proj2 (detect_language_spec (cs "notes.txt")))
                (cs "notes") (cs "txt") eq_refl) as H.
  apply H. simpl. intros [H1|[H1|[H1|[]]]]; discriminate.
Defined.

(** C6, as the specification words it, fails: a path with no extension at
    all matches no table entry and may contain "/man/", and it is tagged
    [LANG_NONE], not [LANG_MAN]. *)
Lemma detect_language_no_extension_counterexample :
  ~ (forall filepath,
       no_extension_matches extension_table filepath ->
       detect_language filepath
       = if man_marker filepath then LANG_MAN else LANG_NONE)
  /\ ~ (forall filepath,
          no_extension_matches Later.extension_table filepath ->
          Later.detect_language filepath
          = if man_marker filepath then LANG_MAN else LANG_NONE).
Proof.
  split; intros H; specialize (H (cs "/usr/share/man/cat1/ls"));
    (assert (Hn : forall t, no_extension_matches t (cs "/usr/share/man/cat1/ls"))
      by (intros t ext Hext; vm_compute in Hext; discriminate));
    specialize (H (Hn _)); vm_compute in H; discriminate.
Qed.

(** ** Man-page section headers *)

Lemma space_not_alpha : isalpha SPACE = false.
Proof. reflexivity. Qed.

Lemma is_man_section_header_loop_spec s : forall letters,
  is_man_section_header_loop s letters = true
  <-> Forall (fun c => c = SPACE \/ isalpha c = true) s
      /\ Forall (fun c => isalpha c = true -> isupper c = true) s
      /\ 3 <= letters + Z.of_nat (length (letters_of s)).
Proof.
  induction s as [|c s IH]; intros letters; cbn [is_man_section_header_loop].
  - simpl. rewrite Z.leb_le. split.
    + intros H. repeat split; [constructor|constructor|lia].
    + intros (_ & _ & H). lia.
  - unfold letters_of in *. cbn [List.filter].
    destruct (Ascii.eqb c SPACE) eqn:Hsp.
    + apply Ascii.eqb_eq in Hsp. subst c. rewrite space_not_alpha.
      rewrite IH. split.
      * intros (H1 & H2 & H3). repeat split; trivial.
        -- constructor; [now left|exact H1].
        -- constructor; [|exact H2]. rewrite space_not_alpha. discriminate.
      * intros (H1 & H2 & H3). inversion H1; inversion H2; subst. auto.
    + apply Ascii.eqb_neq in Hsp. destruct (isalpha c) eqn:Ha; cbn [negb].
      * destruct (isupper c) eqn:Hu; cbn [negb].
        -- rewrite IH. cbn [length]. rewrite Nat2Z.inj_succ. split.
           ++ intros (H1 & H2 & H3). repeat split; [| |lia].
              ** constructor; [now right|exact H1].
              ** constructor; [auto|exact H2].
           ++ intros (H1 & H2 & H3). inversion H1; inversion H2; subst.
              repeat split; trivial. lia.
        -- split; [discriminate|]. intros (_ & H2 & _).
           inversion H2; subst. intuition congruence.
      * split; [discriminate|]. intros (H1 & _ & _).
        inversion H1; subst. intuition congruence.
Qed.

(** X2.  The header test does not depend on leading spaces, so skipping
    them first, as [highlight_line] does, changes nothing. *)
Lemma skip_spaces_header line :
  is_man_section_header (skip_spaces line) = is_man_section_header line.
Proof.
  unfold is_man_section_header. induction line as [|c line IH]; simpl; trivial.
  destruct (Ascii.eqb c SPACE) eqn:E; [exact IH|].
  simpl. now rewrite E.
Qed.

(** C9.  [is_man_section_header] answers true exactly for the strings made
    of letters and spaces only, with at least three letters, all of them
    upper case.  In man mode [highlight_line] tests the line with its
    leading spaces skipped, and for such a line draws the whole line in one
    call between one [attron] and one [attroff] of the bold keyword colour,
    with nothing else.  The four sample calls of the specification are
    included. *)
Theorem is_man_section_header_spec :
  (forall s,
     is_man_section_header s = true
     <-> Forall (fun c => c = SPACE \/ isalpha c = true) s
         /\ 3 <= Z.of_nat (length (letters_of s))
         /\ Forall (fun c => isalpha c = true -> isupper c = true) s)
  /\ (forall line y start_x line_width,
        is_man_section_header (skip_spaces line) = true ->
        highlight_line (Some line) LANG_MAN y start_x line_width
        = Some [ Attron COLOR_KEYWORD true;
                 Mvaddnstr y start_x line (line_width - start_x);
                 Attroff COLOR_KEYWORD true ])
  /\ is_man_section_header (cs "NAME") = true
  /\ is_man_section_header (cs "SEE ALSO") = true
  /\ is_man_section_header (cs "Name") = false
  /\ is_man_section_header (cs "AB") = false.
Proof.
  split; [|split; [|repeat split]].
  - intros s. unfold is_man_section_header.
    rewrite is_man_section_header_loop_spec. rewrite Z.add_0_l. tauto.
  - intros line y start_x line_width H.
    unfold highlight_line. now rewrite H.
Qed.

Lemma is_man_section_header_spec_witness :
  highlight_line (Some (cs "   SEE ALSO")) LANG_MAN 4 7 80
  = Some [ Attron COLOR_KEYWORD true;
           Mvaddnstr 4 7 (cs "   SEE ALSO") (80 - 7);
           Attroff COLOR_KEYWORD true ].
Proof.
  apply (proj1 (proj2 is_man_section_header_spec)). reflexivity.
Defined.

(** ** Counted loops *)

Lemma for_loop_none {S : Type} a b (body : Z -> S -> S) s :
  b <= a -> for_loop a b body s = s.
Proof.
  intros H. unfold for_loop.
  replace (Z.to_nat (b - a)) with 0%nat by lia. reflexivity.
Qed.

Lemma for_loop_last {S : Type} a b (body : Z -> S -> S) s :
  a <= b -> for_loop a (b + 1) body s = body b (for_loop a b body s).
Proof.
  intros H. unfold for_loop.
  replace (Z.to_nat (b + 1 - a)) with (Z.to_nat (b - a) + 1)%nat by lia.
  rewrite seq_app, fold_left_app. simpl.
  f_equal. lia.
Qed.

(** Induction over the rounds of a counted loop. *)
Lemma for_loop_ind {S : Type} (P : Z -> S -> Prop) a b (body : Z -> S -> S) s :
  a <= b ->
  P a s ->
  (forall i s', a <= i < b -> P i s' -> P (i + 1) (body i s')) ->
  P b (for_loop a b body s).
Proof.
  intros Hb H0 Hstep.
  assert (H : forall k : nat, (k <= Z.to_nat (b - a))%nat ->
                P (a + Z.of_nat k) (for_loop a (a + Z.of_nat k) body s)).
  { induction k as [|k IH]; intros Hk.
    - rewrite Z.add_0_r, for_loop_none by lia. exact H0.
    - rewrite Nat2Z.inj_succ.
      replace (a + Z.succ (Z.of_nat k)) with (a + Z.of_nat k + 1) by lia.
      rewrite for_loop_last by lia. apply Hstep; [lia|apply IH; lia]. }
  specialize (H (Z.to_nat (b - a)) (Nat.le_refl _)).
  now replace (a + Z.of_nat (Z.to_nat (b - a))) with b in H by lia.
Qed.

(** ** Search *)

Lemma count_matching_lines_zero buf term bound :
  bound <= 0 -> count_matching_lines buf term bound = 0.
Proof. intros H. unfold count_matching_lines. apply for_loop_none. lia. Qed.

Lemma count_matching_lines_next buf term bound :
  0 <= bound ->
  count_matching_lines buf term (bound + 1)
  = count_matching_lines buf term bound
    + (if contains_substr (line_text buf bound) term then 1 else 0).
Proof.
  intros H. unfold count_matching_lines. rewrite for_loop_last by lia.
  destruct (contains_substr (line_text buf bound) term); lia.
Qed.

Lemma count_matching_lines_mono buf term a : forall b,
  a <= b -> 0 <= a ->
  count_matching_lines buf term a <= count_matching_lines buf term b.
Proof.
  intros b Hab Ha.
  replace b with (a + Z.of_nat (Z.to_nat (b - a))) by lia.
  induction (Z.to_nat (b - a)) as [|n IH].
  - rewrite Z.add_0_r. lia.
  - rewrite Nat2Z.inj_succ.
    replace (a + Z.succ (Z.of_nat n)) with (a + Z.of_nat n + 1) by lia.
    rewrite count_matching_lines_next by lia.
    destruct (contains_substr _ _); lia.
Qed.

Lemma count_matching_lines_nonneg buf term bound :
  0 <= count_matching_lines buf term bound.
Proof.
  destruct (Z.le_gt_cases bound 0) as [H|H].
  - rewrite count_matching_lines_zero by exact H. lia.
  - rewrite <- (count_matching_lines_zero buf term 0) at 1 by lia.
    apply count_matching_lines_mono; lia.
Qed.

(** The rank of a matching line is below the number of matching lines. *)
Lemma count_matching_lines_before buf term found n :
  0 <= found < n ->
  contains_substr (line_text buf found) term = true ->
  0 <= count_matching_lines buf term found < count_matching_lines buf term n.
Proof.
  intros Hf Hm. split; [apply count_matching_lines_nonneg|].
  pose proof (count_matching_lines_next buf term found (proj1 Hf)) as H.
  rewrite Hm in H.
  pose proof (count_matching_lines_mono buf term (found + 1) n). lia.
Qed.

(** The two wrap tests at the head of the loop body. *)
Lemma wrap_tests n line :
  0 < n ->
  (let l := if line <? 0 then n - 1 else line in if l >=? n then 0 else l)
  = first_probe n line.
Proof.
  intros Hn. unfold first_probe. cbv zeta.
  destruct (line <? 0) eqn:E1.
  - destruct (n - 1 >=? n) eqn:E2; [|reflexivity].
    rewrite Z.geb_leb in E2. apply Z.leb_le in E2. lia.
  - reflexivity.
Qed.

Lemma first_probe_range n line : 0 < n -> 0 <= first_probe n line < n.
Proof.
  intros Hn. unfold first_probe.
  destruct (line <? 0) eqn:E1; [lia|].
  apply Z.ltb_ge in E1.
  destruct (line >=? n) eqn:E2; [lia|].
  rewrite Z.geb_leb in E2. apply Z.leb_gt in E2. lia.
Qed.

Lemma first_probe_step n x dir :
  0 < n -> 0 <= x < n -> dir = 1 \/ dir = -1 ->
  first_probe n (x + dir) = (x + dir) mod n.
Proof.
  intros Hn Hx Hdir. unfold first_probe.
  destruct (x + dir <? 0) eqn:E1.
  - apply Z.ltb_lt in E1. assert (x = 0 /\ dir = -1) as [-> ->] by lia.
    apply (Z.mod_unique_pos _ _ (-1)); lia.
  - apply Z.ltb_ge in E1. destruct (x + dir >=? n) eqn:E2.
    + rewrite Z.geb_leb in E2. apply Z.leb_le in E2.
      assert (x + dir = n) as -> by lia. now rewrite Z.mod_same by lia.
    + rewrite Z.geb_leb in E2. apply Z.leb_gt in E2.
      symmetry. apply Z.mod_small. lia.
Qed.

Lemma search_buffer_loop_spec buf term dir :
  0 < line_count buf -> dir = 1 \/ dir = -1 ->
  forall m line,
    let n := line_count buf in
    let s0 := first_probe n line in
    let r := search_buffer_loop m buf term line dir in
    (r = -1
     /\ forall j, 0 <= j < Z.of_nat m ->
          contains_substr (line_text buf ((s0 + dir * j) mod n)) term = false)
    \/ (exists k, 0 <= k < Z.of_nat m
          /\ r = (s0 + dir * k) mod n
          /\ contains_substr (line_text buf r) term = true
          /\ forall j, 0 <= j < k ->
               contains_substr (line_text buf ((s0 + dir * j) mod n)) term = false).
Proof.
  intros Hn Hdir m. induction m as [|m IH]; intros line n s0; cbv zeta.
  - left. simpl. split; [reflexivity|]. intros j Hj. lia.
  - cbn [search_buffer_loop].
    pose proof (wrap_tests (line_count buf) line Hn) as Hw. cbv zeta in Hw.
    rewrite Hw. fold n. fold s0.
    pose proof (first_probe_range n line Hn) as Hs0. fold s0 in Hs0.
    destruct (contains_substr (line_text buf s0) term) eqn:Hm.
    + right. exists 0. rewrite Z.mul_0_r, Z.add_0_r, Z.mod_small by lia.
      split; [lia|]. split; [reflexivity|]. split; [exact Hm|].
      intros j Hj. lia.
    + specialize (IH (s0 + dir)). cbv zeta in IH. fold n in IH.
      rewrite (first_probe_step n s0 dir Hn Hs0 Hdir) in IH.
      assert (Hshift : forall j,
                 ((s0 + dir) mod n + dir * j) mod n = (s0 + dir * (j + 1)) mod n).
      { intros j. rewrite Zplus_mod_idemp_l. f_equal. lia. }
      destruct IH as [[Hr Hnone]|(k & Hk & Hr & Hmk & Hbefore)].
      * left. split; [exact Hr|]. intros j Hj.
        destruct (Z.eq_dec j 0) as [->|Hj0].
        -- rewrite Z.mul_0_r, Z.add_0_r, Z.mod_small by lia. exact Hm.
        -- replace j with (j - 1 + 1) by lia. rewrite <- Hshift.
           apply Hnone. lia.
      * right. exists (k + 1). rewrite <- Hshift.
        split; [lia|]. split; [exact Hr|]. split; [exact Hmk|].
        intros j Hj. destruct (Z.eq_dec j 0) as [->|Hj0].
        -- rewrite Z.mul_0_r, Z.add_0_r, Z.mod_small by lia. exact Hm.
        -- replace j with (j - 1 + 1) by lia. rewrite <- Hshift.
           apply Hbefore. lia.
Qed.

(** With [n] probes in one direction every line is probed. *)
Lemma probes_cover n s0 dir i :
  0 < n -> dir = 1 \/ dir = -1 -> 0 <= i < n ->
  exists j, 0 <= j < n /\ (s0 + dir * j) mod n = i.
Proof.
  intros Hn [->| ->] Hi.
  - exists ((i - s0) mod n). split; [apply Z.mod_pos_bound; lia|].
    rewrite Z.mul_1_l, Zplus_mod_idemp_r.
    replace (s0 + (i - s0)) with i by lia. apply Z.mod_small. lia.
  - exists ((s0 - i) mod n). split; [apply Z.mod_pos_bound; lia|].
    replace (s0 + -1 * ((s0 - i) mod n)) with (s0 - (s0 - i) mod n) by lia.
    rewrite Zminus_mod_idemp_r.
    replace (s0 - (s0 - i)) with i by lia. apply Z.mod_small. lia.
Qed.

Lemma search_buffer_found_or_not (st : ViewerState) (term : cstr)
    (start_line dir : Z) :
  let buf := buffer_at st (current_buffer st) in
  let n := line_count buf in
  let s0 := first_probe n start_line in
  let r := search_buffer st term start_line dir in
  term <> [] -> dir = 1 \/ dir = -1 ->
  (r = -1 /\ forall i, 0 <= i < n -> ~ is_substring term (line_text buf i))
  \/ (exists k, 0 <= k < n
        /\ r = (s0 + dir * k) mod n
        /\ 0 <= r < n
        /\ is_substring term (line_text buf r)
        /\ forall j, 0 <= j < k ->
             ~ is_substring term (line_text buf ((s0 + dir * j) mod n))).
Proof.
  intros buf n s0 r Hterm Hdir. subst r s0 n. unfold search_buffer. fold buf.
  destruct term as [|c term']; [congruence|]. set (term := c :: term') in *.
  destruct (Z.le_gt_cases (line_count buf) 0) as [Hn|Hn].
  - left. replace (Z.to_nat (line_count buf)) with 0%nat by lia.
    split; [reflexivity|]. intros i Hi. lia.
  - pose proof (search_buffer_loop_spec buf term dir Hn Hdir
                  (Z.to_nat (line_count buf)) start_line) as H.
    cbv zeta in H. rewrite Z2Nat.id in H by lia.
    destruct H as [[Hr Hnone]|(k & Hk & Hr & Hm & Hbefore)].
    + left. split; [exact Hr|]. intros i Hi Hsub.
      destruct (probes_cover (line_count buf)
                  (first_probe (line_count buf) start_line) dir i Hn Hdir Hi)
        as (j & Hj & <-).
      apply contains_substr_spec in Hsub. rewrite (Hnone j Hj) in Hsub.
      discriminate.
    + right. exists k. split; [exact Hk|]. split; [exact Hr|].
      split; [rewrite Hr; apply Z.mod_pos_bound; lia|].
      split; [now apply contains_substr_spec|].
      intros j Hj Hsub. apply contains_substr_spec in Hsub.
      rewrite (Hbefore j Hj) in Hsub. discriminate.
Qed.

Lemma foo_bar_baz_loaded :
  main_load_file (cs "sample.txt")
    (Some [cs "foo" ++ [NEWLINE]; cs "bar" ++ [NEWLINE]; cs "baz" ++ [NEWLINE]])
    initial_state
  = Some foo_bar_baz.
Proof.
  unfold foo_bar_baz.
  destruct (main_load_file _ _ _) eqn:E; [reflexivity|]. exfalso.
  assert (Hs : match
                 main_load_file (cs "sample.txt")
                   (Some [cs "foo" ++ [NEWLINE]; cs "bar" ++ [NEWLINE];
                          cs "baz" ++ [NEWLINE]]) initial_state
               with
               | Some _ => true
               | None => false
               end = true) by (vm_compute; reflexivity).
  rewrite E in Hs. discriminate.
Qed.

(** C3, as the code has it.  For a term that is not empty and a direction
    of +1 or -1, [search_buffer] probes at most [line_count] lines of the
    current buffer: first [start_line] (the last line if it is negative, the
    first if it is [line_count] or more), then one line further in the
    direction each time, going round at both ends.  It returns the first
    probed line in which the term occurs as a run of equal bytes, and -1
    when the term occurs in no line.  For the empty term it returns -1
    without looking.  For the lines "foo", "bar", "baz" and the term "ba":
    the search from line 0 forward gives 1, [find_all_matches] counts 2, and
    the rank computed for the match at line 2 is 1. *)
Theorem search_buffer_spec :
  (forall (st : ViewerState) (term : cstr) (start_line dir : Z),
     let buf := buffer_at st (current_buffer st) in
     let n := line_count buf in
     let s0 := first_probe n start_line in
     let r := search_buffer st term start_line dir in
     term <> [] -> dir = 1 \/ dir = -1 ->
     (r = -1 /\ forall i, 0 <= i < n -> ~ is_substring term (line_text buf i))
     \/ (exists k, 0 <= k < n
           /\ r = (s0 + dir * k) mod n
           /\ 0 <= r < n
           /\ is_substring term (line_text buf r)
           /\ forall j, 0 <= j < k ->
                ~ is_substring term (line_text buf ((s0 + dir * j) mod n))))
  /\ (forall st start_line dir, search_buffer st [] start_line dir = -1)
  /\ search_buffer foo_bar_baz (cs "ba") 0 1 = 1
  /\ search_match_count (find_all_matches (set_search_term (cs "ba") foo_bar_baz)) = 2
  /\ count_matching_lines (buffer_at foo_bar_baz 0) (cs "ba") 2 = 1
  /\ (let st := next_match (prompt_search 24 80 (cs "ba") foo_bar_baz).2 in
      scroll_offset (buffer_at st 0) = 2 /\ current_match st = 1
      /\ search_match_count st = 2).
Proof.
  split; [exact search_buffer_found_or_not|].
  split; [reflexivity|].
  repeat split; vm_compute; reflexivity.
Qed.

Lemma search_buffer_spec_witness :
  exists k, 0 <= k < 3
    /\ search_buffer foo_bar_baz (cs "ba") (-1) (-1) = (2 + -1 * k) mod 3.
Proof.
  destruct (proj1 search_buffer_spec foo_bar_baz (cs "ba") (-1) (-1))
    as [[Hr _]|(k & Hk & Hr & _)].
  - discriminate.
  - right. reflexivity.
  - vm_compute in Hr. discriminate.
  - exists k. split; [exact Hk|exact Hr].
Defined.

(** C3, as the specification words it, fails for the empty term: it occurs
    in every line, and the search still answers that there is no match. *)
Lemma search_buffer_empty_term_counterexample :
  ~ (forall (st : ViewerState) (term : cstr) (start_line : Z),
       search_buffer st term start_line 1 = -1 ->
       forall i, 0 <= i < line_count (buffer_at st (current_buffer st)) ->
         ~ is_substring term (line_text (buffer_at st (current_buffer st)) i)).
Proof.
  intros H.
  apply (H foo_bar_baz [] 0 eq_refl 0).
  - vm_compute. split; [discriminate|reflexivity].
  - exists [], (line_text (buffer_at foo_bar_baz (current_buffer foo_bar_baz)) 0).
    reflexivity.
Qed.

(** ** Reading and writing the buffer array *)


Lemma trim_trailing_space_length fuel : forall input,
  (length (trim_trailing_space fuel input) <= length input)%nat.
Proof.
  induction fuel as [|fuel IH]; intros input; simpl; [lia|].
  destruct ((0 <? Z.of_nat (length input)) && isspace (List.last input NUL));
    [|lia].
  etransitivity; [apply IH|].
  destruct input as [|c input] using rev_ind; [simpl; lia|].
  rewrite removelast_last, length_app. simpl. lia.
Qed.

Lemma search_input_fits typed : take 255 (search_input typed) = search_input typed.
Proof.
  apply take_ge. unfold search_input.
  etransitivity; [apply trim_trailing_space_length|].
  rewrite length_take. lia.
Qed.

(** ** The rank shown next to the match count *)

Lemma find_all_matches_count (st : ViewerState) :
  search_term st <> [] ->
  search_match_count (find_all_matches st)
  = count_matching_lines (buffer_at st (current_buffer st)) (search_term st)
      (line_count (buffer_at st (current_buffer st))).
Proof.
  intros H. unfold find_all_matches.
  cbn [search_term set_search_match_count].
  destruct (search_term st); [congruence|reflexivity].
Qed.


Lemma find_all_matches_keeps (st : ViewerState) :
  buffers (find_all_matches st) = buffers st
  /\ current_buffer (find_all_matches st) = current_buffer st
  /\ search_term (find_all_matches st) = search_term st.
Proof.
  unfold find_all_matches. cbn [search_term set_search_match_count].
  destruct (search_term st) eqn:E; cbn; rewrite ?E; auto.
Qed.

Lemma search_buffer_reads (st1 st2 : ViewerState) term start_line dir :
  buffers st1 = buffers st2 -> current_buffer st1 = current_buffer st2 ->
  search_buffer st1 term start_line dir = search_buffer st2 term start_line dir.
Proof.
  intros Hb Hc. unfold search_buffer, buffer_at. now rewrite Hb, Hc.
Qed.






Lemma next_match_found (st : ViewerState) :
  let cur := current_buffer st in
  let found := search_buffer st (search_term st)
                 (scroll_offset (buffer_at st cur) + 1) 1 in
  0 <= found ->
  next_match st
  = set_current_match
      (count_matching_lines
         (buffer_at (store_buffer cur (set_scroll_offset found (buffer_at st cur)) st) cur)
         (search_term st) found)
      (store_buffer cur (set_scroll_offset found (buffer_at st cur)) st).
Proof.
  intros cur found Hfound. unfold next_match. fold cur. fold found.
  destruct (search_term st) eqn:E.
  - subst found. simpl in Hfound. lia.
  - destruct (found >=? 0) eqn:Hf;
      [cbn [search_term store_buffer set_buffers]; now rewrite E|].
    rewrite Z.geb_leb in Hf. apply Z.leb_gt in Hf. lia.
Qed.

Lemma prev_match_found (st : ViewerState) :
  let cur := current_buffer st in
  let found := search_buffer st (search_term st)
                 (scroll_offset (buffer_at st cur) - 1) (-1) in
  0 <= found ->
  prev_match st
  = set_current_match
      (count_matching_lines
         (buffer_at (store_buffer cur (set_scroll_offset found (buffer_at st cur)) st) cur)
         (search_term st) found)
      (store_buffer cur (set_scroll_offset found (buffer_at st cur)) st).
Proof.
  intros cur found Hfound. unfold prev_match. fold cur. fold found.
  destruct (search_term st) eqn:E.
  - subst found. simpl in Hfound. lia.
  - destruct (found >=? 0) eqn:Hf;
      [cbn [search_term store_buffer set_buffers]; now rewrite E|].
    rewrite Z.geb_leb in Hf. apply Z.leb_gt in Hf. lia.
Qed.




(** ** Closing a buffer *)

Lemma buffer_at_store_other (st : ViewerState) (i j : Z) (b : Buffer) :
  Z.to_nat i <> Z.to_nat j ->
  buffer_at (store_buffer i b st) j = buffer_at st j.
Proof.
  intros H. unfold buffer_at, store_buffer. cbn [buffers set_buffers].
  now rewrite list_lookup_insert_ne.
Qed.

Lemma buffer_at_store_in (st : ViewerState) (i : Z) (b : Buffer) :
  (Z.to_nat i < length (buffers st))%nat ->
  buffer_at (store_buffer i b st) i = b.
Proof.
  intros H. unfold buffer_at, store_buffer. cbn [buffers set_buffers].
  now rewrite list_lookup_insert_eq.
Qed.

Lemma store_buffer_length (st : ViewerState) (i : Z) (b : Buffer) :
  length (buffers (store_buffer i b st)) = length (buffers st).
Proof. unfold store_buffer. cbn [buffers set_buffers]. apply length_insert. Qed.

Lemma line_ptr_insert_other (ls : list (option cstr)) (i j : Z) v :
  0 <= i -> 0 <= j -> i <> j ->
  line_ptr (<[Z.to_nat i := v]> ls) j = line_ptr ls j.
Proof.
  intros Hi Hj Hne. unfold line_ptr.
  rewrite list_lookup_insert_ne by lia. reflexivity.
Qed.

Lemma line_ptr_insert_null (ls : list (option cstr)) (i : Z) :
  line_ptr (<[Z.to_nat i := None]> ls) i = None.
Proof.
  unfold line_ptr.
  destruct (Nat.lt_ge_cases (Z.to_nat i) (length ls)) as [H|H].
  - now rewrite list_lookup_insert_eq.
  - rewrite list_insert_ge by exact H. now rewrite lookup_ge_None_2.
Qed.

(** [free_buffer] hands every slot below [line_count] to [free], in order,
    and leaves those slots null. *)
Lemma free_buffer_spec (b : Buffer) :
  (free_buffer b).1
  = map (fun i : nat => Free (line_ptr (lines b) (Z.of_nat i)))
      (seq 0 (Z.to_nat (line_count b)))
  /\ line_count (free_buffer b).2 = 0
  /\ is_active (free_buffer b).2 = 0
  /\ forall i, 0 <= i < line_count b -> line_ptr (lines (free_buffer b).2) i = None.
Proof.
  unfold free_buffer.
  set (body := fun (i : Z) '(evs, ls) =>
                 (evs ++ [Free (line_ptr ls i)], <[Z.to_nat i := None]> ls)).
  set (n := Z.max 0 (line_count b)).
  assert (Hloop : for_loop 0 (line_count b) body ([], lines b)
                  = for_loop 0 n body ([], lines b)).
  { unfold for_loop. f_equal. f_equal. lia. }
  rewrite Hloop.
  assert (H : let r := for_loop 0 n body ([], lines b) in
              r.1 = map (fun i : nat => Free (line_ptr (lines b) (Z.of_nat i)))
                      (seq 0 (Z.to_nat n))
              /\ (forall j, n <= j -> line_ptr r.2 j = line_ptr (lines b) j)
              /\ (forall j, 0 <= j < n -> line_ptr r.2 j = None)).
  { apply (for_loop_ind
             (fun i r =>
                r.1 = map (fun k : nat => Free (line_ptr (lines b) (Z.of_nat k)))
                        (seq 0 (Z.to_nat i))
                /\ (forall j, i <= j -> line_ptr r.2 j = line_ptr (lines b) j)
                /\ (forall j, 0 <= j < i -> line_ptr r.2 j = None))).
    - lia.
    - simpl. repeat split; trivial. intros j Hj. lia.
    - intros i [evs ls] Hi (He & Hrest & Hnull). simpl in *.
      repeat split.
      + replace (Z.to_nat (i + 1)) with (Z.to_nat i + 1)%nat by lia.
        rewrite seq_app, map_app. simpl. rewrite He, Hrest by lia.
        now rewrite Z2Nat.id by lia.
      + intros j Hj. rewrite line_ptr_insert_other by lia. apply Hrest. lia.
      + intros j Hj. destruct (Z.eq_dec j i) as [->|Hne].
        * apply line_ptr_insert_null.
        * rewrite line_ptr_insert_other by lia. apply Hnull. lia. }
  cbv zeta in H. destruct (for_loop 0 n body ([], lines b)) as [evs ls].
  simpl in *. destruct H as (He & _ & Hnull).
  repeat split; trivial.
  - rewrite He. f_equal. f_equal. lia.
  - intros i Hi. apply Hnull. lia.
Qed.

(** The shifting loop: after the rounds for [cur .. b - 1], every slot in
    that range holds what the next slot held, and no other slot changed. *)
Lemma shift_down_spec (st : ViewerState) (cur b : Z) :
  0 <= cur <= b -> b < Z.of_nat (length (buffers st)) ->
  let st' := for_loop cur b
               (fun i s => store_buffer i (buffer_at s (i + 1)) s) st in
  length (buffers st') = length (buffers st)
  /\ buffer_count st' = buffer_count st
  /\ current_buffer st' = current_buffer st
  /\ (forall i, 0 <= i -> i < cur \/ b <= i -> buffer_at st' i = buffer_at st i)
  /\ (forall i, cur <= i < b -> buffer_at st' i = buffer_at st (i + 1)).
Proof.
  intros Hcur Hb.
  apply (for_loop_ind
           (fun k s =>
              length (buffers s) = length (buffers st)
              /\ buffer_count s = buffer_count st
              /\ current_buffer s = current_buffer st
              /\ (forall i, 0 <= i -> i < cur \/ k <= i ->
                    buffer_at s i = buffer_at st i)
              /\ (forall i, cur <= i < k -> buffer_at s i = buffer_at st (i + 1)))).
  - lia.
  - repeat split; trivial. intros i Hi. lia.
  - intros k s Hk (Hlen & Hcnt & Hc & Hsame & Hshift).
    split; [now rewrite store_buffer_length|].
    split; [exact Hcnt|]. split; [exact Hc|]. split.
    + intros i Hi Hr. rewrite buffer_at_store_other by lia. apply Hsame; lia.
    + intros i Hi. destruct (Z.eq_dec i k) as [->|Hne].
      * rewrite buffer_at_store_in by lia. apply Hsame; lia.
      * rewrite buffer_at_store_other by lia. apply Hshift. lia.
Qed.

Lemma close_current_buffer_unfold (max_y max_x : Z) (st : ViewerState) :
  1 < buffer_count st ->
  let cur := current_buffer st in
  let st1 := store_buffer cur (free_buffer (buffer_at st cur)).2 st in
  let st2 := for_loop cur (buffer_count st - 1)
               (fun i s => store_buffer i (buffer_at s (i + 1)) s) st1 in
  let st3 := set_buffer_count (buffer_count st2 - 1) st2 in
  close_current_buffer max_y max_x st
  = ((free_buffer (buffer_at st cur)).1,
     if current_buffer st3 >=? buffer_count st3
     then set_current_buffer (buffer_count st3 - 1) st3
     else st3).
Proof.
  intros Hn. cbv zeta. unfold close_current_buffer.
  destruct (buffer_count st <=? 1) eqn:E; [apply Z.leb_le in E; lia|].
  destruct (free_buffer (buffer_at st (current_buffer st))) as [evs freed].
  reflexivity.
Qed.

Lemma close_current_buffer_effect (max_y max_x : Z) (st : ViewerState) :
  let cur := current_buffer st in
  let n := buffer_count st in
  1 < n <= Z.of_nat (length (buffers st)) ->
  0 <= cur < n ->
  let evs := (close_current_buffer max_y max_x st).1 in
  let st' := (close_current_buffer max_y max_x st).2 in
  (evs = map (fun i : nat => Free (line_ptr (lines (buffer_at st cur)) (Z.of_nat i)))
           (seq 0 (Z.to_nat (line_count (buffer_at st cur))))
   /\ buffer_count st' = n - 1
   /\ (forall i, 0 <= i < cur -> buffer_at st' i = buffer_at st i)
   /\ (forall i, cur <= i < n - 1 -> buffer_at st' i = buffer_at st (i + 1))
   /\ current_buffer st' = (if cur =? n - 1 then n - 2 else cur)
   /\ 0 <= current_buffer st' < buffer_count st')
  /\ length (buffers st') = length (buffers st).
Proof.
  intros cur n Hn Hcur evs st'. subst evs st'.
  rewrite (close_current_buffer_unfold max_y max_x st) by (fold n; lia).
  cbv zeta. fold cur. fold n. cbn [fst snd].
  set (st1 := store_buffer cur (free_buffer (buffer_at st cur)).2 st).
  pose proof (shift_down_spec st1 cur (n - 1)) as H.
  cbv zeta in H.
  set (st2 := for_loop cur (n - 1)
                (fun i s => store_buffer i (buffer_at s (i + 1)) s) st1) in *.
  assert (Hlen1 : length (buffers st1) = length (buffers st))
    by apply store_buffer_length.
  destruct H as (Hlen & Hcnt & Hc & Hsame & Hshift); [lia|lia|].
  assert (Hcnt2 : buffer_count st2 = n) by (rewrite Hcnt; reflexivity).
  assert (Hc2 : current_buffer st2 = cur) by (rewrite Hc; reflexivity).
  set (st3 := set_buffer_count (buffer_count st2 - 1) st2).
  assert (Hb3 : forall i, buffer_at st3 i = buffer_at st2 i) by reflexivity.
  assert (Hcnt3 : buffer_count st3 = n - 1)
    by (unfold st3; cbn [buffer_count set_buffer_count]; lia).
  assert (Hc3 : current_buffer st3 = cur) by exact Hc2.
  assert (Hlen3 : length (buffers st3) = length (buffers st))
    by (unfold st3; cbn [buffers set_buffer_count]; congruence).
  split;
    [|destruct (current_buffer st3 >=? buffer_count st3); exact Hlen3].
  split; [apply free_buffer_spec|].
  rewrite Hc3, Hcnt3.
  assert (Hold : forall i, 0 <= i -> i <> cur -> buffer_at st1 i = buffer_at st i).
  { intros i Hi Hne. unfold st1. apply buffer_at_store_other. lia. }
  destruct (cur >=? n - 1) eqn:E.
  - rewrite Z.geb_leb in E. apply Z.leb_le in E.
    assert (cur = n - 1) as Hlast by lia.
    cbn [buffer_count current_buffer set_current_buffer].
    change (buffer_at (set_current_buffer (n - 1 - 1) st3))
      with (buffer_at st3).
    rewrite Hcnt3. replace (cur =? n - 1) with true by (symmetry; lia).
    split; [reflexivity|]. split.
    { intros i Hi. rewrite Hb3, Hsame by lia. apply Hold; lia. }
    split; [intros i Hi; lia|]. split; lia.
  - rewrite Z.geb_leb in E. apply Z.leb_gt in E.
    rewrite Hcnt3, Hc3. replace (cur =? n - 1) with false by (symmetry; lia).
    split; [reflexivity|]. split.
    { intros i Hi. rewrite Hb3, Hsame by lia. apply Hold; lia. }
    split.
    { intros i Hi. rewrite Hb3, Hshift by lia. apply Hold; lia. }
    split; [reflexivity|lia].
Qed.

(** C4.  With more than one buffer in the store, [close_current_buffer]
    hands every line of the current buffer to [free], moves every later
    buffer one slot down, takes one off [buffer_count], and leaves
    [current_buffer] at the index it had unless the closed buffer was the
    last one, in which case it becomes the new last index; either way it is
    a valid index of the smaller store. *)
Theorem close_current_buffer_compacts (max_y max_x : Z) (st : ViewerState) :
  let cur := current_buffer st in
  let n := buffer_count st in
  1 < n <= Z.of_nat (length (buffers st)) ->
  0 <= cur < n ->
  let evs := (close_current_buffer max_y max_x st).1 in
  let st' := (close_current_buffer max_y max_x st).2 in
  evs = map (fun i : nat => Free (line_ptr (lines (buffer_at st cur)) (Z.of_nat i)))
          (seq 0 (Z.to_nat (line_count (buffer_at st cur))))
  /\ buffer_count st' = n - 1
  /\ (forall i, 0 <= i < cur -> buffer_at st' i = buffer_at st i)
  /\ (forall i, cur <= i < n - 1 -> buffer_at st' i = buffer_at st (i + 1))
  /\ current_buffer st' = (if cur =? n - 1 then n - 2 else cur)
  /\ 0 <= current_buffer st' < buffer_count st'.
Proof.
  intros cur n Hn Hcur.
  exact (proj1 (close_current_buffer_effect max_y max_x st Hn Hcur)).
Qed.

Lemma close_current_buffer_compacts_witness :
  buffer_count (close_current_buffer 24 80 three_buffers).2 = 2
  /\ buffer_at (close_current_buffer 24 80 three_buffers).2 1
     = buffer_at three_buffers 2
  /\ current_buffer (close_current_buffer 24 80 three_buffers).2 = 1.
Proof.
  assert (H1 : 1 < buffer_count three_buffers
               <= Z.of_nat (length (buffers three_buffers)))
    by (vm_compute; split; [reflexivity|discriminate]).
  assert (H2 : 0 <= current_buffer three_buffers < buffer_count three_buffers)
    by (vm_compute; split; [discriminate|reflexivity]).
  destruct (close_current_buffer_compacts 24 80 three_buffers H1 H2)
    as (_ & Hn & _ & Hshift & Hc & _).
  split; [exact Hn|]. split; [|exact Hc].
  apply Hshift. vm_compute. split; [discriminate|reflexivity].
Defined.

(** C5.  With one buffer or none in the store, [close_current_buffer]
    changes nothing: the state it returns is the state it was given, it
    calls [free] on nothing, and all it does is show the message. *)
Theorem close_last_buffer_rejected (max_y max_x : Z) (st : ViewerState) :
  buffer_count st <= 1 ->
  (close_current_buffer max_y max_x st).2 = st
  /\ (forall p, ~ In (Free p) (close_current_buffer max_y max_x st).1)
  /\ (close_current_buffer max_y max_x st).1
     = status_message max_y max_x "Cannot close the last buffer".
Proof.
  intros H. unfold close_current_buffer.
  apply Z.leb_le in H. rewrite H. cbn [fst snd].
  split; [reflexivity|]. split; [|reflexivity].
  intros p Hin. unfold status_message in Hin. simpl in Hin.
  intuition discriminate.
Qed.

Lemma close_last_buffer_rejected_witness :
  (close_current_buffer 24 80 foo_bar_baz).2 = foo_bar_baz.
Proof.
  apply (close_last_buffer_rejected 24 80 foo_bar_baz).
  vm_compute. discriminate.
Defined.

(** ** The scroll invariant *)

(** C7 at a failing input.  On a screen of three rows ([visible_lines] is
    0) the key G sets the scroll offset of a three-line buffer to 3, its
    line count; on a screen of one row ([visible_lines] is -2) each key u
    adds 1 to the offset, so three of them lead from 0 to 3.  Before the
    keys the invariant holds, after them it does not. *)
Theorem scroll_offset_leaves_range_on_small_screen :
  scroll_in_range (buffer_at foo_bar_baz 0)
  /\ (let st' := after_key (key "G") 3 80 [] foo_bar_baz in
      line_count (buffer_at st' 0) = 3
      /\ scroll_offset (buffer_at st' 0) = 3
      /\ ~ scroll_in_range (buffer_at st' 0))
  /\ (let u st := after_key (key "u") 1 80 [] st in
      let st' := u (u (u foo_bar_baz)) in
      line_count (buffer_at st' 0) = 3
      /\ scroll_offset (buffer_at st' 0) = 3
      /\ ~ scroll_in_range (buffer_at st' 0)).
Proof.
  unfold scroll_in_range. cbv zeta.
  assert (H0 : scroll_offset (buffer_at foo_bar_baz 0) = 0
               /\ line_count (buffer_at foo_bar_baz 0) = 3)
    by (split; vm_compute; reflexivity).
  assert (H1 : line_count (buffer_at (after_key (key "G") 3 80 [] foo_bar_baz) 0) = 3
               /\ scroll_offset (buffer_at (after_key (key "G") 3 80 [] foo_bar_baz) 0) = 3)
    by (split; vm_compute; reflexivity).
  assert (H2 : line_count
                 (buffer_at
                    (after_key (key "u") 1 80 []
                       (after_key (key "u") 1 80 []
                          (after_key (key "u") 1 80 [] foo_bar_baz))) 0) = 3
               /\ scroll_offset
                    (buffer_at
                       (after_key (key "u") 1 80 []
                          (after_key (key "u") 1 80 []
                             (after_key (key "u") 1 80 [] foo_bar_baz))) 0) = 3)
    by (split; vm_compute; reflexivity).
  destruct H0 as [-> ->], H1 as [-> ->], H2 as [-> ->].
  repeat split; lia.
Qed.

(** ** The scroll invariant on a screen of four rows or more *)

Lemma store_ok_frame (st st2 : ViewerState) :
  buffers st2 = buffers st ->
  buffer_count st2 = buffer_count st ->
  current_buffer st2 = current_buffer st ->
  store_ok st -> store_ok st2.
Proof.
  intros Hb Hn Hc (H1 & H2 & H3). unfold store_ok, buffer_at in *.
  rewrite Hb, Hn, Hc. auto.
Qed.

Lemma store_ok_scroll_to (st : ViewerState) (v : Z) :
  store_ok st ->
  0 <= v < Z.max 1 (line_count (buffer_at st (current_buffer st))) ->
  store_ok (scroll_to v st).
Proof.
  intros (H1 & H2 & H3) Hv. unfold scroll_to.
  split; [exact H1|]. split.
  - rewrite store_buffer_length. exact H2.
  - intros i Hi.
    change (buffer_count (store_buffer _ _ st)) with (buffer_count st) in Hi.
    destruct (Z.eq_dec i (current_buffer st)) as [->|Hne].
    + rewrite buffer_at_store_in by lia. exact Hv.
    + rewrite buffer_at_store_other by lia. now apply H3.
Qed.

Lemma store_ok_track_selection (st : ViewerState) :
  store_ok st -> store_ok (track_selection st).
Proof.
  unfold track_selection. destruct (copy_mode st =? 0); [trivial|].
  now apply store_ok_frame.
Qed.

Lemma store_ok_jump (st : ViewerState) (term : cstr) (start_line dir : Z) :
  dir = 1 \/ dir = -1 ->
  store_ok st ->
  0 <= search_buffer st term start_line dir ->
  store_ok (scroll_to (search_buffer st term start_line dir) st).
Proof.
  intros Hdir Hok Hfound. apply store_ok_scroll_to; [exact Hok|].
  assert (Hterm : term <> []).
  { intros ->. simpl in Hfound. lia. }
  destruct (search_buffer_found_or_not st term start_line dir Hterm Hdir)
    as [[Hr _]|(k & _ & _ & Hrange & _)]; lia.
Qed.

Lemma store_ok_next_match (st : ViewerState) :
  store_ok st -> store_ok (next_match st).
Proof.
  intros Hok. unfold next_match.
  destruct (search_term st) eqn:E; [exact Hok|]. rewrite <- E.
  destruct (_ >=? 0) eqn:Hf; [|exact Hok].
  rewrite Z.geb_leb in Hf. apply Z.leb_le in Hf.
  eapply store_ok_frame;
    [| | |apply (store_ok_jump st (search_term st) _ 1 (or_introl eq_refl) Hok Hf)];
    reflexivity.
Qed.

Lemma store_ok_prev_match (st : ViewerState) :
  store_ok st -> store_ok (prev_match st).
Proof.
  intros Hok. unfold prev_match.
  destruct (search_term st) eqn:E; [exact Hok|]. rewrite <- E.
  destruct (_ >=? 0) eqn:Hf; [|exact Hok].
  rewrite Z.geb_leb in Hf. apply Z.leb_le in Hf.
  eapply store_ok_frame;
    [| | |apply (store_ok_jump st (search_term st) _ (-1) (or_intror eq_refl) Hok Hf)];
    reflexivity.
Qed.

Lemma store_ok_prompt_search (max_y max_x : Z) (typed : cstr) (st : ViewerState) :
  store_ok st -> store_ok (prompt_search max_y max_x typed st).2.
Proof.
  intros Hok. unfold prompt_search. cbv zeta.
  destruct (search_input typed) eqn:E; [exact Hok|]. rewrite <- E.
  set (st0 := find_all_matches (set_search_term (take 255 (search_input typed)) st)).
  destruct (find_all_matches_keeps
              (set_search_term (take 255 (search_input typed)) st))
    as (Hb & Hc & _).
  fold st0 in Hb, Hc.
  assert (Hok0 : store_ok st0).
  { apply (store_ok_frame st); trivial.
    unfold st0, find_all_matches.
    cbn [search_term set_search_term set_search_match_count].
    destruct (take 255 (search_input typed)); reflexivity. }
  destruct (_ >=? 0) eqn:Hf; [|exact Hok0].
  rewrite Z.geb_leb in Hf. apply Z.leb_le in Hf.
  cbn [snd].
  eapply store_ok_frame;
    [| | |apply (store_ok_jump st0 (search_term st0) 0 1 (or_introl eq_refl) Hok0 Hf)];
    reflexivity.
Qed.

Lemma store_ok_close (max_y max_x : Z) (st : ViewerState) :
  store_ok st -> store_ok (close_current_buffer max_y max_x st).2.
Proof.
  intros Hok. destruct (Z.le_gt_cases (buffer_count st) 1) as [Hn|Hn].
  - unfold close_current_buffer. apply Z.leb_le in Hn. now rewrite Hn.
  - destruct Hok as (H1 & H2 & H3).
    destruct (close_current_buffer_effect max_y max_x st) as [H Hlen];
      [lia|lia|].
    cbv zeta in H. destruct H as (_ & Hcnt & Hlow & Hhigh & _ & Hcur).
    split; [exact Hcur|]. split; [rewrite Hlen; lia|].
    intros i Hi. rewrite Hcnt in Hi.
    destruct (Z.lt_ge_cases i (current_buffer st)) as [Hlt|Hge].
    + rewrite Hlow by lia. apply H3. lia.
    + rewrite Hhigh by lia. apply H3. lia.
Qed.

Lemma load_file_lines_scroll chunks : forall buf b,
  load_file_lines chunks buf = Some b -> scroll_offset b = scroll_offset buf.
Proof.
  induction chunks as [|line chunks IH]; intros buf b; simpl.
  - now intros [= ->].
  - destruct (line_count buf <? MAX_LINES); [|now intros [= ->]].
    destruct (strip_ansi _); [|discriminate].
    intros H. now rewrite (IH _ _ H).
Qed.

Lemma jump_bottom_range (n visible_lines : Z) :
  1 <= visible_lines ->
  0 <= (if n - visible_lines <? 0 then 0 else n - visible_lines) < Z.max 1 n.
Proof.
  intros Hv. destruct (n - visible_lines <? 0) eqn:E;
    [apply Z.ltb_lt in E|apply Z.ltb_ge in E]; lia.
Qed.

Lemma half_page_down_range (n so visible_lines : Z) :
  1 <= visible_lines -> 0 <= so < Z.max 1 n ->
  let so1 := so + Z.quot visible_lines 2 in
  let so2 := if so1 >? n - visible_lines then n - visible_lines else so1 in
  0 <= (if so2 <? 0 then 0 else so2) < Z.max 1 n.
Proof.
  intros Hv Hso so1 so2. subst so2.
  destruct (so1 >? n - visible_lines) eqn:E1; rewrite Z.gtb_ltb in E1;
    [apply Z.ltb_lt in E1|apply Z.ltb_ge in E1].
  - destruct (n - visible_lines <? 0) eqn:E2;
      [apply Z.ltb_lt in E2|apply Z.ltb_ge in E2]; lia.
  - destruct (so1 <? 0) eqn:E2;
      [apply Z.ltb_lt in E2|apply Z.ltb_ge in E2]; lia.
Qed.

Lemma half_page_up_range (n so visible_lines : Z) :
  1 <= visible_lines -> 0 <= so < Z.max 1 n ->
  let so1 := so - Z.quot visible_lines 2 in
  0 <= (if so1 <? 0 then 0 else so1) < Z.max 1 n.
Proof.
  intros Hv Hso so1.
  pose proof (Z.quot_pos visible_lines 2 ltac:(lia) ltac:(lia)) as Hq.
  destruct (so1 <? 0) eqn:E; [apply Z.ltb_lt in E|apply Z.ltb_ge in E];
    subst so1; lia.
Qed.

Lemma store_ok_next_buffer (st : ViewerState) :
  store_ok st -> (buffer_count st >? 1) = true ->
  store_ok (set_current_buffer
              (Z.rem (current_buffer st + 1) (buffer_count st)) st).
Proof.
  intros (H1 & H2 & H3) Hn. rewrite Z.gtb_ltb in Hn. apply Z.ltb_lt in Hn.
  pose proof (Z.rem_bound_pos (current_buffer st + 1) (buffer_count st)
                ltac:(lia) ltac:(lia)) as Hr.
  split; [exact Hr|]. split; [exact H2|exact H3].
Qed.

Lemma store_ok_prev_buffer (st : ViewerState) :
  store_ok st ->
  store_ok (set_current_buffer
              (if current_buffer st - 1 <? 0 then buffer_count st - 1
               else current_buffer st - 1) st).
Proof.
  intros (H1 & H2 & H3).
  split; [|split; [exact H2|exact H3]].
  cbn [current_buffer buffer_count set_current_buffer].
  destruct (current_buffer st - 1 <? 0) eqn:E;
    [apply Z.ltb_lt in E|apply Z.ltb_ge in E]; lia.
Qed.

Lemma store_ok_escape (st : ViewerState) :
  store_ok st -> store_ok (if copy_mode st =? 0 then st else set_copy_mode 0 st).
Proof.
  intros H. destruct (copy_mode st =? 0); [exact H|].
  now apply (store_ok_frame st).
Qed.

(** X1.  The scroll invariant holds after [load_file], and every key of the model
    keeps it, for every buffer of the store, as long as the screen has four
    rows or more (so that [visible_lines] is at least 1). *)
Theorem scroll_invariant_on_usual_screens :
  (forall buf path chunks rc b,
     load_file buf path (Some chunks) = Some (rc, b) ->
     scroll_offset b = 0 /\ scroll_in_range b)
  /\ (forall ch max_y max_x typed st running evs st' running',
        4 <= max_y ->
        store_ok st ->
        handle_input ch max_y max_x typed st running = Some (evs, st', running') ->
        store_ok st').
Proof.
  split.
  - intros buf path chunks rc b. unfold load_file.
    destruct (load_file_lines _ _) as [b'|] eqn:E; [|discriminate].
    intros [= <- <-]. apply load_file_lines_scroll in E. simpl in E.
    unfold scroll_in_range. rewrite E. lia.
  - intros ch max_y max_x typed st running evs st' running' Hy Hok H.
    assert (Hv : 1 <= max_y - 3) by lia.
    assert (Hcur : 0 <= scroll_offset (buffer_at st (current_buffer st))
                   < Z.max 1 (line_count (buffer_at st (current_buffer st)))).
    { destruct Hok as (Hc & _ & Hall). apply (Hall _ Hc). }
    pose proof (store_ok_close max_y max_x st Hok) as Hclose.
    pose proof (store_ok_prompt_search max_y max_x typed st Hok) as Hprompt.
    unfold handle_input in H. cbv zeta in H.
    repeat match type of H with
           | (if ?c then _ else _) = _ => destruct c eqn:?
           | (let '(_, _) := ?p in _) = _ => destruct p eqn:?
           | None = Some _ => discriminate H
           end;
      injection H as <- <- <-;
      first
        [ exact Hok
        | exact Hclose
        | exact Hprompt
        | apply store_ok_escape; exact Hok
        | destruct (copy_mode st =? 0);
          [apply store_ok_next_match|]; exact Hok
        | destruct (copy_mode st =? 0);
          [apply store_ok_prev_match|]; exact Hok
        | apply store_ok_next_buffer;
          [exact Hok
          |match goal with
           | E : (_ && (buffer_count st >? 1)) = true |- _ =>
               apply andb_true_iff in E; exact (proj2 E)
           end]
        | apply store_ok_prev_buffer; exact Hok
        | eapply store_ok_frame; [| | |exact Hok]; reflexivity
        | apply store_ok_track_selection, store_ok_scroll_to; [exact Hok|];
          first
            [ apply jump_bottom_range; exact Hv
            | apply (half_page_down_range _ _ _ Hv Hcur)
            | apply (half_page_up_range _ _ _ Hv Hcur)
            | match goal with
              | E : (_ <? _) = true |- _ =>
                  apply Z.ltb_lt in E; clear - E Hcur; lia
              | E : (_ >? _) = true |- _ =>
                  rewrite Z.gtb_ltb in E; apply Z.ltb_lt in E;
                  clear - E Hcur; lia
              end
            | clear; lia ] ].
Qed.

Lemma scroll_invariant_on_usual_screens_witness :
  store_ok (after_key (key "G") 24 80 [] foo_bar_baz).
Proof.
  assert (Hok : store_ok foo_bar_baz).
  { split; [vm_compute; split; [discriminate|reflexivity]|].
    split; [vm_compute; discriminate|].
    intros i Hi.
    assert (Hn : buffer_count foo_bar_baz = 1) by (vm_compute; reflexivity).
    rewrite Hn in Hi. assert (i = 0) as -> by lia.
    unfold scroll_in_range.
    assert (Hs : scroll_offset (buffer_at foo_bar_baz 0) = 0)
      by (vm_compute; reflexivity).
    rewrite Hs. lia. }
  unfold after_key.
  destruct (handle_input (key "G") 24 80 [] foo_bar_baz 1)
    as [[[evs st'] running']|] eqn:E; [|exact Hok].
  apply (proj2 scroll_invariant_on_usual_screens
           (key "G") 24 80 [] foo_bar_baz 1 evs st' running');
    [lia|exact Hok|exact E].
Defined.

(** * Further properties *)

(** ** Text clean-up *)

Lemma strip_overstrikes_loop_backspaces k : forall dst,
  strip_overstrikes_loop (replicate k BS) dst = take (length dst - k) dst.
Proof.
  induction k as [|k IH]; intros dst; simpl.
  - rewrite Nat.sub_0_r. symmetry. apply take_ge. lia.
  - rewrite IH. destruct dst as [|c dst] using rev_ind; [now destruct k|].
    rewrite removelast_last.
    destruct (dst ++ [c]) eqn:E; [destruct dst; discriminate|]. rewrite <- E.
    rewrite length_app. simpl.
    replace (length dst + 1 - Datatypes.S k)%nat with (length dst - k)%nat by lia.
    rewrite take_app_le by lia. reflexivity.
Qed.

Lemma strip_overstrikes_loop_triple u x src dst :
  u <> BS -> x <> BS ->
  strip_overstrikes_loop (u :: BS :: x :: src) dst
  = strip_overstrikes_loop src (dst ++ [x]).
Proof.
  intros Hu Hx. apply Ascii.eqb_neq in Hu, Hx.
  cbn [strip_overstrikes_loop]. rewrite Hu, Hx, Ascii.eqb_refl.
  rewrite removelast_last.
  destruct (dst ++ [u]) eqn:E; [destruct dst; discriminate|].
  reflexivity.
Qed.

(** X3.  [strip_overstrikes] on overstrikes in general: a line made of
    triples [u BS x] (underlining is [_ BS x]) comes out as the [x]s, and a
    run of [k] backspaces at the end of a line takes the last [k] bytes off
    the output, or all of them when there are fewer. *)
Theorem strip_overstrikes_general :
  (forall pairs,
     Forall (fun p => p.1 <> BS /\ p.2 <> BS) pairs ->
     strip_overstrikes (overstruck_over pairs) = map snd pairs)
  /\ (forall s k,
        strip_overstrikes (s ++ replicate k BS)
        = take (length (strip_overstrikes s) - k) (strip_overstrikes s)).
Proof.
  split.
  - intros pairs H. unfold strip_overstrikes.
    enough (G : forall dst,
               strip_overstrikes_loop (overstruck_over pairs) dst
               = dst ++ map snd pairs) by apply (G []).
    induction H as [|[u x] pairs [Hu Hx] _ IH]; intros dst.
    + simpl. now rewrite app_nil_r.
    + change (overstruck_over ((u, x) :: pairs))
        with (u :: BS :: x :: overstruck_over pairs).
      rewrite strip_overstrikes_loop_triple by assumption.
      rewrite IH. simpl. now rewrite <- app_assoc.
  - intros s k. unfold strip_overstrikes.
    rewrite strip_overstrikes_loop_app. apply strip_overstrikes_loop_backspaces.
Qed.

Lemma strip_overstrikes_general_witness :
  strip_overstrikes (overstruck_over [("_", "l"); ("_", "s")]%char) = cs "ls".
Proof.
  apply (proj1 strip_overstrikes_general).
  repeat constructor; discriminate.
Defined.

Lemma rtrim_loop_spec fuel : forall s,
  (length s <= fuel)%nat ->
  exists tail,
    s = rtrim_loop fuel s ++ tail
    /\ Forall blank tail
    /\ forall c, last (rtrim_loop fuel s) = Some c -> ~ blank c.
Proof.
  induction fuel as [|fuel IH]; intros s Hlen.
  - destruct s; [|simpl in Hlen; lia]. exists []. simpl.
    repeat split; [constructor|discriminate].
  - cbn [rtrim_loop].
    destruct s as [|c s] using rev_ind.
    + exists []. simpl. repeat split; [constructor|discriminate].
    + clear IHs. rewrite List.last_last, removelast_last.
      rewrite length_app in *. simpl in *.
      replace (0 <? Z.of_nat (length s + 1)) with true
        by (symmetry; apply Z.ltb_lt; lia).
      cbn [andb].
      destruct (Ascii.eqb c SPACE || Ascii.eqb c TAB) eqn:E.
      * destruct (IH s) as (tail & Hs & Htail & Hlast); [lia|].
        exists (tail ++ [c]). split; [|split; [|exact Hlast]].
        -- rewrite app_assoc. now rewrite <- Hs.
        -- apply Forall_app. split; [exact Htail|].
           constructor; [|constructor]. unfold blank.
           apply orb_true_iff in E as [E|E]; apply Ascii.eqb_eq in E; auto.
      * exists []. rewrite app_nil_r. split; [reflexivity|].
        split; [constructor|].
        intros c' Hc'. rewrite last_snoc in Hc'. injection Hc' as <-.
        apply orb_false_iff in E as [E1 E2].
        apply Ascii.eqb_neq in E1, E2. unfold blank. tauto.
Qed.

(** X4.  [rtrim] cuts off the spaces and tabs at the end of the string and
    nothing else: what it removes is made of spaces and tabs, what it keeps
    does not end in one, and trimming again changes nothing. *)
Theorem rtrim_spec (s : cstr) :
  (exists tail, s = rtrim s ++ tail /\ Forall blank tail)
  /\ (forall c, last (rtrim s) = Some c -> ~ blank c)
  /\ rtrim (rtrim s) = rtrim s.
Proof.
  unfold rtrim.
  destruct (rtrim_loop_spec (length s) s (Nat.le_refl _)) as (tail & Hs & Ht & Hl).
  split; [exists tail; auto|]. split; [exact Hl|].
  set (t := rtrim_loop (length s) s) in *.
  destruct t as [|c t'] using rev_ind; [reflexivity|].
  clear IHt'. rewrite length_app. simpl.
  replace (length t' + 1)%nat with (Datatypes.S (length t')) by lia.
  cbn [rtrim_loop]. rewrite List.last_last.
  specialize (Hl c (last_snoc _ _)). unfold blank in Hl.
  destruct (Ascii.eqb c SPACE) eqn:E1; [apply Ascii.eqb_eq in E1; tauto|].
  destruct (Ascii.eqb c TAB) eqn:E2; [apply Ascii.eqb_eq in E2; tauto|].
  now rewrite andb_false_r.
Qed.

(** ** Escape sequences, one kind at a time *)

Lemma strip_ansi_loop_fuel fuel1 : forall p fuel2 d1 d2,
  (length p <= fuel1)%nat -> (length p <= fuel2)%nat ->
  exists r,
    strip_ansi_loop fuel1 p d1 = Some (d1 ++ r)
    /\ strip_ansi_loop fuel2 p d2 = Some (d2 ++ r).
Proof.
  induction fuel1 as [|fuel1 IH]; intros p fuel2 d1 d2 H1 H2.
  - destruct p; [|simpl in H1; lia]. exists [].
    rewrite !app_nil_r. destruct fuel2; auto.
  - destruct p as [|c p1]; [exists []; rewrite !app_nil_r; destruct fuel2; auto|].
    destruct fuel2 as [|fuel2]; [simpl in H2; lia|].
    simpl in H1, H2. cbn [strip_ansi_loop].
    pose proof (advance_length p1) as Ha.
    pose proof (skip_until_length is_csi_final (tl p1)) as Hs1.
    pose proof (skip_until_length is_bel (tl p1)) as Hs2.
    pose proof (advance_length (skip_until is_csi_final (tl p1))) as Hs3.
    pose proof (advance_length (skip_until is_bel (tl p1))) as Hs4.
    assert (length (tl p1) <= length p1)%nat by (destruct p1; simpl; lia).
    destruct (Ascii.eqb c ESC).
    + destruct (Ascii.eqb (peek p1) "["%char);
        [|destruct (Ascii.eqb (peek p1) "]"%char)]; apply IH; lia.
    + destruct (IH p1 fuel2 (d1 ++ [c]) (d2 ++ [c])) as (r & E1 & E2); [lia|lia|].
      exists (c :: r). rewrite E1, E2, <- !app_assoc. auto.
Qed.

Lemma strip_ansi_loop_enough fuel p d :
  (length p <= fuel)%nat ->
  strip_ansi_loop fuel p d = app d <$> strip_ansi p.
Proof.
  intros H. unfold strip_ansi.
  destruct (strip_ansi_loop_fuel fuel p (length p) d [] H (Nat.le_refl _))
    as (r & -> & ->).
  reflexivity.
Qed.

Lemma skip_until_found stop params f s :
  Forall (fun c => stop c = false) params -> stop f = true ->
  skip_until stop (params ++ f :: s) = f :: s.
Proof.
  intros Hp Hf. induction Hp as [|c params Hc _ IH]; simpl.
  - now rewrite Hf.
  - now rewrite Hc.
Qed.

Lemma skip_until_not_found stop params :
  Forall (fun c => stop c = false) params -> skip_until stop params = [].
Proof.
  intros Hp. induction Hp as [|c params Hc _ IH]; simpl; [reflexivity|].
  now rewrite Hc.
Qed.

Lemma skip_until_suffix stop p : suffix (skip_until stop p) p.
Proof.
  induction p as [|c p IH]; simpl; [reflexivity|].
  destruct (stop c); [reflexivity|]. now apply suffix_cons_r.
Qed.

Lemma advance_suffix p : suffix (advance p) p.
Proof. destruct p; simpl; [reflexivity|]. apply suffix_cons_r. reflexivity. Qed.

Lemma strip_ansi_loop_sublist fuel : forall p d out,
  strip_ansi_loop fuel p d = Some out ->
  exists r, out = d ++ r /\ sublist r p.
Proof.
  induction fuel as [|fuel IH]; intros p d out H.
  - destruct p; [|discriminate]. injection H as <-.
    exists []. now rewrite app_nil_r.
  - destruct p as [|c p1].
    + injection H as <-. exists []. now rewrite app_nil_r.
    + cbn [strip_ansi_loop] in H.
      assert (Htl : suffix (tl p1) p1)
        by (destruct p1; simpl; [reflexivity|apply suffix_cons_r; reflexivity]).
      assert (Hdrop : forall q, suffix q p1 ->
                 strip_ansi_loop fuel q d = Some out ->
                 exists r, out = d ++ r /\ sublist r (c :: p1)).
      { intros q Hq Hq'. destruct (IH _ _ _ Hq') as (r & -> & Hr).
        exists r. split; [reflexivity|].
        destruct Hq as [k ->]. now apply sublist_cons, sublist_inserts_l. }
      destruct (Ascii.eqb c ESC).
      * destruct (Ascii.eqb (peek p1) "["%char);
          [|destruct (Ascii.eqb (peek p1) "]"%char)];
          (apply Hdrop in H; [exact H|]);
          repeat first [ apply advance_suffix
                       | exact Htl
                       | etransitivity; [apply advance_suffix|]
                       | etransitivity; [apply skip_until_suffix|] ].
      * destruct (IH _ _ _ H) as (r & -> & Hr).
        exists (c :: r). rewrite <- app_assoc. split; [reflexivity|].
        now apply sublist_skip.
Qed.

Lemma strip_ansi_loop_csi fuel p d :
  strip_ansi_loop (Datatypes.S fuel) (ESC :: "["%char :: p) d
  = strip_ansi_loop fuel (advance (skip_until is_csi_final p)) d.
Proof. reflexivity. Qed.

Lemma strip_ansi_loop_osc fuel p d :
  strip_ansi_loop (Datatypes.S fuel) (ESC :: "]"%char :: p) d
  = strip_ansi_loop fuel (advance (skip_until is_bel p)) d.
Proof. reflexivity. Qed.

Lemma strip_ansi_loop_other fuel x p d :
  x <> "["%char -> x <> "]"%char ->
  strip_ansi_loop (Datatypes.S fuel) (ESC :: x :: p) d
  = strip_ansi_loop fuel p d.
Proof.
  intros H1 H2. apply Ascii.eqb_neq in H1, H2.
  cbn [strip_ansi_loop peek]. rewrite Ascii.eqb_refl, H1, H2. reflexivity.
Qed.

Lemma strip_ansi_loop_plain fuel c p d :
  c <> ESC ->
  strip_ansi_loop (Datatypes.S fuel) (c :: p) d
  = strip_ansi_loop fuel p (d ++ [c]).
Proof.
  intros H. apply Ascii.eqb_neq in H.
  cbn [strip_ansi_loop]. now rewrite H.
Qed.

Lemma strip_ansi_loop_done fuel d : strip_ansi_loop fuel [] d = Some d.
Proof. destruct fuel; reflexivity. Qed.

Lemma strip_ansi_returns (s : cstr) :
  exists t, strip_ansi s = Some t /\ ~ In ESC t /\ sublist t s.
Proof.
  unfold strip_ansi.
  destruct (strip_ansi_loop_returns (length s) s []) as (r & Hr & Hesc); [lia|].
  exists r. split; [exact Hr|]. split; [exact Hesc|].
  destruct (strip_ansi_loop_sublist _ _ _ _ Hr) as (r' & E & Hsub).
  simpl in E. now subst r'.
Qed.

(** X5.  What [strip_ansi] does with each kind of sequence.  A byte other
    than ESC is kept.  ESC [ with its parameter bytes up to and including
    the first byte in '@'..'~' is dropped; so is ESC ] with everything up to
    and including the first BEL, and ESC with the one byte after it in every
    other case.  A sequence cut short by the end of the line is dropped
    with the rest of the line.  The output is always a subsequence of the
    input: bytes are removed, never added, changed or reordered. *)
Theorem strip_ansi_sequences :
  (forall c s, c <> ESC -> strip_ansi (c :: s) = cons c <$> strip_ansi s)
  /\ (forall params f s,
        Forall (fun c => is_csi_final c = false) params ->
        is_csi_final f = true ->
        strip_ansi (ESC :: "["%char :: params ++ f :: s) = strip_ansi s)
  /\ (forall params,
        Forall (fun c => is_csi_final c = false) params ->
        strip_ansi (ESC :: "["%char :: params) = Some [])
  /\ (forall body s,
        Forall (fun c => c <> BEL) body ->
        strip_ansi (ESC :: "]"%char :: body ++ BEL :: s) = strip_ansi s)
  /\ (forall body,
        Forall (fun c => c <> BEL) body ->
        strip_ansi (ESC :: "]"%char :: body) = Some [])
  /\ (forall x s,
        x <> "["%char -> x <> "]"%char ->
        strip_ansi (ESC :: x :: s) = strip_ansi s)
  /\ strip_ansi [ESC] = Some []
  /\ (forall s out, strip_ansi s = Some out -> sublist out s).
Proof.
  assert (Hbel : forall body, Forall (fun c => c <> BEL) body ->
                   Forall (fun c => is_bel c = false) body).
  { intros body H. eapply Forall_impl; [exact H|].
    intros c Hc. now apply Ascii.eqb_neq. }
  assert (Hid : forall o : option cstr, app [] <$> o = o)
    by (intros [o|]; reflexivity).
  repeat split.
  - intros c s Hc. unfold strip_ansi at 1. cbn [length].
    rewrite strip_ansi_loop_plain by exact Hc.
    rewrite strip_ansi_loop_enough by lia.
    destruct (strip_ansi s); reflexivity.
  - intros params f s Hp Hf. unfold strip_ansi at 1. cbn [length].
    rewrite strip_ansi_loop_csi, skip_until_found by assumption.
    cbn [advance].
    rewrite strip_ansi_loop_enough by (rewrite length_app; simpl; lia).
    apply Hid.
  - intros params Hp. unfold strip_ansi. cbn [length].
    rewrite strip_ansi_loop_csi, skip_until_not_found by assumption.
    apply strip_ansi_loop_done.
  - intros body s Hb. unfold strip_ansi at 1. cbn [length].
    rewrite strip_ansi_loop_osc, skip_until_found
      by (auto; apply Ascii.eqb_refl).
    cbn [advance].
    rewrite strip_ansi_loop_enough by (rewrite length_app; simpl; lia).
    apply Hid.
  - intros body Hb. unfold strip_ansi. cbn [length].
    rewrite strip_ansi_loop_osc, skip_until_not_found by auto.
    apply strip_ansi_loop_done.
  - intros x s H1 H2. unfold strip_ansi at 1. cbn [length].
    rewrite strip_ansi_loop_other by assumption.
    rewrite strip_ansi_loop_enough by lia. apply Hid.
  - intros s out H. unfold strip_ansi in H.
    destruct (strip_ansi_loop_sublist _ _ _ _ H) as (r & -> & Hr). exact Hr.
Qed.

Lemma strip_ansi_sequences_witness :
  strip_ansi (ESC :: "["%char :: cs "1;31" ++ "m"%char :: cs "red")
  = strip_ansi (cs "red").
Proof.
  apply (proj1 (proj2 strip_ansi_sequences)).
  - repeat constructor.
  - reflexivity.
Defined.

(** ** Loading a file *)

Lemma cut_at_newline_prefix line :
  prefix (cut_at_newline line) line /\ ~ In NEWLINE (cut_at_newline line).
Proof.
  induction line as [|c line [IH1 IH2]]; simpl.
  - split; [reflexivity|tauto].
  - destruct (Ascii.eqb c NEWLINE) eqn:E.
    + split; [apply prefix_nil|simpl; tauto].
    + split; [now apply prefix_cons|].
      apply Ascii.eqb_neq in E. simpl. intros [H|H]; [congruence|tauto].
Qed.

Lemma removelast_In (c : ascii) (d : cstr) : In c (removelast d) -> In c d.
Proof.
  induction d as [|x d IH]; simpl; [tauto|].
  destruct d as [|y d]; [simpl; tauto|].
  intros [H|H]; [now left|right; now apply IH].
Qed.

Lemma strip_overstrikes_loop_In c src : forall dst,
  In c (strip_overstrikes_loop src dst) -> In c src \/ In c dst.
Proof.
  induction src as [|x src IH]; intros dst; simpl; [tauto|].
  destruct (Ascii.eqb x BS).
  - intros H. apply IH in H as [H|H]; [tauto|].
    right. destruct dst; [exact H|]. now apply removelast_In.
  - intros H. apply IH in H as [H|H]; [tauto|].
    apply in_app_or in H as [H|[H|[]]]; tauto.
Qed.

(** A stored line carries none of the bytes the clean-up is there to
    remove. *)
Lemma clean_line_spec raw :
  exists s,
    clean_line raw = Some s
    /\ ~ In BS s /\ ~ In ESC s /\ ~ In NEWLINE s
    /\ (forall c, last s = Some c -> ~ blank c)
    /\ (forall c, In c s -> In c raw).
Proof.
  unfold clean_line.
  set (a := cut_at_newline raw). set (b := strip_overstrikes a).
  destruct (strip_ansi_returns b) as (t & Ht & Hesc & Hsub).
  rewrite Ht. exists (rtrim t). split; [reflexivity|].
  destruct (rtrim_loop_spec (length t) t (Nat.le_refl _)) as (tail & Hs & _ & Hl).
  fold (rtrim t) in Hs, Hl.
  assert (Hin : forall c, In c (rtrim t) -> In c t).
  { intros c H. rewrite Hs. apply in_or_app. now left. }
  assert (Hb : forall c, In c t -> In c b).
  { intros c H. apply list_elem_of_In. apply list_elem_of_In in H.
    eapply sublist_subseteq; [exact Hsub|exact H]. }
  assert (Ha : forall c, In c b -> In c a).
  { intros c H. unfold b, strip_overstrikes in H.
    apply strip_overstrikes_loop_In in H as [H|[]]. exact H. }
  destruct (cut_at_newline_prefix raw) as [[k Hk] Hnl]. fold a in Hk, Hnl.
  repeat split.
  - intros H. apply Hin, Hb in H.
    revert H. apply strip_overstrikes_loop_no_bs. simpl. tauto.
  - intros H. apply Hin in H. tauto.
  - intros H. apply Hin, Hb, Ha in H. tauto.
  - exact Hl.
  - intros c H. apply Hin, Hb, Ha in H. rewrite Hk. apply in_or_app. now left.
Qed.

Lemma line_ptr_insert_same (ls : list (option cstr)) (i : Z) v :
  (Z.to_nat i < length ls)%nat -> line_ptr (<[Z.to_nat i := v]> ls) i = v.
Proof.
  intros H. unfold line_ptr. now rewrite list_lookup_insert_eq.
Qed.

Lemma load_file_lines_spec chunks : forall buf,
  0 <= line_count buf ->
  MAX_LINES <= Z.of_nat (length (lines buf)) ->
  exists b,
    load_file_lines chunks buf = Some b
    /\ line_count b
       = Z.max (line_count buf)
           (Z.min (line_count buf + Z.of_nat (length chunks)) MAX_LINES)
    /\ length (lines b) = length (lines buf)
    /\ (filepath b, http_request b, lang b, scroll_offset b, is_active b,
        is_http_buffer b)
       = (filepath buf, http_request buf, lang buf, scroll_offset buf,
          is_active buf, is_http_buffer buf)
    /\ (forall (j : nat) raw,
          chunks !! j = Some raw ->
          line_count buf + Z.of_nat j < MAX_LINES ->
          line_ptr (lines b) (line_count buf + Z.of_nat j) = clean_line raw)
    /\ (forall i,
          0 <= i ->
          i < line_count buf \/ line_count buf + Z.of_nat (length chunks) <= i ->
          line_ptr (lines b) i = line_ptr (lines buf) i).
Proof.
  induction chunks as [|raw chunks IH]; intros buf Hlc Hlen.
  - exists buf. simpl. repeat split; trivial; [lia|]. intros j r H. discriminate.
  - cbn [load_file_lines].
    destruct (line_count buf <? MAX_LINES) eqn:E.
    + apply Z.ltb_lt in E.
      destruct (clean_line_spec raw) as (s & Hs & _).
      unfold clean_line in Hs.
      destruct (strip_ansi (strip_overstrikes (cut_at_newline raw))) as [t|] eqn:Et;
        [|discriminate].
      injection Hs as Hs.
      match goal with
      | |- exists b, load_file_lines chunks ?buf1 = _ /\ _ => set (buf' := buf1)
      end.
      destruct (IH buf') as (b & Hb & Hcnt & Hl & Hf & Hnew & Hold).
      { unfold buf'. cbn [line_count]. lia. }
      { unfold buf'. cbn [lines]. rewrite length_insert. exact Hlen. }
      exists b. split; [exact Hb|].
      unfold buf' in Hcnt, Hl, Hf, Hnew, Hold.
      cbn [line_count lines filepath http_request lang scroll_offset is_active
           is_http_buffer] in Hcnt, Hl, Hf, Hnew, Hold.
      rewrite length_insert in Hl.
      split; [rewrite Hcnt; cbn [length]; lia|].
      split; [exact Hl|]. split; [exact Hf|]. split.
      * intros [|j] r Hj Hlt.
        -- injection Hj as <-. rewrite Z.add_0_r.
           rewrite Hold by lia. rewrite line_ptr_insert_same by lia.
           unfold clean_line. rewrite Et. simpl. now rewrite Hs.
        -- simpl in Hj. specialize (Hnew j r Hj).
           replace (line_count buf + Z.of_nat (Datatypes.S j))
             with (line_count buf + 1 + Z.of_nat j) by lia.
           apply Hnew. lia.
      * intros i Hi Hr. cbn [length] in Hr. rewrite Hold by lia.
        apply line_ptr_insert_other; lia.
    + apply Z.ltb_ge in E. exists buf.
      split; [reflexivity|]. split; [lia|]. split; [reflexivity|].
      split; [reflexivity|]. split; [|reflexivity].
      intros j r Hj Hlt. lia.
Qed.

(** X6.  [load_file] on a file that opens, into a buffer whose line array
    has its [MAX_LINES] slots: it returns 0 (also for an empty file), takes
    the first [MAX_LINES] strings that [fgets] gives and leaves the rest
    unread, stores each one cleaned (cut at the newline, overstrikes
    collapsed, escapes stripped, right-trimmed) so that a stored line holds
    no backspace, no ESC, no newline and no blank at its end, starts at
    scroll offset 0 with the language of the path, and leaves the slots
    past the strings it read as they were.  When the file does not open it returns
    -1 and the buffer is untouched. *)
Theorem load_file_spec (buf : Buffer) (path : cstr) (chunks : list cstr) :
  MAX_LINES <= Z.of_nat (length (lines buf)) ->
  load_file buf path None = Some (-1, buf)
  /\ exists b,
       load_file buf path (Some chunks) = Some (0, b)
       /\ line_count b = Z.min (Z.of_nat (length chunks)) MAX_LINES
       /\ scroll_offset b = 0
       /\ lang b = detect_language path
       /\ is_active b = 1
       /\ length (lines b) = length (lines buf)
       /\ (forall (j : nat) raw,
             chunks !! j = Some raw -> Z.of_nat j < MAX_LINES ->
             exists s,
               line_ptr (lines b) (Z.of_nat j) = Some s
               /\ clean_line raw = Some s
               /\ ~ In BS s /\ ~ In ESC s /\ ~ In NEWLINE s
               /\ (forall c, last s = Some c -> ~ blank c))
       /\ (forall i, Z.of_nat (length chunks) <= i ->
             line_ptr (lines b) i = line_ptr (lines buf) i).
Proof.
  intros Hlen. split; [reflexivity|].
  unfold load_file.
  match goal with
  | |- context [load_file_lines chunks ?buf1] => set (buf0 := buf1)
  end.
  destruct (load_file_lines_spec chunks buf0) as (b & Hb & Hcnt & Hl & Hf & Hnew & Hold).
  { unfold buf0. cbn [line_count]. lia. }
  { exact Hlen. }
  unfold buf0 in Hcnt, Hl, Hf, Hnew, Hold.
  cbn [line_count lines filepath http_request lang scroll_offset is_active
       is_http_buffer] in Hcnt, Hl, Hf, Hnew, Hold.
  injection Hf as Hf1 Hf2 Hf3 Hf4 Hf5 Hf6.
  exists b. rewrite Hb.
  split; [reflexivity|]. split; [rewrite Hcnt; unfold MAX_LINES; lia|].
  split; [exact Hf4|]. split; [exact Hf3|]. split; [exact Hf5|].
  split; [exact Hl|]. split.
  - intros j raw Hj Hlt.
    destruct (clean_line_spec raw) as (s & Hs & H1 & H2 & H3 & H4 & _).
    exists s. specialize (Hnew j raw Hj). rewrite Z.add_0_l in Hnew.
    rewrite Hnew by exact Hlt. repeat split; assumption.
  - intros i Hge. apply Hold; lia.
Qed.

Lemma load_file_spec_witness :
  exists b,
    load_file zero_buffer (cs "notes.txt")
      (Some [cs "plain"; cs "b" ++ [BS] ++ cs "bold  " ++ [NEWLINE]])
    = Some (0, b)
    /\ line_count b = 2.
Proof.
  destruct (proj2 (load_file_spec zero_buffer (cs "notes.txt")
                     [cs "plain"; cs "b" ++ [BS] ++ cs "bold  " ++ [NEWLINE]]
                     ltac:(vm_compute; discriminate)))
    as (b & Hb & Hn & _).
  exists b. split; [exact Hb|]. rewrite Hn. reflexivity.
Defined.

(** ** Wrapping, segment by segment *)

Lemma wrap_line_loop_chunks (line : cstr) (width : Z) :
  0 < width ->
  forall fuel pos cnt segs,
    0 <= pos <= Z.of_nat (length line) ->
    (Z.to_nat (Z.of_nat (length line) - pos) <= fuel)%nat ->
    exists rest,
      wrap_line_loop fuel line width (Z.of_nat (length line)) pos
        {| count := cnt; segments := Some segs |}
      = Some {| count := cnt + Z.of_nat (length rest);
                segments := Some (segs ++ rest) |}
      /\ (forall (i : nat) seg, rest !! i = Some seg ->
            seg = take (Z.to_nat width)
                    (drop (Z.to_nat (pos + Z.of_nat i * width)) line)).
Proof.
  intros Hw. set (len := Z.of_nat (length line)).
  induction fuel as [|fuel IH]; intros pos cnt segs Hpos Hfuel.
  - assert (pos = len) by lia. subst pos.
    exists []. simpl. rewrite Z.ltb_irrefl, app_nil_r, Z.add_0_r.
    split; [reflexivity|]. intros i seg H. discriminate.
  - cbn [wrap_line_loop count segments option_map].
    destruct (pos <? len) eqn:Hlt.
    + apply Z.ltb_lt in Hlt.
      set (take_n := if len - pos >? width then width else len - pos).
      assert (Htake : 0 < take_n <= width /\ take_n <= len - pos
                      /\ (take_n = width \/ take_n = len - pos)).
      { unfold take_n. destruct (len - pos >? width) eqn:E.
        - apply Z.gtb_lt in E. lia.
        - rewrite Z.gtb_ltb in E. apply Z.ltb_ge in E. lia. }
      clearbody take_n.
      set (seg := take (Z.to_nat take_n) (drop (Z.to_nat pos) line)).
      destruct (IH (pos + take_n) (cnt + 1) (segs ++ [seg]))
        as (rest & Hr & Hchunk); [lia|lia|].
      destruct (wrap_line_loop_spec line width Hw fuel (pos + take_n) (cnt + 1)
                  (segs ++ [seg])) as (rest' & Hr' & _ & Hn & _); [lia|lia|].
      fold len in Hr'. rewrite Hr in Hr'. injection Hr' as _ Hsame.
      apply app_inv_head in Hsame. subst rest'.
      exists (seg :: rest). split.
      * etransitivity; [exact Hr|].
        f_equal. f_equal; [simpl length; lia|]. f_equal. now rewrite <- app_assoc.
      * intros [|i] s Hi; simpl in Hi.
        -- injection Hi as <-. rewrite Z.mul_0_l, Z.add_0_r. unfold seg.
           destruct Htake as (H1 & H2 & [H3|H3]); rewrite H3; [reflexivity|].
           rewrite !take_ge; trivial; rewrite length_drop; unfold len in *; lia.
        -- rewrite (Hchunk i s Hi). f_equal. f_equal.
           destruct Htake as (H1 & H2 & [H3|H3]); [lia|].
           pose proof (lookup_lt_Some _ _ _ Hi) as Hb.
           assert (Z.of_nat (length rest) = 0).
           { rewrite Hn. fold len. replace (len - (pos + take_n)) with 0 by lia.
             now apply ceil_div_0. }
           lia.
    + apply Z.ltb_ge in Hlt. assert (pos = len) by lia. subst pos.
      exists []. rewrite app_nil_r, Z.add_0_r.
      split; [reflexivity|]. intros i seg H. discriminate.
Qed.

(** X7.  For a positive width, segment number [i] of [wrap_line] is the
    bytes [i * width .. (i + 1) * width) of the line (fewer at the end of
    the line), and the number of segments is at most [len / width + 1], one
    less than the [len / width + 2] slots the function allocates for a
    non-empty line. *)
Theorem wrap_line_chunks (line : cstr) (width : Z) :
  0 < width ->
  exists segs,
    wrap_line (Some line) width
    = Some {| count := Z.of_nat (length segs); segments := Some segs |}
    /\ (forall (i : nat) seg, segs !! i = Some seg ->
          seg = take (Z.to_nat width) (drop (i * Z.to_nat width) line))
    /\ 1 <= Z.of_nat (length segs) <= Z.of_nat (length line) / width + 1.
Proof.
  intros Hw. unfold wrap_line.
  destruct (width <=? 0) eqn:E; [apply Z.leb_le in E; lia|].
  destruct line as [|c line'] eqn:Hline.
  - exists [ [] ]. simpl. split; [reflexivity|]. split.
    + intros [|i] seg H; [|discriminate]. injection H as <-.
      simpl. now destruct (Z.to_nat width).
    + rewrite Z.div_0_l by lia. lia.
  - rewrite <- Hline.
    assert (Hne : 0 < Z.of_nat (length line)) by (subst line; simpl; lia).
    destruct (Z.of_nat (length line) =? 0) eqn:E0; [apply Z.eqb_eq in E0; lia|].
    destruct (wrap_line_loop_chunks line width Hw (length line) 0 0 [])
      as (segs & Hr & Hchunk); [lia|lia|].
    destruct (wrap_line_loop_spec line width Hw (length line) 0 0 [])
      as (segs' & Hr' & _ & Hn & _); [lia|lia|].
    rewrite Hr in Hr'. injection Hr' as _ Hsame. simpl in Hsame. subst segs'.
    exists segs. rewrite Hr. simpl. split; [reflexivity|]. split.
    + intros i seg Hi. rewrite (Hchunk i seg Hi). f_equal. f_equal. lia.
    + rewrite Hn, Z.sub_0_r.
      pose proof (ceil_div_bounds _ _ Hw Hne) as Hb.
      pose proof (Z.div_mod (Z.of_nat (length line)) width ltac:(lia)) as Hd.
      pose proof (Z.mod_pos_bound (Z.of_nat (length line)) width Hw) as Hm.
      nia.
Qed.

Lemma wrap_line_chunks_witness :
  exists segs,
    wrap_line (Some (cs "abcdefgh")) 3
    = Some {| count := Z.of_nat (length segs); segments := Some segs |}
    /\ (forall (i : nat) seg, segs !! i = Some seg ->
          seg = take (Z.to_nat 3) (drop (i * Z.to_nat 3) (cs "abcdefgh")))
    /\ 1 <= Z.of_nat (length segs) <= Z.of_nat (length (cs "abcdefgh")) / 3 + 1.
Proof.
  apply (wrap_line_chunks (cs "abcdefgh") 3). lia.
Defined.

(** ** Freeing and closing, slot by slot *)

(** X8.  [free_buffer] passes to [free] the pointer of every slot below
    [line_count], each once and in order, leaves those slots null and the
    slots from [line_count] on as they were, and sets [line_count] and
    [is_active] to 0; path, language and scroll offset stay.  Freeing the
    buffer a second time calls [free] on nothing. *)
Theorem free_buffer_releases (b : Buffer) :
  (free_buffer b).1
  = map (fun i : nat => Free (line_ptr (lines b) (Z.of_nat i)))
      (seq 0 (Z.to_nat (line_count b)))
  /\ (forall i, 0 <= i < line_count b ->
        line_ptr (lines (free_buffer b).2) i = None)
  /\ line_count (free_buffer b).2 = 0
  /\ is_active (free_buffer b).2 = 0
  /\ (filepath (free_buffer b).2, lang (free_buffer b).2,
      scroll_offset (free_buffer b).2)
     = (filepath b, lang b, scroll_offset b)
  /\ (free_buffer (free_buffer b).2).1 = [].
Proof.
  destruct (free_buffer_spec b) as (He & Hc & Ha & Hn).
  split; [exact He|]. split; [exact Hn|]. split; [exact Hc|].
  split; [exact Ha|]. split.
  - unfold free_buffer. destruct (for_loop _ _ _ _). reflexivity.
  - destruct (free_buffer_spec (free_buffer b).2) as (He2 & _).
    rewrite He2, Hc. reflexivity.
Qed.

(** X9.  What [close_current_buffer] leaves in the slot just past the new
    [buffer_count].  When the closed buffer was not the last one, that slot
    still holds the former last buffer, which the shift has also copied one
    slot down: the two slots are equal, line pointers and [line_count]
    included.  When the closed buffer was the last one, the slot holds the
    freed buffer, with [line_count] 0. *)
Theorem close_current_buffer_leaves_copy (max_y max_x : Z) (st : ViewerState) :
  let cur := current_buffer st in
  let n := buffer_count st in
  1 < n <= Z.of_nat (length (buffers st)) ->
  0 <= cur < n ->
  let st' := (close_current_buffer max_y max_x st).2 in
  (cur < n - 1 ->
   buffer_at st' (n - 1) = buffer_at st (n - 1)
   /\ buffer_at st' (n - 2) = buffer_at st (n - 1))
  /\ (cur = n - 1 ->
      buffer_at st' (n - 1) = (free_buffer (buffer_at st cur)).2
      /\ line_count (buffer_at st' (n - 1)) = 0).
Proof.
  intros cur n Hn Hcur st'. subst st'.
  rewrite (close_current_buffer_unfold max_y max_x st) by (fold n; lia).
  cbv zeta. fold cur. fold n. cbn [snd].
  set (st1 := store_buffer cur (free_buffer (buffer_at st cur)).2 st).
  pose proof (shift_down_spec st1 cur (n - 1)) as H. cbv zeta in H.
  set (st2 := for_loop cur (n - 1)
                (fun i s => store_buffer i (buffer_at s (i + 1)) s) st1) in *.
  assert (Hlen1 : length (buffers st1) = length (buffers st))
    by apply store_buffer_length.
  destruct H as (_ & _ & _ & Hsame & Hshift); [lia|lia|].
  set (st3 := set_buffer_count (buffer_count st2 - 1) st2).
  assert (Hfinal : forall i,
            buffer_at (if current_buffer st3 >=? buffer_count st3
                       then set_current_buffer (buffer_count st3 - 1) st3
                       else st3) i
            = buffer_at st2 i).
  { intros i. destruct (_ >=? _); reflexivity. }
  rewrite !Hfinal. split.
  - intros Hlt. split.
    + rewrite Hsame by lia. unfold st1. apply buffer_at_store_other. lia.
    + replace (n - 1) with (n - 2 + 1) at 2 by lia.
      rewrite Hshift by lia. replace (n - 2 + 1) with (n - 1) by lia.
      unfold st1. apply buffer_at_store_other. lia.
  - intros Hlast.
    assert (E : buffer_at st2 (n - 1) = (free_buffer (buffer_at st cur)).2).
    { rewrite Hsame by lia. unfold st1. rewrite <- Hlast.
      apply buffer_at_store_in. lia. }
    split; [exact E|]. rewrite E. apply free_buffer_spec.
Qed.

Lemma close_current_buffer_leaves_copy_witness :
  buffer_at (close_current_buffer 24 80 three_buffers).2 2
  = buffer_at (close_current_buffer 24 80 three_buffers).2 1.
Proof.
  assert (H1 : 1 < buffer_count three_buffers
               <= Z.of_nat (length (buffers three_buffers)))
    by (vm_compute; split; [reflexivity|discriminate]).
  assert (H2 : 0 <= current_buffer three_buffers < buffer_count three_buffers)
    by (vm_compute; split; [discriminate|reflexivity]).
  destruct (proj1 (close_current_buffer_leaves_copy 24 80 three_buffers H1 H2))
    as [Ha Hb].
  - vm_compute. reflexivity.
  - assert (E : buffer_count three_buffers = 3) by (vm_compute; reflexivity).
    rewrite E in Ha, Hb.
    change (3 - 1) with 2 in Ha, Hb. change (3 - 2) with 1 in Hb.
    exact (eq_trans Ha (eq_sym Hb)).
Defined.

(** ** Keys *)

Lemma handle_input_tab max_y max_x typed st running :
  handle_input (key "009") max_y max_x typed st running
  = if (copy_mode st =? 0) && (buffer_count st >? 1)
    then Some ([], set_current_buffer
                     (Z.rem (current_buffer st + 1) (buffer_count st)) st,
               running)
    else Some ([], st, running).
Proof. reflexivity. Qed.

Lemma handle_input_btab max_y max_x typed st running :
  handle_input KEY_BTAB max_y max_x typed st running
  = if (copy_mode st =? 0) && (buffer_count st >? 1)
    then Some ([], set_current_buffer
                     (if current_buffer st - 1 <? 0 then buffer_count st - 1
                      else current_buffer st - 1) st,
               running)
    else Some ([], st, running).
Proof. reflexivity. Qed.

(** X10.  Switching buffers.  Outside copy mode and with more than one
    buffer, Tab selects the next buffer and Shift-Tab the one before, going
    round at both ends, and neither changes anything but [current_buffer];
    so Shift-Tab after Tab, and Tab after Shift-Tab, come back to the buffer
    one started from. *)
Theorem buffer_switch_round_trip (max_y max_x : Z) (typed : cstr)
    (st : ViewerState) :
  copy_mode st = 0 ->
  1 < buffer_count st ->
  0 <= current_buffer st < buffer_count st ->
  let tab := after_key (key "009") max_y max_x typed in
  let back := after_key KEY_BTAB max_y max_x typed in
  tab st = set_current_buffer
             ((current_buffer st + 1) mod buffer_count st) st
  /\ back st = set_current_buffer
                 ((current_buffer st - 1) mod buffer_count st) st
  /\ back (tab st) = st
  /\ tab (back st) = st.
Proof.
  intros Hcopy Hn Hcur tab back.
  assert (Hg : (buffer_count st >? 1) = true)
    by (rewrite Z.gtb_ltb; apply Z.ltb_lt; lia).
  assert (Htab : forall s, copy_mode s = 0 -> (buffer_count s >? 1) = true ->
            tab s = set_current_buffer
                      (Z.rem (current_buffer s + 1) (buffer_count s)) s).
  { intros s H1 H2. unfold tab, after_key. rewrite handle_input_tab, H1, H2.
    reflexivity. }
  assert (Hback : forall s, copy_mode s = 0 -> (buffer_count s >? 1) = true ->
            back s = set_current_buffer
                       (if current_buffer s - 1 <? 0 then buffer_count s - 1
                        else current_buffer s - 1) s).
  { intros s H1 H2. unfold back, after_key. rewrite handle_input_btab, H1, H2.
    reflexivity. }
  assert (Hrem : Z.rem (current_buffer st + 1) (buffer_count st)
                 = (current_buffer st + 1) mod buffer_count st)
    by (apply Z.rem_mod_nonneg; lia).
  assert (Hprev : (if current_buffer st - 1 <? 0 then buffer_count st - 1
                   else current_buffer st - 1)
                  = (current_buffer st - 1) mod buffer_count st).
  { destruct (current_buffer st - 1 <? 0) eqn:E.
    - apply Z.ltb_lt in E. apply (Z.mod_unique_pos _ _ (-1)); lia.
    - apply Z.ltb_ge in E. symmetry. apply Z.mod_small. lia. }
  assert (Hrestore : forall v, set_current_buffer (current_buffer st)
                                 (set_current_buffer v st) = st)
    by (intros v; destruct st; reflexivity).
  split; [rewrite Htab, Hrem by assumption; reflexivity|].
  split; [rewrite Hback, Hprev by assumption; reflexivity|].
  assert (A1 : (if (current_buffer st + 1) mod buffer_count st - 1 <? 0
                then buffer_count st - 1
                else (current_buffer st + 1) mod buffer_count st - 1)
               = current_buffer st).
  { destruct (Z.eq_dec (current_buffer st + 1) (buffer_count st)) as [E|E].
    - rewrite E, Z.mod_same by lia. change (0 - 1 <? 0) with true.
      cbv iota. lia.
    - rewrite Z.mod_small by lia.
      destruct (current_buffer st + 1 - 1 <? 0) eqn:E2;
        [apply Z.ltb_lt in E2|apply Z.ltb_ge in E2]; lia. }
  assert (A2 : Z.rem ((current_buffer st - 1) mod buffer_count st + 1)
                 (buffer_count st) = current_buffer st).
  { pose proof (Z.mod_pos_bound (current_buffer st - 1) (buffer_count st)).
    rewrite Z.rem_mod_nonneg by lia.
    rewrite Zplus_mod_idemp_l.
    replace (current_buffer st - 1 + 1) with (current_buffer st) by lia.
    apply Z.mod_small. lia. }
  split.
  - rewrite Htab, Hrem by assumption. rewrite Hback by assumption.
    cbn [current_buffer buffer_count set_current_buffer].
    etransitivity; [|apply (Hrestore ((current_buffer st + 1) mod buffer_count st))].
    f_equal. exact A1.
  - rewrite Hback, Hprev by assumption. rewrite Htab by assumption.
    cbn [current_buffer buffer_count set_current_buffer].
    etransitivity; [|apply (Hrestore ((current_buffer st - 1) mod buffer_count st))].
    f_equal. exact A2.
Qed.

Lemma buffer_switch_round_trip_witness :
  after_key KEY_BTAB 24 80 [] (after_key (key "009") 24 80 [] three_buffers)
  = three_buffers.
Proof.
  apply (buffer_switch_round_trip 24 80 [] three_buffers).
  - vm_compute. reflexivity.
  - vm_compute. reflexivity.
  - vm_compute. split; [discriminate|reflexivity].
Defined.

(** X11.  Copy mode is modal: while it is on, the keys q, Q, r, R, x, X, v,
    /, n, N, o, O, Tab and Shift-Tab change neither the state nor [running]
    and draw nothing, and Escape switches copy mode off and changes nothing
    else (the stored selection bounds stay). *)
Theorem copy_mode_is_modal (max_y max_x : Z) (typed : cstr) (st : ViewerState)
    (running : Z) :
  copy_mode st <> 0 ->
  Forall (fun ch =>
            handle_input ch max_y max_x typed st running = Some ([], st, running))
    keys_off_in_copy_mode
  /\ handle_input 27 max_y max_x typed st running
     = Some ([], set_copy_mode 0 st, running).
Proof.
  intros H. apply Z.eqb_neq in H. unfold keys_off_in_copy_mode.
  split.
  - repeat constructor;
      match goal with
      | |- handle_input ?k _ _ _ _ _ = _ =>
          let k' := eval vm_compute in k in change k with k'
      end;
      unfold handle_input; cbv zeta;
      repeat match goal with
             | |- context [Z.eqb ?a ?b] =>
                 lazymatch a with
                 | copy_mode _ => fail
                 | _ => let v := eval vm_compute in (Z.eqb a b) in
                        change (Z.eqb a b) with v
                 end
             end;
      cbn [orb andb]; rewrite ?H; cbn [orb andb]; reflexivity.
  - unfold handle_input. cbv zeta.
    change (27 =? key "q") with false. change (27 =? key "Q") with false.
    cbn [orb]. change (27 =? 27) with true. cbv iota. now rewrite H.
Qed.

Lemma copy_mode_is_modal_witness :
  handle_input 27 24 80 [] (set_copy_mode 1 foo_bar_baz) 1
  = Some ([], set_copy_mode 0 (set_copy_mode 1 foo_bar_baz), 1).
Proof.
  apply (proj2 (copy_mode_is_modal 24 80 [] (set_copy_mode 1 foo_bar_baz) 1
                  ltac:(discriminate))).
Defined.

(** ** The selection *)

Lemma for_loop_inv {S : Type} (P : S -> Prop) a b (body : Z -> S -> S) s :
  P s -> (forall i s', P s' -> P (body i s')) -> P (for_loop a b body s).
Proof.
  intros H0 Hstep. unfold for_loop.
  generalize (seq 0 (Z.to_nat (b - a))). intros l. revert s H0.
  induction l as [|k l IH]; intros s H0; [exact H0|].
  cbn [fold_left]. apply IH, Hstep, H0.
Qed.

Lemma copy_fields_next_match st : copy_fields (next_match st) = copy_fields st.
Proof.
  unfold next_match. destruct (search_term st); [reflexivity|].
  cbv zeta. destruct (_ >=? 0); reflexivity.
Qed.

Lemma copy_fields_prev_match st : copy_fields (prev_match st) = copy_fields st.
Proof.
  unfold prev_match. destruct (search_term st); [reflexivity|].
  cbv zeta. destruct (_ >=? 0); reflexivity.
Qed.

Lemma copy_fields_find_all_matches st :
  copy_fields (find_all_matches st) = copy_fields st.
Proof.
  unfold find_all_matches. cbv zeta.
  destruct (search_term (set_search_match_count 0 st)); reflexivity.
Qed.

Lemma copy_fields_prompt_search max_y max_x typed st :
  copy_fields (prompt_search max_y max_x typed st).2 = copy_fields st.
Proof.
  unfold prompt_search. cbv zeta.
  destruct (search_input typed); [reflexivity|].
  destruct (_ >=? 0); cbn [snd];
    [change (copy_fields (set_current_match ?c (store_buffer ?i ?b ?s)))
       with (copy_fields s)|];
    rewrite copy_fields_find_all_matches; reflexivity.
Qed.

Lemma copy_fields_close max_y max_x st :
  copy_fields (close_current_buffer max_y max_x st).2 = copy_fields st.
Proof.
  unfold close_current_buffer.
  destruct (buffer_count st <=? 1); [reflexivity|].
  destruct (free_buffer _) as [evs freed]. cbv zeta. cbn [snd].
  match goal with
  | |- copy_fields (if _ then set_current_buffer _ ?s else ?s) = _ =>
      transitivity (copy_fields s); [destruct (_ >=? _); reflexivity|]
  end.
  change (copy_fields (set_buffer_count ?c ?s)) with (copy_fields s).
  apply (for_loop_inv (fun s => copy_fields s = copy_fields st)).
  - reflexivity.
  - intros i s' H. exact H.
Qed.

Lemma copy_fields_mode st st' :
  copy_fields st' = copy_fields st ->
  copy_mode st' = copy_mode st /\ copy_start_line st' = copy_start_line st
  /\ copy_end_line st' = copy_end_line st.
Proof. unfold copy_fields. intros [= -> -> ->]. auto. Qed.

Lemma track_selection_spec st :
  let st' := track_selection st in
  buffers st' = buffers st /\ current_buffer st' = current_buffer st
  /\ buffer_count st' = buffer_count st
  /\ copy_mode st' = copy_mode st /\ copy_start_line st' = copy_start_line st
  /\ selection_ok st'.
Proof.
  unfold track_selection, selection_ok.
  destruct (copy_mode st =? 0) eqn:E; cbv zeta.
  - apply Z.eqb_eq in E. repeat split; trivial. intros H. contradiction.
  - repeat split; trivial.
Qed.

Lemma handle_input_selection (ch max_y max_x : Z) (typed : cstr)
    (st st' : ViewerState) (running running' : Z) (evs : list event) :
  handle_input ch max_y max_x typed st running = Some (evs, st', running') ->
  selection_ok st ->
  selection_ok st'
  /\ (copy_mode st <> 0 -> copy_mode st' <> 0 ->
      copy_start_line st' = copy_start_line st
      /\ current_buffer st' = current_buffer st
      /\ buffer_count st' = buffer_count st)
  /\ (copy_mode st = 0 -> copy_mode st' <> 0 ->
      ch = key "v"
      /\ copy_start_line st' = scroll_offset (buffer_at st (current_buffer st))
      /\ copy_end_line st' = copy_start_line st'
      /\ buffers st' = buffers st /\ current_buffer st' = current_buffer st).
Proof.
  intros H Hok.
  assert (Hoff : forall s, copy_mode s = 0 ->
            selection_ok s
            /\ (copy_mode st <> 0 -> copy_mode s <> 0 ->
                copy_start_line s = copy_start_line st
                /\ current_buffer s = current_buffer st
                /\ buffer_count s = buffer_count st)
            /\ (copy_mode st = 0 -> copy_mode s <> 0 ->
                ch = key "v"
                /\ copy_start_line s
                   = scroll_offset (buffer_at st (current_buffer st))
                /\ copy_end_line s = copy_start_line s
                /\ buffers s = buffers st
                /\ current_buffer s = current_buffer st)).
  { intros s Hs. unfold selection_ok. repeat split; intros; contradiction. }
  assert (Hsame : selection_ok st
            /\ (copy_mode st <> 0 -> copy_mode st <> 0 ->
                copy_start_line st = copy_start_line st
                /\ current_buffer st = current_buffer st
                /\ buffer_count st = buffer_count st)
            /\ (copy_mode st = 0 -> copy_mode st <> 0 ->
                ch = key "v"
                /\ copy_start_line st
                   = scroll_offset (buffer_at st (current_buffer st))
                /\ copy_end_line st = copy_start_line st
                /\ buffers st = buffers st
                /\ current_buffer st = current_buffer st)).
  { repeat split; trivial; intros; contradiction. }
  assert (Hmove : forall v,
            let s := track_selection (scroll_to v st) in
            selection_ok s
            /\ (copy_mode st <> 0 -> copy_mode s <> 0 ->
                copy_start_line s = copy_start_line st
                /\ current_buffer s = current_buffer st
                /\ buffer_count s = buffer_count st)
            /\ (copy_mode st = 0 -> copy_mode s <> 0 ->
                ch = key "v"
                /\ copy_start_line s
                   = scroll_offset (buffer_at st (current_buffer st))
                /\ copy_end_line s = copy_start_line s
                /\ buffers s = buffers st
                /\ current_buffer s = current_buffer st)).
  { intros v s.
    destruct (track_selection_spec (scroll_to v st))
      as (_ & T2 & T3 & T4 & T5 & T6). fold s in T2, T3, T4, T5, T6.
    split; [exact T6|]. split.
    - intros _ _. rewrite T5, T2, T3. repeat split.
    - intros H0 H1. rewrite T4 in H1. contradiction. }
  assert (Hframe : forall s,
            buffers s = buffers st -> current_buffer s = current_buffer st ->
            buffer_count s = buffer_count st ->
            copy_fields s = copy_fields st ->
            selection_ok s
            /\ (copy_mode st <> 0 -> copy_mode s <> 0 ->
                copy_start_line s = copy_start_line st
                /\ current_buffer s = current_buffer st
                /\ buffer_count s = buffer_count st)
            /\ (copy_mode st = 0 -> copy_mode s <> 0 ->
                ch = key "v"
                /\ copy_start_line s
                   = scroll_offset (buffer_at st (current_buffer st))
                /\ copy_end_line s = copy_start_line s
                /\ buffers s = buffers st
                /\ current_buffer s = current_buffer st)).
  { intros s F1 F2 F3 F4. apply copy_fields_mode in F4 as (F4 & F5 & F6).
    split; [|split].
    - unfold selection_ok, buffer_at. rewrite F1, F2, F4, F6. exact Hok.
    - intros _ _. auto.
    - intros H0 H1. rewrite F4 in H1. contradiction. }
  unfold handle_input in H. cbv zeta in H.
  repeat match type of H with
         | (if ?c then _ else _) = _ => destruct c eqn:?
         | (let '(_, _) := ?p in _) = _ => destruct p eqn:?
         | None = Some _ => discriminate H
         end;
    injection H as <- <- <-;
    repeat match goal with
           | |- context [if copy_mode st =? 0 then _ else _] =>
               destruct (copy_mode st =? 0) eqn:?
           end;
    repeat match goal with
           | E : (copy_mode st =? 0) = true |- _ => apply Z.eqb_eq in E
           | E : (copy_mode st =? 0) = false |- _ => apply Z.eqb_neq in E
           | E : (_ && _) = true |- _ => apply andb_true_iff in E; destruct E
           | E : close_current_buffer _ _ _ = (_, _) |- _ =>
               apply (f_equal snd) in E; cbn [snd] in E; subst
           | E : prompt_search _ _ _ _ = (_, _) |- _ =>
               apply (f_equal snd) in E; cbn [snd] in E; subst
           end;
    first
      [ exact Hsame
      | apply Hmove
      | apply Hframe; reflexivity
      | apply Hoff;
        first
          [ reflexivity
          | assumption
          | rewrite (proj1 (copy_fields_mode _ _ (copy_fields_close _ _ _)));
            assumption
          | rewrite (proj1 (copy_fields_mode _ _
                              (copy_fields_prompt_search _ _ _ _)));
            assumption
          | rewrite (proj1 (copy_fields_mode _ _ (copy_fields_next_match _)));
            assumption
          | rewrite (proj1 (copy_fields_mode _ _ (copy_fields_prev_match _)));
            assumption ]
      | split; [intros _; reflexivity|];
        split; [intros; contradiction|];
        intros _ _;
        match goal with
        | E : (ch =? key "v") = true |- _ => apply Z.eqb_eq in E
        end;
        repeat split; assumption ].
Qed.

(** X12.  The selection follows the view.  [selection_ok] (in copy mode the
    end of the selection is the line the current buffer is scrolled to) is
    kept by every key of the model, for any state and any screen size.  As
    long as copy mode stays on, no key moves the start of the selection,
    changes the current buffer or the number of buffers; and copy mode is
    only ever entered by v, which puts both ends of the selection on the
    line at the top of the view. *)
Theorem selection_tracks_scroll (ch max_y max_x : Z) (typed : cstr)
    (st st' : ViewerState) (running running' : Z) (evs : list event) :
  handle_input ch max_y max_x typed st running = Some (evs, st', running') ->
  selection_ok st ->
  selection_ok st'
  /\ (copy_mode st <> 0 -> copy_mode st' <> 0 ->
      copy_start_line st' = copy_start_line st
      /\ current_buffer st' = current_buffer st
      /\ buffer_count st' = buffer_count st)
  /\ (copy_mode st = 0 -> copy_mode st' <> 0 ->
      ch = key "v"
      /\ copy_start_line st' = scroll_offset (buffer_at st (current_buffer st))
      /\ copy_end_line st' = copy_start_line st'
      /\ buffers st' = buffers st /\ current_buffer st' = current_buffer st).
Proof. apply handle_input_selection. Qed.

Lemma selection_tracks_scroll_witness :
  selection_ok (after_key (key "v") 24 80 [] foo_bar_baz).
Proof.
  assert (Hok : selection_ok foo_bar_baz).
  { intros H. exfalso. apply H. vm_compute. reflexivity. }
  unfold after_key.
  destruct (handle_input (key "v") 24 80 [] foo_bar_baz 1)
    as [[[evs st'] running']|] eqn:E; [|exact Hok].
  exact (proj1 (selection_tracks_scroll (key "v") 24 80 [] foo_bar_baz st' 1
                  running' evs E Hok)).
Defined.

(** ** Commands *)

(** [strstr] answers the first occurrence: the needle starts the suffix it
    returns and starts no suffix that begins earlier. *)
Lemma strstr_first needle : forall s p,
  strstr s needle = Some p ->
  exists pre, s = pre ++ p /\ starts_with p needle = true
    /\ forall k, (k < length pre)%nat -> starts_with (drop k s) needle = false.
Proof.
  induction s as [|c s IH]; intros p; cbn [strstr].
  - destruct (starts_with [] needle) eqn:E; [|discriminate].
    intros [= <-]. exists []. split; [reflexivity|]. split; [exact E|].
    intros k Hk. simpl in Hk. lia.
  - destruct (starts_with (c :: s) needle) eqn:E.
    + intros [= <-]. exists []. split; [reflexivity|]. split; [exact E|].
      intros k Hk. simpl in Hk. lia.
    + intros H. apply IH in H as (pre & -> & Hp & Hfirst).
      exists (c :: pre). split; [reflexivity|]. split; [exact Hp|].
      intros [|k] Hk; [exact E|]. simpl in Hk. apply Hfirst. lia.
Qed.

Lemma char_at_not_nul (p : cstr) (k : Z) :
  0 <= k -> ~ In NUL p ->
  negb (Ascii.eqb (char_at p k) NUL) = true <-> k < Z.of_nat (length p).
Proof.
  intros Hk Hn. unfold char_at. rewrite negb_true_iff. split.
  - intros H. destruct (Z_lt_dec k (Z.of_nat (length p))) as [|Hge]; [assumption|].
    rewrite nth_overflow in H by lia. rewrite Ascii.eqb_refl in H. discriminate.
  - intros H. apply Ascii.eqb_neq. intros E. apply Hn. rewrite <- E.
    apply nth_In. lia.
Qed.

(** X13.  What counts as a man command.  The null pointer and the empty
    string do not.  A string (without NUL bytes, as every C string) does
    exactly when [man ] with its blank occurs in it either at the very start
    or with at least one byte behind it; so [man ] alone counts, a string
    whose only occurrence ends it does not, and the four bytes need not begin
    a word. *)
Theorem is_man_command_arg_spec (arg : cstr) :
  ~ In NUL arg ->
  is_man_command_arg None = false
  /\ (is_man_command_arg (Some arg) = true
      <-> exists pre rest, arg = pre ++ cs "man " ++ rest
                           /\ (pre = [] \/ rest <> [])).
Proof.
  intros Hn. split; [reflexivity|].
  destruct arg as [|c arg]; cbn [is_man_command_arg].
  { split; [discriminate|]. intros (pre & rest & H & _).
    destruct pre; discriminate. }
  set (s := c :: arg) in *.
  destruct (starts_with s (cs "man ")) eqn:Es.
  { split; [|reflexivity]. intros _.
    apply starts_with_prefix in Es as [rest Es].
    exists [], rest. split; [exact Es|now left]. }
  assert (Hnot : forall rest, s <> cs "man " ++ rest).
  { intros rest E.
    assert (starts_with s (cs "man ") = true)
      by (apply starts_with_prefix; eauto).
    congruence. }
  unfold contains_substr.
  destruct (strstr s (cs "man ")) as [p|] eqn:Ep.
  - apply strstr_first in Ep as (pre0 & Hs & Hp & Hfirst).
    apply starts_with_prefix in Hp as [rest0 Hp].
    assert (Hnp : ~ In NUL p).
    { intros H. apply Hn. rewrite Hs. apply in_or_app. now right. }
    rewrite (char_at_not_nul p 4 ltac:(lia) Hnp). split.
    + intros H. exists pre0, rest0. split; [now rewrite Hs, Hp|].
      right. intros ->. rewrite Hp in H. simpl in H. lia.
    + intros (pre & rest & E & [->|Hr]); [now apply Hnot in E|].
      assert (Hle : (length pre0 <= length pre)%nat).
      { destruct (le_lt_dec (length pre0) (length pre)) as [|Hlt]; [assumption|].
        apply Hfirst in Hlt. rewrite E, drop_app_length in Hlt.
        assert (starts_with (cs "man " ++ rest) (cs "man ") = true)
          by (apply starts_with_prefix; eauto).
        congruence. }
      apply (f_equal (@length ascii)) in E. rewrite Hs in E.
      rewrite !length_app in E. change (length (cs "man ")) with 4%nat in E.
      destruct rest; [congruence|]. simpl in E. lia.
  - split; [discriminate|]. intros (pre & rest & E & _).
    assert (H : contains_substr s (cs "man ") = true).
    { apply contains_substr_spec. exists pre, rest. exact E. }
    unfold contains_substr in H. rewrite Ep in H. discriminate.
Qed.

Lemma is_man_command_arg_spec_witness :
  is_man_command_arg (Some (cs "woman page")) = true.
Proof.
  apply (is_man_command_arg_spec (cs "woman page")).
  - vm_compute. intuition discriminate.
  - exists (cs "wo"), (cs "page"). split; [reflexivity|]. right. discriminate.
Defined.

(** ** Loading from a pipe *)

Lemma chomp_loop_spec fuel : forall s,
  (length s <= fuel)%nat ->
  exists tail,
    s = chomp_loop fuel s ++ tail
    /\ Forall line_end tail
    /\ forall c, last (chomp_loop fuel s) = Some c -> ~ line_end c.
Proof.
  induction fuel as [|fuel IH]; intros s Hlen.
  - destruct s; [|simpl in Hlen; lia]. exists []. simpl.
    repeat split; [constructor|discriminate].
  - cbn [chomp_loop].
    destruct s as [|c s] using rev_ind.
    + exists []. simpl. repeat split; [constructor|discriminate].
    + clear IHs. rewrite List.last_last, removelast_last.
      rewrite length_app in *. simpl in *.
      replace (0 <? Z.of_nat (length s + 1)) with true
        by (symmetry; apply Z.ltb_lt; lia).
      cbn [andb].
      destruct (Ascii.eqb c NEWLINE || Ascii.eqb c CR) eqn:E.
      * destruct (IH s) as (tail & Hs & Htail & Hlast); [lia|].
        exists (tail ++ [c]). split; [|split; [|exact Hlast]].
        -- rewrite app_assoc. now rewrite <- Hs.
        -- apply Forall_app. split; [exact Htail|].
           constructor; [|constructor]. unfold line_end.
           apply orb_true_iff in E as [E|E]; apply Ascii.eqb_eq in E; auto.
      * exists []. rewrite app_nil_r. split; [reflexivity|].
        split; [constructor|].
        intros c' Hc'. rewrite last_snoc in Hc'. injection Hc' as <-.
        apply orb_false_iff in E as [E1 E2].
        apply Ascii.eqb_neq in E1, E2. unfold line_end. tauto.
Qed.

Lemma chomp_spec s :
  exists tail, s = chomp s ++ tail /\ Forall line_end tail
    /\ forall c, last (chomp s) = Some c -> ~ line_end c.
Proof. apply chomp_loop_spec. reflexivity. Qed.

(** The loop stops at the first byte from the end that is no line end. *)
Lemma chomp_unique body tail :
  (forall c, last body = Some c -> ~ line_end c) ->
  Forall line_end tail ->
  chomp (body ++ tail) = body.
Proof.
  intros Hb Ht.
  destruct (chomp_spec (body ++ tail)) as (tail' & Hs & Ht' & Hl).
  set (r := chomp (body ++ tail)) in *.
  assert (Hlen : length r = length body).
  { destruct (Nat.lt_trichotomy (length r) (length body)) as [Hlt|[He|Hgt]];
      [exfalso|exact He|exfalso].
    - (* the last byte of body lies in tail' *)
      destruct body as [|c body] using rev_ind; [simpl in Hlt; lia|].
      clear IHbody. specialize (Hb c (last_snoc _ _)). apply Hb.
      assert (Hin : In c tail').
      { assert (E : drop (length r) (r ++ tail') = tail')
          by apply drop_app_length.
        rewrite <- Hs in E. rewrite <- E.
        rewrite length_app in Hlt. simpl in Hlt.
        rewrite <- app_assoc. rewrite drop_app_le by lia.
        apply in_or_app. right. simpl. now left. }
      rewrite Forall_forall in Ht'. apply Ht'. apply list_elem_of_In. exact Hin.
    - destruct r as [|c r'] using rev_ind; [simpl in Hgt; lia|].
      clear IHr'. specialize (Hl c (last_snoc _ _)). apply Hl.
      assert (Hin : In c tail).
      { assert (E : drop (length body) (body ++ tail) = tail)
          by apply drop_app_length.
        rewrite Hs in E. rewrite <- E.
        rewrite length_app in Hgt. simpl in Hgt.
        rewrite <- app_assoc. rewrite drop_app_le by lia.
        apply in_or_app. right. simpl. now left. }
      rewrite Forall_forall in Ht. apply Ht. apply list_elem_of_In. exact Hin. }
  apply (f_equal (take (length body))) in Hs.
  rewrite take_app_length in Hs. rewrite <- Hlen in Hs at 1.
  rewrite take_app_length in Hs. congruence.
Qed.

Lemma strip_overstrikes_no_bs_id s : ~ In BS s -> strip_overstrikes s = s.
Proof.
  unfold strip_overstrikes. intros H.
  assert (G : forall src dst, ~ In BS src ->
            strip_overstrikes_loop src dst = dst ++ src).
  { induction src as [|c src IH]; intros dst Hs; simpl.
    - now rewrite app_nil_r.
    - destruct (Ascii.eqb c BS) eqn:E.
      + apply Ascii.eqb_eq in E. exfalso. apply Hs. now left.
      + rewrite IH by (intros Hin; apply Hs; now right).
        now rewrite <- app_assoc. }
  now rewrite G.
Qed.

Lemma clean_chunk_spec raw :
  exists s,
    clean_chunk raw = Some s
    /\ ~ In BS s /\ ~ In ESC s
    /\ (forall c, last s = Some c -> ~ blank c)
    /\ (forall c, In c s -> In c raw).
Proof.
  unfold clean_chunk.
  set (a := chomp raw). set (b := strip_overstrikes a).
  destruct (strip_ansi_returns b) as (t & Ht & Hesc & Hsub).
  rewrite Ht. exists (rtrim t). split; [reflexivity|].
  destruct (rtrim_loop_spec (length t) t (Nat.le_refl _)) as (tail & Hs & _ & Hl).
  fold (rtrim t) in Hs, Hl.
  assert (Hin : forall c, In c (rtrim t) -> In c t).
  { intros c H. rewrite Hs. apply in_or_app. now left. }
  assert (Hb : forall c, In c t -> In c b).
  { intros c H. apply list_elem_of_In. apply list_elem_of_In in H.
    eapply sublist_subseteq; [exact Hsub|exact H]. }
  assert (Ha : forall c, In c b -> In c a).
  { intros c H. unfold b, strip_overstrikes in H.
    apply strip_overstrikes_loop_In in H as [H|[]]. exact H. }
  destruct (chomp_spec raw) as (k & Hk & _). fold a in Hk.
  repeat split.
  - intros H. apply Hin, Hb in H.
    revert H. apply strip_overstrikes_loop_no_bs. simpl. tauto.
  - intros H. apply Hin in H. tauto.
  - exact Hl.
  - intros c H. apply Hin, Hb, Ha in H. rewrite Hk. apply in_or_app. now left.
Qed.

Lemma read_lines_spec stream : forall buf,
  0 <= line_count buf ->
  MAX_LINES <= Z.of_nat (length (lines buf)) ->
  exists b rest,
    read_lines stream buf = Some (b, rest)
    /\ line_count b
       = Z.max (line_count buf)
           (Z.min (line_count buf + Z.of_nat (length stream)) MAX_LINES)
    /\ rest = drop (Z.to_nat (Z.max 0 (MAX_LINES - line_count buf) + 1)) stream
    /\ length (lines b) = length (lines buf)
    /\ (filepath b, http_request b, lang b, scroll_offset b, is_active b,
        is_http_buffer b)
       = (filepath buf, http_request buf, lang buf, scroll_offset buf,
          is_active buf, is_http_buffer buf)
    /\ (forall (j : nat) raw,
          stream !! j = Some raw ->
          line_count buf + Z.of_nat j < MAX_LINES ->
          line_ptr (lines b) (line_count buf + Z.of_nat j) = clean_chunk raw)
    /\ (forall i,
          0 <= i ->
          i < line_count buf \/ line_count buf + Z.of_nat (length stream) <= i ->
          line_ptr (lines b) i = line_ptr (lines buf) i).
Proof.
  induction stream as [|raw stream IH]; intros buf Hlc Hlen.
  - exists buf, []. simpl. split; [reflexivity|]. split; [lia|].
    split; [now rewrite drop_nil|].
    repeat split; trivial. intros j r H. discriminate.
  - cbn [read_lines].
    destruct (line_count buf <? MAX_LINES) eqn:E.
    + apply Z.ltb_lt in E.
      destruct (clean_chunk_spec raw) as (s & Hs & _).
      unfold clean_chunk in Hs.
      destruct (strip_ansi (strip_overstrikes (chomp raw))) as [t|] eqn:Et;
        [|discriminate].
      injection Hs as Hs.
      set (buf' := push_line (rtrim t) buf).
      destruct (IH buf') as (b & rest & Hb & Hcnt & Hrest & Hl & Hf & Hnew & Hold).
      { unfold buf'. cbn [push_line line_count]. lia. }
      { unfold buf'. cbn [push_line lines]. rewrite length_insert. exact Hlen. }
      exists b, rest. split; [exact Hb|].
      unfold buf' in Hcnt, Hrest, Hl, Hf, Hnew, Hold.
      cbn [push_line line_count lines filepath http_request lang scroll_offset
           is_active is_http_buffer] in Hcnt, Hrest, Hl, Hf, Hnew, Hold.
      rewrite length_insert in Hl.
      split; [rewrite Hcnt; cbn [length]; lia|].
      split.
      { rewrite Hrest.
        replace (Z.to_nat (Z.max 0 (MAX_LINES - line_count buf) + 1))
          with (Datatypes.S (Z.to_nat (Z.max 0 (MAX_LINES - (line_count buf + 1)) + 1)))
          by lia.
        reflexivity. }
      split; [exact Hl|]. split; [exact Hf|]. split.
      * intros [|j] r Hj Hlt.
        -- injection Hj as <-. rewrite Z.add_0_r.
           rewrite Hold by lia. rewrite line_ptr_insert_same by lia.
           unfold clean_chunk. rewrite Et. simpl. now rewrite Hs.
        -- simpl in Hj. specialize (Hnew j r Hj).
           replace (line_count buf + Z.of_nat (Datatypes.S j))
             with (line_count buf + 1 + Z.of_nat j) by lia.
           apply Hnew. lia.
      * intros i Hi Hr. cbn [length] in Hr. rewrite Hold by lia.
        apply line_ptr_insert_other; lia.
    + apply Z.ltb_ge in E. exists buf, stream.
      split; [reflexivity|]. split; [lia|].
      split.
      { replace (Z.to_nat (Z.max 0 (MAX_LINES - line_count buf) + 1))
          with 1%nat by lia. reflexivity. }
      split; [reflexivity|].
      split; [reflexivity|]. split; [|reflexivity].
      intros j r Hj Hlt. lia.
Qed.

Lemma read_lines_holds stream path l old :
  MAX_LINES <= Z.of_nat (length (lines old)) ->
  exists b,
    read_lines stream
      {| lines := lines old; line_count := 0; filepath := path;
         http_request := []; lang := l; scroll_offset := 0; is_active := 1;
         is_http_buffer := 0 |}
    = Some (b, drop (Z.to_nat (MAX_LINES + 1)) stream)
    /\ holds_stream stream path l old b.
Proof.
  intros Hlen.
  match goal with
  | |- context [read_lines stream ?buf1] => set (buf0 := buf1)
  end.
  destruct (read_lines_spec stream buf0)
    as (b & rest & Hb & Hcnt & Hrest & Hl & Hf & Hnew & Hold).
  { unfold buf0. cbn [line_count]. lia. }
  { exact Hlen. }
  unfold buf0 in Hcnt, Hrest, Hl, Hf, Hnew, Hold.
  cbn [line_count lines filepath http_request lang scroll_offset is_active
       is_http_buffer] in Hcnt, Hrest, Hl, Hf, Hnew, Hold.
  injection Hf as Hf1 Hf2 Hf3 Hf4 Hf5 Hf6.
  exists b. split.
  { rewrite Hb, Hrest. repeat f_equal. }
  unfold holds_stream.
  split; [rewrite Hcnt; unfold MAX_LINES; lia|].
  split; [exact Hf4|]. split; [exact Hf5|]. split; [exact Hf6|].
  split; [exact Hf1|]. split; [exact Hf3|]. split; [exact Hl|]. split.
  - intros j raw Hj Hlt.
    destruct (clean_chunk_spec raw) as (s & Hs & H1 & H2 & H3 & _).
    exists s. specialize (Hnew j raw Hj). rewrite Z.add_0_l in Hnew.
    rewrite Hnew by exact Hlt. repeat split; assumption.
  - intros i Hge. apply Hold; lia.
Qed.

(** X14.  [load_command] and [load_stdin], into a buffer whose line array
    has its [MAX_LINES] slots.  When [popen] fails, [load_command] returns
    -1 and leaves the buffer as it was.  Otherwise both take the first
    [MAX_LINES] strings of the stream, store each one cleaned (line ends
    chomped, overstrikes collapsed, escapes stripped, right-trimmed; no
    backspace, no ESC and no blank at the end is left), set the name, the
    language and scroll offset 0, and return 0 when the stream had at least
    one string and -1 when it had none.  [load_stdin] takes one string more
    than it stores off a longer stream: the stream afterwards starts at
    string [MAX_LINES + 1]. *)
Theorem pipe_loaders_spec (buf : Buffer) (label : cstr) (l : Language)
    (stream : list cstr) :
  MAX_LINES <= Z.of_nat (length (lines buf)) ->
  let rc := match stream with [] => -1 | _ :: _ => 0 end in
  load_command buf label None l = Some (-1, buf)
  /\ (exists b,
        load_command buf label (Some stream) l = Some (rc, b)
        /\ holds_stream stream (take 1023 label) l buf b)
  /\ (exists b,
        load_stdin buf stream
        = Some (rc, b, drop (Z.to_nat (MAX_LINES + 1)) stream)
        /\ holds_stream stream (cs "<stdin>") LANG_NONE buf b).
Proof.
  intros Hlen rc. split; [reflexivity|].
  assert (Hrc : forall path l' b,
            holds_stream stream path l' buf b ->
            (if line_count b >? 0 then 0 else -1) = rc).
  { intros path l' b (Hn & _). rewrite Hn. unfold rc.
    destruct stream; [reflexivity|]. cbn [length].
    rewrite Z.gtb_ltb.
    replace (0 <? _) with true; [reflexivity|].
    symmetry. apply Z.ltb_lt. unfold MAX_LINES. lia. }
  split.
  - destruct (read_lines_holds stream (take 1023 label) l buf Hlen)
      as (b & Hb & Hh).
    exists b. split; [|exact Hh].
    unfold load_command. rewrite Hb. now rewrite (Hrc _ _ _ Hh).
  - destruct (read_lines_holds stream (cs "<stdin>") LANG_NONE buf Hlen)
      as (b & Hb & Hh).
    exists b. split; [|exact Hh].
    unfold load_stdin.
    change (take 1023 (cs "<stdin>")) with (cs "<stdin>").
    rewrite Hb. now rewrite (Hrc _ _ _ Hh).
Qed.

Lemma pipe_loaders_spec_witness :
  exists b,
    load_stdin zero_buffer [cs "one" ++ [CR; NEWLINE]; cs "two" ++ [NEWLINE]]
    = Some (0, b, [])
    /\ line_count b = 2.
Proof.
  destruct (proj2 (proj2 (pipe_loaders_spec zero_buffer [] LANG_NONE
                     [cs "one" ++ [CR; NEWLINE]; cs "two" ++ [NEWLINE]]
                     ltac:(vm_compute; discriminate))))
    as (b & Hb & Hn & _).
  exists b. split; [exact Hb|]. rewrite Hn. reflexivity.
Defined.

Lemma cut_at_newline_app body rest :
  ~ In NEWLINE body -> cut_at_newline (body ++ NEWLINE :: rest) = body.
Proof.
  induction body as [|c body IH]; intros H; simpl.
  - reflexivity.
  - destruct (Ascii.eqb c NEWLINE) eqn:E.
    + apply Ascii.eqb_eq in E. exfalso. apply H. now left.
    + f_equal. apply IH. intros Hin. apply H. now right.
Qed.

Lemma cut_at_newline_none body :
  ~ In NEWLINE body -> cut_at_newline body = body.
Proof.
  induction body as [|c body IH]; intros H; simpl.
  - reflexivity.
  - destruct (Ascii.eqb c NEWLINE) eqn:E.
    + apply Ascii.eqb_eq in E. exfalso. apply H. now left.
    + f_equal. apply IH. intros Hin. apply H. now right.
Qed.

Lemma last_In (A : Type) (l : list A) (c : A) : last l = Some c -> In c l.
Proof.
  destruct l as [|x l] using rev_ind; [discriminate|].
  rewrite last_snoc. intros [= ->]. apply in_or_app. right. now left.
Qed.

(** X15.  Line ends.  For a line [body] without newline and carriage
    return, the file loader and the pipe loaders store the same string
    whether the line comes with its newline or (at the end of the input)
    without, and the pipe loaders store that string for a CR LF line end
    too; the file loader cuts at the newline only, so that (on a line
    without escapes) it keeps the carriage return of a CR LF line end at the
    end of the stored line. *)
Theorem line_end_handling (body : cstr) :
  ~ In NEWLINE body -> ~ In CR body ->
  clean_line (body ++ [NEWLINE]) = clean_line body
  /\ clean_chunk (body ++ [NEWLINE]) = clean_line body
  /\ clean_chunk body = clean_line body
  /\ clean_chunk (body ++ [CR; NEWLINE]) = clean_line body
  /\ (~ In ESC body ->
      clean_line (body ++ [CR; NEWLINE]) = Some (strip_overstrikes body ++ [CR])).
Proof.
  intros Hnl Hcr.
  assert (Hlast : forall c, last body = Some c -> ~ line_end c).
  { intros c H [->| ->]; apply last_In in H; tauto. }
  assert (Hchomp : forall tail, Forall line_end tail ->
            clean_chunk (body ++ tail) = clean_line body).
  { intros tail Ht. unfold clean_chunk, clean_line.
    rewrite (chomp_unique body tail Hlast Ht).
    now rewrite cut_at_newline_none. }
  split.
  { unfold clean_line. now rewrite cut_at_newline_app, cut_at_newline_none. }
  split.
  { apply Hchomp. repeat constructor. }
  split.
  { rewrite <- (app_nil_r body) at 1. apply Hchomp. constructor. }
  split.
  { apply Hchomp. repeat constructor; now right. }
  intros Hesc. unfold clean_line.
  replace (body ++ [CR; NEWLINE]) with ((body ++ [CR]) ++ NEWLINE :: [])
    by now rewrite <- app_assoc.
  rewrite cut_at_newline_app.
  2:{ intros H. apply in_app_or in H as [H|[H|[]]]; [tauto|discriminate]. }
  unfold strip_overstrikes at 1. rewrite strip_overstrikes_loop_app.
  fold (strip_overstrikes body). cbn [strip_overstrikes_loop].
  change (Ascii.eqb CR BS) with false. cbv iota.
  set (t := strip_overstrikes body ++ [CR]).
  assert (Ht : ~ In ESC t).
  { unfold t. intros H. apply in_app_or in H as [H|[H|[]]]; [|discriminate].
    unfold strip_overstrikes in H.
    apply strip_overstrikes_loop_In in H as [H|[]]. tauto. }
  unfold strip_ansi.
  rewrite (strip_ansi_loop_no_esc (length t) t [] Ht (Nat.le_refl _)).
  cbn [app fmap option_fmap option_map]. f_equal.
  unfold rtrim, t. rewrite length_app. cbn [length].
  replace (length (strip_overstrikes body) + 1)%nat
    with (Datatypes.S (length (strip_overstrikes body))) by lia.
  cbn [rtrim_loop]. rewrite List.last_last.
  change (Ascii.eqb CR SPACE) with false. change (Ascii.eqb CR TAB) with false.
  cbn [orb]. now rewrite andb_false_r.
Qed.

Lemma line_end_handling_witness :
  clean_line (cs "text" ++ [CR; NEWLINE]) = Some (cs "text" ++ [CR])
  /\ clean_chunk (cs "text" ++ [CR; NEWLINE]) = clean_line (cs "text").
Proof.
  assert (H1 : ~ In NEWLINE (cs "text")) by (vm_compute; intuition discriminate).
  assert (H2 : ~ In CR (cs "text")) by (vm_compute; intuition discriminate).
  assert (H3 : ~ In ESC (cs "text")) by (vm_compute; intuition discriminate).
  destruct (line_end_handling (cs "text") H1 H2) as (_ & _ & _ & Ha & Hb).
  split; [exact (Hb H3)|exact Ha].
Defined.

(** ** Start-up *)












(** ** HTTP requests *)

Lemma free_buffer_length (b : Buffer) :
  length (lines (free_buffer b).2) = length (lines b).
Proof.
  unfold free_buffer.
  set (body := fun (i : Z) '(evs, ls) =>
                 (evs ++ [Free (line_ptr ls i)], <[Z.to_nat i := None]> ls)).
  assert (H : length (for_loop 0 (line_count b) body ([], lines b)).2
              = length (lines b)).
  { apply (for_loop_inv (fun r : list event * list (option cstr) =>
                           length r.2 = length (lines b))).
    - reflexivity.
    - intros i [evs ls] H. cbn [body snd] in *. now rewrite length_insert. }
  destruct (for_loop 0 (line_count b) body ([], lines b)) as [evs ls].
  exact H.
Qed.

(** The free loop of [load_http_response] is the one of [free_buffer]. *)
Lemma load_http_response_unfold popen buf request_input :
  load_http_response popen buf request_input
  = let buf0 :=
      {| lines := lines (free_buffer buf).2; line_count := 0;
         filepath := take 1023 (http_label request_input);
         http_request := take 511 request_input;
         lang := LANG_NONE; scroll_offset := 0;
         is_active := 1; is_http_buffer := 1 |} in
    match popen (http_command request_input) with
    | None => Some ((free_buffer buf).1, -1, buf0)
    | Some stream =>
        match read_lines stream buf0 with
        | None => None
        | Some (b, _) =>
            Some ((free_buffer buf).1, if line_count b >? 0 then 0 else -1, b)
        end
    end.
Proof.
  unfold load_http_response, free_buffer.
  destruct (for_loop _ _ _ _) as [evs ls]. reflexivity.
Qed.

Lemma load_http_response_spec popen buf request_input :
  Z.of_nat (length (lines buf)) = MAX_LINES ->
  exists rc b,
    load_http_response popen buf request_input
    = Some ((free_buffer buf).1, rc, b)
    /\ length (lines b) = length (lines buf)
    /\ scroll_offset b = 0
    /\ 0 <= line_count b <= MAX_LINES
    /\ is_http_buffer b = 1
    /\ http_request b = take 511 request_input
    /\ (rc = 0 -> 0 < line_count b /\ loaded_buffer b)
    /\ (rc <> 0 -> line_count b = 0).
Proof.
  intros Hlen. rewrite load_http_response_unfold. cbv zeta.
  set (buf0 := {| lines := lines (free_buffer buf).2; line_count := 0;
                  filepath := take 1023 (http_label request_input);
                  http_request := take 511 request_input;
                  lang := LANG_NONE; scroll_offset := 0;
                  is_active := 1; is_http_buffer := 1 |}).
  assert (Hl0 : length (lines buf0) = length (lines buf))
    by apply free_buffer_length.
  destruct (popen (http_command request_input)) as [stream|].
  2:{ exists (-1), buf0. split; [reflexivity|]. split; [exact Hl0|].
      split; [reflexivity|]. split; [cbn; unfold MAX_LINES; lia|].
      split; [reflexivity|]. split; [reflexivity|].
      split; [lia|reflexivity]. }
  destruct (read_lines_spec stream buf0)
    as (b & rest & Hb & Hcnt & _ & Hl & Hf & Hnew & _).
  { cbn. lia. }
  { rewrite Hl0. lia. }
  change (line_count buf0) with 0 in Hcnt, Hnew.
  change (filepath buf0, http_request buf0, lang buf0, scroll_offset buf0,
          is_active buf0, is_http_buffer buf0)
    with (take 1023 (http_label request_input), take 511 request_input,
          LANG_NONE, 0, 1, 1) in Hf.
  injection Hf as Hf1 Hf2 Hf3 Hf4 Hf5 Hf6.
  rewrite Hb. eexists _, b. split; [reflexivity|].
  split; [now rewrite Hl, Hl0|]. split; [exact Hf4|].
  split; [unfold MAX_LINES in *; lia|]. split; [exact Hf6|].
  split; [exact Hf2|].
  destruct (line_count b >? 0) eqn:E; rewrite Z.gtb_ltb in E.
  - apply Z.ltb_lt in E. split; [|intros H; contradiction].
    intros _. split; [exact E|]. split; [exact Hf4|]. split; [exact Hf5|].
    split; [unfold MAX_LINES in *; lia|].
    intros i Hi.
    assert (Hj : (Z.to_nat i < length stream)%nat)
      by (unfold MAX_LINES in *; lia).
    destruct (lookup_lt_is_Some_2 stream _ Hj) as [raw Hraw].
    specialize (Hnew _ raw Hraw). rewrite Z.add_0_l, Z2Nat.id in Hnew by lia.
    rewrite Hnew by (unfold MAX_LINES in *; lia).
    destruct (clean_chunk_spec raw) as (s & Hs & _). rewrite Hs. discriminate.
  - apply Z.ltb_ge in E. split; [discriminate|]. intros _. lia.
Qed.



(** What [prompt_http_request] does once a request has been entered and a
    slot is free. *)
Lemma prompt_http_request_run max_y max_x typed popen st :
  full_size st -> 0 <= buffer_count st < MAX_BUFFERS ->
  http_input typed <> [] ->
  let n := buffer_count st in
  exists evs rc b,
    prompt_http_request max_y max_x typed popen st
    = Some (evs,
            if rc =? 0
            then set_buffer_count (n + 1)
                   (set_current_buffer n (store_buffer n b st))
            else store_buffer n b st)
    /\ (forall e, In e (free_buffer (buffer_at st n)).1 -> In e evs)
    /\ length (lines b) = length (lines (buffer_at st n))
    /\ scroll_offset b = 0
    /\ 0 <= line_count b <= MAX_LINES
    /\ is_http_buffer b = 1
    /\ http_request b = take 511 (http_input typed)
    /\ (rc = 0 -> 0 < line_count b /\ loaded_buffer b).
Proof.
  intros Hf Hn Hin n. unfold prompt_http_request. cbv zeta.
  destruct (http_input typed) as [|c input] eqn:Ei; [congruence|].
  fold n. replace (n <? MAX_BUFFERS) with true
    by (symmetry; apply Z.ltb_lt; unfold n; lia).
  destruct (load_http_response_spec popen (buffer_at st n) (c :: input))
    as (rc & b & Hb & Hl & Hs & Hc & Hh & Hr & Hok & _); [apply Hf|].
  rewrite Hb.
  change (buffer_count (store_buffer n b st)) with n.
  destruct (rc =? 0) eqn:E.
  - eexists _, rc, b. rewrite E. split; [reflexivity|].
    split; [intros e He; apply in_or_app; now right|].
    repeat (split; [assumption|]). exact Hok.
  - eexists _, rc, b. rewrite E. split; [reflexivity|].
    split; [intros e He; apply in_or_app; right; apply in_or_app; now left|].
    repeat (split; [assumption|]). exact Hok.
Qed.



Lemma sample_full_size (st : ViewerState) :
  Z.of_nat (length (buffers st)) = MAX_BUFFERS ->
  forallb (fun b => Z.of_nat (length (lines b)) =? MAX_LINES) (buffers st) = true ->
  full_size st.
Proof.
  intros Hn H. split; [exact Hn|]. intros i. unfold buffer_at.
  destruct (buffers st !! Z.to_nat i) as [b|] eqn:E; cbn [default].
  - rewrite forallb_forall in H. apply Z.eqb_eq, H.
    apply list_elem_of_In. eapply list_elem_of_lookup_2. exact E.
  - unfold zero_buffer. cbn [lines]. rewrite length_replicate.
    unfold MAX_LINES. lia.
Qed.


Lemma three_buffers_full_size : full_size three_buffers.
Proof. apply sample_full_size; vm_compute; reflexivity. Qed.



(** Every slot after [close_current_buffer]. *)
Lemma close_current_buffer_slots (max_y max_x : Z) (st : ViewerState) :
  let cur := current_buffer st in
  let n := buffer_count st in
  1 < n <= Z.of_nat (length (buffers st)) ->
  0 <= cur < n ->
  let st' := (close_current_buffer max_y max_x st).2 in
  forall i, 0 <= i ->
    buffer_at st' i
    = if i <? cur then buffer_at st i
      else if i <? n - 1 then buffer_at st (i + 1)
      else if (i =? n - 1) && (cur =? n - 1)
           then (free_buffer (buffer_at st cur)).2
           else buffer_at st i.
Proof.
  intros cur n Hn Hcur st'. subst st'.
  rewrite (close_current_buffer_unfold max_y max_x st) by (fold n; lia).
  cbv zeta. fold cur. fold n. cbn [snd].
  set (st1 := store_buffer cur (free_buffer (buffer_at st cur)).2 st).
  pose proof (shift_down_spec st1 cur (n - 1)) as H. cbv zeta in H.
  set (st2 := for_loop cur (n - 1)
                (fun i s => store_buffer i (buffer_at s (i + 1)) s) st1) in *.
  assert (Hlen1 : length (buffers st1) = length (buffers st))
    by apply store_buffer_length.
  destruct H as (_ & _ & _ & Hsame & Hshift); [lia|lia|].
  set (st3 := set_buffer_count (buffer_count st2 - 1) st2).
  assert (Hfinal : forall i,
            buffer_at (if current_buffer st3 >=? buffer_count st3
                       then set_current_buffer (buffer_count st3 - 1) st3
                       else st3) i
            = buffer_at st2 i).
  { intros i. destruct (_ >=? _); reflexivity. }
  intros i Hi. rewrite Hfinal.
  destruct (i <? cur) eqn:E1; [apply Z.ltb_lt in E1|apply Z.ltb_ge in E1].
  { rewrite Hsame by lia. unfold st1. apply buffer_at_store_other. lia. }
  destruct (i <? n - 1) eqn:E2; [apply Z.ltb_lt in E2|apply Z.ltb_ge in E2].
  { rewrite Hshift by lia. unfold st1. apply buffer_at_store_other. lia. }
  rewrite Hsame by lia. unfold st1.
  destruct ((i =? n - 1) && (cur =? n - 1)) eqn:E3.
  - apply andb_true_iff in E3 as [E3 E4].
    apply Z.eqb_eq in E3, E4. subst i. rewrite <- E4.
    apply buffer_at_store_in. lia.
  - apply buffer_at_store_other.
    apply andb_false_iff in E3 as [E3|E3]; apply Z.eqb_neq in E3; lia.
Qed.

(** X18.  A request after a close.  Take a store with its arrays at full
    size and close a buffer that is not the last one; then enter a request
    at the HTTP prompt.  [load_http_response] is handed the slot just past
    the buffers in use, which is still the copy of the last buffer that the
    close left there, and its first loop calls [free] on every line pointer
    of that slot: these are the pointers the last buffer in use holds, and it
    goes on holding them afterwards. *)
Theorem http_request_after_close_frees_lines_in_use (max_y max_x : Z)
    (typed : cstr) (popen : cstr -> option (list cstr)) (st : ViewerState) :
  let cur := current_buffer st in
  let n := buffer_count st in
  full_size st ->
  1 < n <= MAX_BUFFERS ->
  0 <= cur < n - 1 ->
  http_input typed <> [] ->
  let st1 := (close_current_buffer max_y max_x st).2 in
  exists evs st2,
    prompt_http_request max_y max_x typed popen st1 = Some (evs, st2)
    /\ n - 2 < buffer_count st2
    /\ buffer_at st2 (n - 2) = buffer_at st (n - 1)
    /\ forall i, 0 <= i < line_count (buffer_at st (n - 1)) ->
         In (Free (line_ptr (lines (buffer_at st2 (n - 2))) i)) evs.
Proof.
  intros cur n Hf Hn Hcur Hin st1. pose proof Hf as [Hlen Hlines].
  destruct (close_current_buffer_effect max_y max_x st)
    as ((_ & Hcnt & _ & _ & _ & _) & Hlen1); [fold n; lia|fold cur n; lia|].
  cbv zeta in Hcnt, Hlen1. fold n st1 in Hcnt, Hlen1.
  pose proof (close_current_buffer_slots max_y max_x st) as Hslots.
  cbv zeta in Hslots. fold cur n st1 in Hslots.
  specialize (Hslots ltac:(lia) ltac:(lia)).
  assert (Hlast : buffer_at st1 (n - 1) = buffer_at st (n - 1)).
  { rewrite Hslots by lia.
    replace (n - 1 <? cur) with false by (symmetry; apply Z.ltb_ge; lia).
    rewrite Z.ltb_irrefl.
    replace (cur =? n - 1) with false by (symmetry; apply Z.eqb_neq; lia).
    now rewrite andb_false_r. }
  assert (Hprev : buffer_at st1 (n - 2) = buffer_at st (n - 1)).
  { rewrite Hslots by lia.
    replace (n - 2 <? cur) with false by (symmetry; apply Z.ltb_ge; lia).
    replace (n - 2 <? n - 1) with true by (symmetry; apply Z.ltb_lt; lia).
    f_equal. lia. }
  assert (Hf1 : full_size st1).
  { split; [now rewrite Hlen1|]. intros i.
    assert (E : buffer_at st1 i = buffer_at st1 (Z.max 0 i)).
    { unfold buffer_at. f_equal. f_equal. lia. }
    rewrite E, Hslots by lia.
    destruct (_ <? cur); [apply Hlines|].
    destruct (_ <? n - 1); [apply Hlines|].
    destruct (_ && _); [|apply Hlines].
    rewrite free_buffer_length. apply Hlines. }
  destruct (prompt_http_request_run max_y max_x typed popen st1 Hf1
              ltac:(lia) Hin)
    as (evs & rc & b & Hrun & Hfree & _).
  cbv zeta in Hrun. rewrite Hcnt in Hrun, Hfree.
  assert (Hat : forall s, buffer_at s = buffer_at (store_buffer (n - 1) b st1) ->
            buffer_at s (n - 2) = buffer_at st (n - 1)).
  { intros s ->. rewrite buffer_at_store_other by lia. exact Hprev. }
  eexists evs, _. split; [exact Hrun|].
  split; [destruct (rc =? 0); cbn [buffer_count set_buffer_count];
          [lia|change (buffer_count (store_buffer ?k ?x ?s))
                 with (buffer_count s); lia]|].
  assert (Hkeep : buffer_at
                    (if rc =? 0
                     then set_buffer_count (n - 1 + 1)
                            (set_current_buffer (n - 1)
                               (store_buffer (n - 1) b st1))
                     else store_buffer (n - 1) b st1) (n - 2)
                  = buffer_at st (n - 1)).
  { destruct (rc =? 0); apply Hat; reflexivity. }
  split; [exact Hkeep|].
  intros i Hi. rewrite Hkeep. apply Hfree. rewrite Hlast.
  rewrite (proj1 (free_buffer_spec (buffer_at st (n - 1)))).
  apply in_map_iff. exists (Z.to_nat i). split.
  - now rewrite Z2Nat.id by lia.
  - apply in_seq. lia.
Qed.

Lemma http_request_after_close_frees_lines_in_use_witness :
  exists evs st2,
    prompt_http_request 24 80 (cs "GET example.org") (fun _ => None)
      (close_current_buffer 24 80 three_buffers).2 = Some (evs, st2)
    /\ In (Free (line_ptr (lines (buffer_at st2 1)) 0)) evs.
Proof.
  destruct (http_request_after_close_frees_lines_in_use 24 80
              (cs "GET example.org") (fun _ => None) three_buffers
              three_buffers_full_size
              ltac:(vm_compute; split; [reflexivity|discriminate])
              ltac:(vm_compute; split; [discriminate|reflexivity])
              ltac:(vm_compute; discriminate))
    as (evs & st2 & H & _ & _ & Hfree).
  exists evs, st2. split; [exact H|].
  change 1 with (buffer_count three_buffers - 2).
  apply Hfree. vm_compute. split; [discriminate|reflexivity].
Defined.

(** ** Going to the next match and back *)

Lemma line_text_reads (b1 b2 : Buffer) i :
  lines b1 = lines b2 -> line_text b1 i = line_text b2 i.
Proof. unfold line_text. now intros ->. Qed.

Lemma search_buffer_loop_reads (b1 b2 : Buffer) term dir : forall m line,
  lines b1 = lines b2 -> line_count b1 = line_count b2 ->
  search_buffer_loop m b1 term line dir = search_buffer_loop m b2 term line dir.
Proof.
  induction m as [|m IH]; intros line Hl Hn; [reflexivity|].
  cbn [search_buffer_loop]. cbv zeta. rewrite Hn.
  rewrite (line_text_reads b1 b2 _ Hl). now rewrite IH.
Qed.

Lemma search_buffer_nonempty (st : ViewerState) term line dir :
  term <> [] ->
  search_buffer st term line dir
  = search_buffer_loop
      (Z.to_nat (line_count (buffer_at st (current_buffer st))))
      (buffer_at st (current_buffer st)) term line dir.
Proof. unfold search_buffer. destruct term; [congruence|reflexivity]. Qed.

(** From a matching line, the search in one direction and then back from
    the line it finds ends on the line one started from. *)
Lemma search_there_and_back (buf : Buffer) (term : cstr) (s dir : Z) :
  let n := line_count buf in
  dir = 1 \/ dir = -1 ->
  0 <= s < n ->
  contains_substr (line_text buf s) term = true ->
  let r := search_buffer_loop (Z.to_nat n) buf term (s + dir) dir in
  0 <= r < n
  /\ search_buffer_loop (Z.to_nat n) buf term (r - dir) (- dir) = s.
Proof.
  intros n Hdir Hs Hmatch r. subst r.
  assert (Hn : 0 < n) by lia.
  assert (Hmod : forall a b, ((a mod n) + b) mod n = (a + b) mod n)
    by (intros; apply Zplus_mod_idemp_l).
  assert (Hback : forall a, (s + dir * n + a) mod n = (s + a) mod n).
  { intros a. replace (s + dir * n + a) with (s + a + dir * n) by lia.
    apply Z_mod_plus_full. }
  pose proof (search_buffer_loop_spec buf term dir Hn Hdir (Z.to_nat n) (s + dir))
    as H1.
  cbv zeta in H1. fold n in H1. rewrite Z2Nat.id in H1 by lia.
  rewrite (first_probe_step n s dir Hn Hs Hdir) in H1.
  destruct H1 as [[_ Hnone]|(k & Hk & Hr & Hm & Hbefore)].
  { exfalso. specialize (Hnone (n - 1) ltac:(lia)).
    rewrite Hmod in Hnone.
    replace (s + dir + dir * (n - 1)) with (s + dir * n + 0) in Hnone by lia.
    rewrite Hback, Z.add_0_r, Z.mod_small in Hnone by lia. congruence. }
  set (r := search_buffer_loop (Z.to_nat n) buf term (s + dir) dir) in *.
  clearbody r.
  assert (Hrn : 0 <= r < n) by (rewrite Hr; apply Z.mod_pos_bound; lia).
  split; [exact Hrn|].
  assert (Hdir' : - dir = 1 \/ - dir = -1) by lia.
  pose proof (search_buffer_loop_spec buf term (- dir) Hn Hdir' (Z.to_nat n)
                (r - dir)) as H2.
  cbv zeta in H2. fold n in H2. rewrite Z2Nat.id in H2 by lia.
  replace (r - dir) with (r + - dir) in H2 by lia.
  rewrite (first_probe_step n r (- dir) Hn Hrn Hdir') in H2.
  replace (r - dir) with (r + - dir) by lia.
  assert (Hprobe : forall j,
            ((r + - dir) mod n + - dir * j) mod n = (s + dir * (k - j)) mod n).
  { intros j. rewrite Hmod. rewrite Hr.
    rewrite <- Z.add_assoc, Hmod.
    rewrite <- Z.add_assoc, Hmod. f_equal. lia. }
  destruct H2 as [[_ Hnone]|(k' & Hk' & Hr' & Hm' & Hbefore')].
  { exfalso. specialize (Hnone k Hk). rewrite Hprobe in Hnone.
    replace (s + dir * (k - k)) with s in Hnone by lia.
    rewrite Z.mod_small in Hnone by lia. congruence. }
  rewrite Hr'. rewrite Hprobe.
  destruct (Z.lt_trichotomy k' k) as [Hlt|[->|Hgt]].
  - exfalso. rewrite Hr', Hprobe in Hm'.
    specialize (Hbefore (k - k' - 1) ltac:(lia)).
    rewrite Hmod in Hbefore.
    replace (s + dir + dir * (k - k' - 1)) with (s + dir * (k - k')) in Hbefore
      by lia.
    congruence.
  - replace (s + dir * (k - k)) with s by lia. apply Z.mod_small. lia.
  - exfalso. specialize (Hbefore' k ltac:(lia)). rewrite Hprobe in Hbefore'.
    replace (s + dir * (k - k)) with s in Hbefore' by lia.
    rewrite Z.mod_small in Hbefore' by lia. congruence.
Qed.

Lemma jump_to_match_spec (st : ViewerState) (r : Z) :
  0 < line_count (buffer_at st (current_buffer st)) ->
  search_term (jump_to_match r st) = search_term st
  /\ current_buffer (jump_to_match r st) = current_buffer st
  /\ buffer_at (jump_to_match r st) (current_buffer st)
     = set_scroll_offset r (buffer_at st (current_buffer st))
  /\ (Z.to_nat (current_buffer st) < length (buffers st))%nat.
Proof.
  intros Hn.
  assert (Hin : (Z.to_nat (current_buffer st) < length (buffers st))%nat).
  { destruct (Nat.lt_ge_cases (Z.to_nat (current_buffer st))
                (length (buffers st))) as [H|H]; [exact H|].
    exfalso. unfold buffer_at in Hn.
    rewrite lookup_ge_None_2 in Hn by exact H. simpl in Hn. lia. }
  split; [reflexivity|]. split; [reflexivity|]. split; [|exact Hin].
  unfold jump_to_match. cbv zeta.
  change (buffer_at (set_current_match ?c ?x) ?i) with (buffer_at x i).
  now apply buffer_at_store_in.
Qed.

(** Jumping away and back to the line of the view leaves the state as it
    was, up to [current_match]. *)
Lemma jump_to_match_back (st : ViewerState) (r : Z) :
  let buf := buffer_at st (current_buffer st) in
  0 < line_count buf ->
  jump_to_match (scroll_offset buf) (jump_to_match r st)
  = set_current_match
      (count_matching_lines buf (search_term st) (scroll_offset buf)) st.
Proof.
  intros buf Hn.
  destruct (jump_to_match_spec st r Hn) as (Ht & Hc & Hb & Hin).
  fold buf in Hb.
  unfold jump_to_match at 1. cbv zeta. rewrite Ht, Hc, Hb.
  assert (Hbufs : buffers (jump_to_match r st)
                  = <[Z.to_nat (current_buffer st) := set_scroll_offset r buf]>
                      (buffers st)) by reflexivity.
  assert (Eb : set_scroll_offset (scroll_offset buf) (set_scroll_offset r buf)
               = buf) by (destruct buf; reflexivity).
  rewrite Eb.
  assert (Est : store_buffer (current_buffer st) buf (jump_to_match r st)
                = set_current_match (current_match (jump_to_match r st)) st).
  { unfold store_buffer. rewrite Hbufs, list_insert_insert_eq.
    assert (El : <[Z.to_nat (current_buffer st) := buf]> (buffers st)
                 = buffers st).
    { apply list_insert_id. unfold buf, buffer_at.
      destruct (buffers st !! Z.to_nat (current_buffer st)) eqn:E';
        [reflexivity|].
      apply lookup_ge_None_1 in E'. lia. }
    rewrite El. destruct st; reflexivity. }
  rewrite Est.
  change (buffer_at (set_current_match ?c st) ?i) with (buffer_at st i).
  fold buf. destruct st; reflexivity.
Qed.

Lemma search_buffer_after_jump (st : ViewerState) (r line dir : Z) :
  0 < line_count (buffer_at st (current_buffer st)) ->
  search_buffer (jump_to_match r st) (search_term st) line dir
  = search_buffer st (search_term st) line dir.
Proof.
  intros Hn. destruct (jump_to_match_spec st r Hn) as (_ & Hc & Hb & _).
  unfold search_buffer. rewrite Hc, Hb.
  destruct (search_term st); [reflexivity|].
  change (line_count (set_scroll_offset r ?b)) with (line_count b).
  now apply search_buffer_loop_reads.
Qed.

(** X19.  There and back.  When the view is on a line that holds the search
    term, n followed by N, and N followed by n, end on that line again: the
    state is the one before, with [current_match] set to the number of
    matching lines above the line. *)
Theorem match_round_trip (st : ViewerState) :
  let buf := buffer_at st (current_buffer st) in
  let s := scroll_offset buf in
  search_term st <> [] ->
  0 <= s < line_count buf ->
  contains_substr (line_text buf s) (search_term st) = true ->
  prev_match (next_match st)
  = set_current_match (count_matching_lines buf (search_term st) s) st
  /\ next_match (prev_match st)
     = set_current_match (count_matching_lines buf (search_term st) s) st.
Proof.
  intros buf s Hterm Hs Hmatch.
  assert (Hn : 0 < line_count buf) by lia.
  assert (Hgo : forall dir, dir = 1 \/ dir = -1 ->
            let r := search_buffer st (search_term st) (s + dir) dir in
            0 <= r
            /\ search_buffer (jump_to_match r st) (search_term st)
                 (r - dir) (- dir) = s).
  { intros dir Hdir r.
    destruct (search_there_and_back buf (search_term st) s dir Hdir Hs Hmatch)
      as [Hr Hb].
    cbv zeta in Hr, Hb.
    assert (Er : r = search_buffer_loop (Z.to_nat (line_count buf)) buf
                       (search_term st) (s + dir) dir)
      by (unfold r; now rewrite search_buffer_nonempty).
    rewrite <- Er in Hr, Hb. split; [lia|].
    rewrite search_buffer_after_jump by exact Hn.
    now rewrite search_buffer_nonempty. }
  split.
  - destruct (Hgo 1 ltac:(auto)) as (Hr & Hb). cbv zeta in Hr, Hb.
    set (r := search_buffer st (search_term st) (s + 1) 1) in *.
    assert (E1 : next_match st = jump_to_match r st)
      by exact (next_match_found st Hr).
    rewrite E1.
    destruct (jump_to_match_spec st r Hn) as (Ht & Hc & Hbuf & _).
    assert (Hso : scroll_offset (buffer_at (jump_to_match r st)
                                   (current_buffer (jump_to_match r st))) = r)
      by (rewrite Hc, Hbuf; reflexivity).
    assert (Hf : search_buffer (jump_to_match r st)
                   (search_term (jump_to_match r st))
                   (scroll_offset (buffer_at (jump_to_match r st)
                                     (current_buffer (jump_to_match r st))) - 1)
                   (-1) = s)
      by (rewrite Ht, Hso; exact Hb).
    assert (E2 : prev_match (jump_to_match r st)
                 = jump_to_match s (jump_to_match r st)).
    { pose proof (prev_match_found (jump_to_match r st)) as P.
      cbv zeta in P. rewrite Hf in P. exact (P ltac:(lia)). }
    rewrite E2. apply (jump_to_match_back st r Hn).
  - destruct (Hgo (-1) ltac:(auto)) as (Hr & Hb). cbv zeta in Hr, Hb.
    change (s + -1) with (s - 1) in Hr, Hb.
    set (r := search_buffer st (search_term st) (s - 1) (-1)) in *.
    change (- -1) with 1 in Hb.
    replace (r - -1) with (r + 1) in Hb by lia.
    assert (E1 : prev_match st = jump_to_match r st)
      by exact (prev_match_found st Hr).
    rewrite E1.
    destruct (jump_to_match_spec st r Hn) as (Ht & Hc & Hbuf & _).
    assert (Hso : scroll_offset (buffer_at (jump_to_match r st)
                                   (current_buffer (jump_to_match r st))) = r)
      by (rewrite Hc, Hbuf; reflexivity).
    assert (Hf : search_buffer (jump_to_match r st)
                   (search_term (jump_to_match r st))
                   (scroll_offset (buffer_at (jump_to_match r st)
                                     (current_buffer (jump_to_match r st))) + 1)
                   1 = s)
      by (rewrite Ht, Hso; exact Hb).
    assert (E2 : next_match (jump_to_match r st)
                 = jump_to_match s (jump_to_match r st)).
    { pose proof (next_match_found (jump_to_match r st)) as P.
      cbv zeta in P. rewrite Hf in P. exact (P ltac:(lia)). }
    rewrite E2. apply (jump_to_match_back st r Hn).
Qed.

Lemma match_round_trip_witness :
  prev_match (next_match (set_search_term (cs "o") foo_bar_baz))
  = set_current_match 0 (set_search_term (cs "o") foo_bar_baz).
Proof.
  pose proof (match_round_trip (set_search_term (cs "o") foo_bar_baz)) as H.
  cbv zeta in H.
  destruct H as [H _].
  - discriminate.
  - vm_compute. split; [discriminate|reflexivity].
  - vm_compute. reflexivity.
  - etransitivity; [exact H|].
    apply (f_equal (fun c => set_current_match c _)).
    vm_compute. reflexivity.
Defined.

(** ** The clipboard *)




(** ** Highlighting keeps the text *)

Lemma drawn_app evs1 evs2 : drawn (evs1 ++ evs2) = drawn evs1 ++ drawn evs2.
Proof. unfold drawn. now rewrite flat_map_app. Qed.

Lemma attr_run_app a : forall b o,
  attr_run o (a ++ b)
  = match attr_run o a with
    | Some o' => attr_run o' b
    | None => None
    end.
Proof.
  induction a as [|e a IH]; intros b o; [reflexivity|].
  destruct e; cbn [app attr_run]; try apply IH.
  - destruct o; [reflexivity|apply IH].
  - destruct o as [[p' b']|]; [|reflexivity].
    destruct ((pair =? p') && Bool.eqb bold b'); [apply IH|reflexivity].
Qed.

Lemma attr_run_closed a b :
  attr_run None a = Some None -> attr_run None b = Some None ->
  attr_run None (a ++ b) = Some None.
Proof. intros Ha Hb. now rewrite attr_run_app, Ha. Qed.

Lemma attr_run_bracket (p : Z) (bold : bool) evs :
  (forall o, attr_run o evs = Some o) ->
  attr_run None ([Attron p bold] ++ evs ++ [Attroff p bold]) = Some None.
Proof.
  intros H. cbn [app attr_run]. rewrite attr_run_app, H. cbn [attr_run].
  now rewrite Z.eqb_refl, eqb_reflx.
Qed.

Lemma plain_app a b : plain (a ++ b) = plain a && plain b.
Proof. apply forallb_app. Qed.

Lemma plain_bracket (p q : Z) (b c : bool) evs :
  plain evs = true -> plain ([Attron p b] ++ evs ++ [Attroff q c]) = true.
Proof. intros H. now rewrite !plain_app, H. Qed.

Lemma cells_cons y x c s : cells y x (c :: s) = (y, x, c) :: cells y (x + 1) s.
Proof.
  unfold cells. rewrite imap_cons. f_equal; [now rewrite Z.add_0_r|].
  apply imap_ext. intros k a _. unfold compose. f_equal. f_equal. lia.
Qed.

Lemma cells_app y x a b :
  cells y x (a ++ b) = cells y x a ++ cells y (x + Z.of_nat (length a)) b.
Proof.
  revert x. induction a as [|c a IH]; intros x.
  - cbn [app length]. now rewrite Z.add_0_r.
  - cbn [app length]. rewrite !cells_cons, IH. cbn [app].
    replace (x + Z.of_nat (Datatypes.S (length a)))
      with (x + 1 + Z.of_nat (length a)) by lia.
    reflexivity.
Qed.

Lemma take_plus {A : Type} (a b : nat) (l : list A) :
  take (a + b) l = take a l ++ take b (drop a l).
Proof.
  revert l. induction a as [|a IH]; intros l; [reflexivity|].
  destruct l as [|x l]; cbn; [now rewrite take_nil|]. now rewrite IH.
Qed.

Lemma drop_char_at (s : cstr) (k : Z) :
  0 <= k < Z.of_nat (length s) ->
  drop (Z.to_nat k) s = char_at s k :: drop (Z.to_nat (k + 1)) s.
Proof.
  intros Hk. replace (Z.to_nat (k + 1)) with (Datatypes.S (Z.to_nat k)) by lia.
  apply drop_S. unfold char_at.
  destruct (s !! Z.to_nat k) as [c|] eqn:E.
  - now rewrite (nth_lookup_Some _ _ NUL _ E).
  - apply lookup_ge_None_1 in E. lia.
Qed.

Lemma shown_off line y w i x d : w <= x -> shown line y w i x d = [].
Proof.
  intros H. unfold shown. replace (Z.to_nat (Z.min d (w - x))) with 0%nat by lia.
  reflexivity.
Qed.

Lemma shown_none line y w i x d : d <= 0 -> shown line y w i x d = [].
Proof.
  intros H. unfold shown. replace (Z.to_nat (Z.min d (w - x))) with 0%nat by lia.
  reflexivity.
Qed.

Lemma shown_split line y w i x da db :
  0 <= i -> 0 <= da -> 0 <= db ->
  i + da + db <= Z.of_nat (length line) ->
  shown line y w i x da ++ shown line y w (i + da) (x + da) db
  = shown line y w i x (da + db).
Proof.
  intros Hi Ha Hb Hlen. unfold shown.
  destruct (Z_le_gt_dec da (w - x)) as [Hfit|Hcut].
  - replace (Z.to_nat (Z.min (da + db) (w - x)))
      with (Z.to_nat da + Z.to_nat (Z.min db (w - (x + da))))%nat by lia.
    rewrite take_plus, cells_app, drop_drop.
    rewrite length_take, length_drop.
    replace (Z.to_nat (Z.min da (w - x))) with (Z.to_nat da) by lia.
    replace (Z.to_nat i + Z.to_nat da)%nat with (Z.to_nat (i + da)) by lia.
    replace (x + Z.of_nat (Z.to_nat da `min` (length line - Z.to_nat i)))
      with (x + da) by lia.
    reflexivity.
  - replace (Z.to_nat (Z.min db (w - (x + da)))) with 0%nat by lia.
    cbn [take cells imap]. rewrite app_nil_r.
    replace (Z.to_nat (Z.min (da + db) (w - x)))
      with (Z.to_nat (Z.min da (w - x))) by lia.
    reflexivity.
Qed.

Lemma shown_one line y w i x :
  0 <= i < Z.of_nat (length line) -> x < w ->
  shown line y w i x 1 = [(y, x, char_at line i)].
Proof.
  intros Hi Hx. unfold shown.
  replace (Z.to_nat (Z.min 1 (w - x))) with 1%nat by lia.
  rewrite drop_char_at by lia. cbn [take]. now rewrite cells_cons.
Qed.

(** The whole rest of the line. *)
Lemma shown_rest line y w i x :
  0 <= i ->
  shown line y w i x (Z.of_nat (length line) - i)
  = cells y x (take (Z.to_nat (w - x)) (drop (Z.to_nat i) line)).
Proof.
  intros Hi. unfold shown. f_equal.
  destruct (Z_le_gt_dec (w - x) (Z.of_nat (length line) - i)) as [H|H].
  - f_equal. lia.
  - rewrite !take_ge; [reflexivity| |]; rewrite length_drop; lia.
Qed.

Lemma put_chars_spec (s : cstr) (y j w : Z) : forall (n : nat) (x k : Z),
  0 <= k -> j <= Z.of_nat (length s) -> (Z.to_nat (j - k) <= n)%nat ->
  let m := Z.max 0 (Z.min (j - k) (w - x)) in
  exists evs,
    put_chars n y x s k j w = (evs, k + m, x + m)
    /\ drawn evs = shown s y w k x (j - k)
    /\ (forall o, attr_run o evs = Some o)
    /\ plain evs = true.
Proof.
  induction n as [|n IH]; intros x k Hk Hj Hn m.
  - exists []. cbn [put_chars]. subst m.
    replace (Z.max 0 (Z.min (j - k) (w - x))) with 0 by lia.
    rewrite !Z.add_0_r. split; [reflexivity|].
    split; [now rewrite shown_none by lia|split; reflexivity].
  - cbn [put_chars].
    destruct ((k <? j) && (x <? w)) eqn:E.
    + apply andb_true_iff in E as [E1 E2].
      apply Z.ltb_lt in E1, E2.
      destruct (IH (x + 1) (k + 1)) as (evs & He & Hd & Ha & Hp); [lia|lia|lia|].
      rewrite He. eexists. split; [|split; [|split]].
      * f_equal; [f_equal|]; subst m; lia.
      * change (drawn (Mvaddch y x (char_at s k) :: evs))
          with ((y, x, char_at s k) :: drawn evs).
        rewrite Hd.
        replace (j - k) with (1 + (j - (k + 1))) by lia.
        rewrite <- shown_split by lia.
        rewrite shown_one by lia. reflexivity.
      * exact Ha.
      * exact Hp.
    + exists []. split; [|split; [|split; [|reflexivity]]].
      * subst m. apply andb_false_iff in E as [E|E]; apply Z.ltb_ge in E;
          replace (Z.max 0 (Z.min (j - k) (w - x))) with 0 by lia;
          now rewrite !Z.add_0_r.
      * apply andb_false_iff in E as [E|E]; apply Z.ltb_ge in E.
        -- now rewrite shown_none by lia.
        -- now rewrite shown_off by lia.
      * reflexivity.
Qed.

Lemma draw_tok_shown (s : cstr) (y x i j w pair : Z) (bold : bool) :
  0 <= i -> j <= Z.of_nat (length s) ->
  drawn (draw_tok y x s i j w pair bold) = shown s y w i x (j - i)
  /\ attr_run None (draw_tok y x s i j w pair bold) = Some None
  /\ plain (draw_tok y x s i j w pair bold) = true.
Proof.
  intros Hi Hj. unfold draw_tok.
  destruct (x >=? w) eqn:E.
  - rewrite Z.geb_leb in E. apply Z.leb_le in E.
    split; [now rewrite shown_off|split; reflexivity].
  - destruct (put_chars_spec s y j w (Z.to_nat (j - i)) x i Hi Hj (Nat.le_refl _))
      as (evs & He & Hd & Ha & Hp).
    rewrite He. cbn [fst]. split; [|split].
    + rewrite drawn_app, drawn_app, Hd. cbn. now rewrite app_nil_r.
    + now apply attr_run_bracket.
    + now apply plain_bracket.
Qed.

Lemma span_length_bounds P s : 0 <= span_length P s <= Z.of_nat (length s).
Proof.
  induction s as [|c s IH]; cbn [span_length length]; [lia|].
  destruct (P c); lia.
Qed.

Lemma scan_while_bounds P (line : cstr) (i : Z) :
  0 <= i <= Z.of_nat (length line) ->
  i <= scan_while P line i <= Z.of_nat (length line)
  /\ (i < Z.of_nat (length line) -> P (char_at line i) = true ->
      i + 1 <= scan_while P line i).
Proof.
  intros Hi. unfold scan_while.
  pose proof (span_length_bounds P (drop (Z.to_nat i) line)) as H.
  rewrite length_drop in H. split; [lia|].
  intros Hlt HP. rewrite drop_char_at by lia. cbn [span_length]. rewrite HP.
  pose proof (span_length_bounds P (drop (Z.to_nat (i + 1)) line)). lia.
Qed.

Lemma string_loop_spec (line : cstr) (y w : Z) (quote : ascii) :
  forall (n : nat) (i col : Z),
    0 <= i <= Z.of_nat (length line) ->
    exists ms evs,
      string_loop n y line (Z.of_nat (length line)) i col w quote
      = (evs, i + ms, col + ms)
      /\ 0 <= ms <= Z.of_nat (length line) - i
      /\ ms <= Z.max 0 (w - col)
      /\ drawn evs = shown line y w i col ms
      /\ (forall o, attr_run o evs = Some o)
      /\ plain evs = true.
Proof.
  induction n as [|n IH]; intros i col Hi.
  - exists 0, []. cbn [string_loop]. rewrite !Z.add_0_r.
    split; [reflexivity|]. split; [lia|]. split; [lia|].
    split; [now rewrite shown_none by lia|split; reflexivity].
  - cbn [string_loop].
    destruct ((i <? Z.of_nat (length line)) && (col <? w)) eqn:E.
    + apply andb_true_iff in E as [E1 E2]. apply Z.ltb_lt in E1, E2.
      cbv zeta.
      destruct (Ascii.eqb (char_at line i) quote
                && ((i =? 0) || negb (Ascii.eqb (char_at line (i - 1)) BACKSLASH))).
      * exists 1, [Mvaddch y col (char_at line i)].
        split; [reflexivity|]. split; [lia|]. split; [lia|].
        split; [now rewrite shown_one by lia|split; reflexivity].
      * destruct (IH (i + 1) (col + 1))
          as (ms & evs & He & Hm & Hw & Hd & Ha & Hp); [lia|].
        rewrite He. exists (1 + ms), (Mvaddch y col (char_at line i) :: evs).
        split; [f_equal; [f_equal|]; lia|]. split; [lia|]. split; [lia|].
        split; [|split; [exact Ha|exact Hp]].
        change (drawn (Mvaddch y col (char_at line i) :: evs))
          with ((y, col, char_at line i) :: drawn evs).
        rewrite Hd, <- shown_split by lia.
        now rewrite shown_one by lia.
    + exists 0, []. rewrite !Z.add_0_r.
      split; [reflexivity|]. split; [lia|]. split; [lia|].
      split; [now rewrite shown_none by lia|split; reflexivity].
Qed.

Lemma highlight_man_loop_unfold fuel line len y i x line_width :
  highlight_man_loop fuel line len y i x line_width
  = if (i <? len) && (x <? line_width) then
      match fuel with
      | O => None
      | Datatypes.S fuel' =>
          let ch := char_at line i in
          if isspace ch then
            app [Mvaddch y x ch]
              <$> highlight_man_loop fuel' line len y (i + 1) (x + 1) line_width
          else if Ascii.eqb ch "-" then
            let j := scan_while (fun c => negb (isspace c)) line i in
            app (draw_tok y x line i j line_width COLOR_NUMBER true)
              <$> highlight_man_loop fuel' line len y j (x + (j - i)) line_width
          else if isalpha ch || Ascii.eqb ch "_" then
            let j :=
              scan_while
                (fun c => isalnum c || Ascii.eqb c "_" || Ascii.eqb c "-") line i in
            let k := j in
            let kk := scan_while isdigit line (k + 2) in
            if (k + 2 <? len) && Ascii.eqb (char_at line k) "("
               && isdigit (char_at line (k + 1))
               && (kk <? len) && Ascii.eqb (char_at line kk) ")"
            then
              app (draw_tok y x line i j line_width COLOR_FUNCTION true
                     ++ draw_tok y (x + (j - i)) line k (kk + 1) line_width
                          COLOR_TYPE false)
                <$> highlight_man_loop fuel' line len y (kk + 1)
                      (x + (j - i) + (kk + 1 - k)) line_width
            else
              let '(evs, i', x') :=
                put_chars (Z.to_nat (j - i)) y x line i j line_width in
              app evs <$> highlight_man_loop fuel' line len y i' x' line_width
          else
            app [Mvaddch y x ch]
              <$> highlight_man_loop fuel' line len y (i + 1) (x + 1) line_width
      end
    else Some [].
Proof. destruct fuel; reflexivity. Qed.

Lemma highlight_man_loop_spec (line : cstr) (y w : Z) :
  forall (fuel : nat) (i x : Z),
    0 <= i <= Z.of_nat (length line) ->
    (Z.to_nat (Z.of_nat (length line) - i) <= fuel)%nat ->
    exists evs,
      highlight_man_loop fuel line (Z.of_nat (length line)) y i x w = Some evs
      /\ drawn evs = shown line y w i x (Z.of_nat (length line) - i)
      /\ attr_run None evs = Some None
      /\ plain evs = true.
Proof.
  set (len := Z.of_nat (length line)).
  induction fuel as [|fuel IH]; intros i x Hi Hf;
    rewrite highlight_man_loop_unfold;
    destruct ((i <? len) && (x <? w)) eqn:E;
    try (exists []; split; [reflexivity|]; split; [|split; reflexivity];
         apply andb_false_iff in E as [E|E]; apply Z.ltb_ge in E;
         [now rewrite shown_none by lia|now rewrite shown_off by lia]).
  { apply andb_true_iff in E as [E _]. apply Z.ltb_lt in E. lia. }
  apply andb_true_iff in E as [E1 E2]. apply Z.ltb_lt in E1, E2.
  assert (Hstep : forall i' evs1 x',
            i + 1 <= i' <= len ->
            drawn evs1 = shown line y w i x (i' - i) ->
            attr_run None evs1 = Some None ->
            plain evs1 = true ->
            x' = x + (i' - i) \/ (w <= x' /\ w <= x + (i' - i)) ->
            exists evs,
              (app evs1 <$> highlight_man_loop fuel line len y i' x' w)
              = Some evs
              /\ drawn evs = shown line y w i x (len - i)
              /\ attr_run None evs = Some None
              /\ plain evs = true).
  { intros i' evs1 x' Hi' H1 Ha1 Hp1 Hx'.
    destruct (IH i' x') as (evs2 & He & Hd & Ha2 & Hp2); [lia|lia|].
    rewrite He. eexists. split; [reflexivity|].
    split; [|split; [now apply attr_run_closed|now rewrite plain_app, Hp1]].
    rewrite drawn_app, H1, Hd.
    replace (len - i) with ((i' - i) + (len - i')) by lia.
    rewrite <- (shown_split line y w i x (i' - i) (len - i')) by (fold len; lia).
    replace (i + (i' - i)) with i' by lia. f_equal.
    destruct Hx' as [->|[H2 H3]]; [reflexivity|].
    now rewrite !shown_off by lia. }
  assert (Hone : drawn [Mvaddch y x (char_at line i)] = shown line y w i x (i + 1 - i)).
  { replace (i + 1 - i) with 1 by lia. rewrite shown_one by (fold len; lia).
    reflexivity. }
  cbv zeta.
  destruct (isspace (char_at line i)) eqn:Esp.
  { apply Hstep; [lia|exact Hone|reflexivity|reflexivity|left; lia]. }
  destruct (Ascii.eqb (char_at line i) "-") eqn:Edash.
  { destruct (scan_while_bounds (fun c => negb (isspace c)) line i ltac:(fold len; lia))
      as [Hj Hj1].
    specialize (Hj1 E1 ltac:(now rewrite Esp)). fold len in Hj.
    apply Hstep; [lia| | | |left; reflexivity];
      apply draw_tok_shown; fold len; lia. }
  destruct (isalpha (char_at line i) || Ascii.eqb (char_at line i) "_") eqn:Ealpha.
  2:{ apply Hstep; [lia|exact Hone|reflexivity|reflexivity|left; lia]. }
  set (P := fun c => isalnum c || Ascii.eqb c "_" || Ascii.eqb c "-").
  destruct (scan_while_bounds P line i ltac:(fold len; lia)) as [Hj Hj1].
  assert (HP : P (char_at line i) = true).
  { unfold P, isalnum. apply orb_true_iff in Ealpha as [H|H]; rewrite H;
      [reflexivity|now rewrite orb_true_r]. }
  specialize (Hj1 E1 HP). fold len in Hj.
  set (j := scan_while P line i) in *.
  set (kk := scan_while isdigit line (j + 2)).
  destruct ((j + 2 <? len) && Ascii.eqb (char_at line j) "("
            && isdigit (char_at line (j + 1))
            && (kk <? len) && Ascii.eqb (char_at line kk) ")") eqn:Efn.
  - apply andb_true_iff in Efn as [Efn _].
    apply andb_true_iff in Efn as [Efn Ekk].
    apply andb_true_iff in Efn as [Efn _].
    apply andb_true_iff in Efn as [Ej2 _].
    apply Z.ltb_lt in Ekk, Ej2.
    destruct (scan_while_bounds isdigit line (j + 2) ltac:(fold len; lia))
      as [Hkk _].
    fold kk len in Hkk.
    destruct (draw_tok_shown line y x i j w COLOR_FUNCTION true)
      as (Hd1 & Ha1 & Hp1); [lia|fold len; lia|].
    destruct (draw_tok_shown line y (x + (j - i)) j (kk + 1) w COLOR_TYPE false)
      as (Hd2 & Ha2 & Hp2); [lia|fold len; lia|].
    apply Hstep; [lia| |now apply attr_run_closed
                 |now rewrite plain_app, Hp1|left; lia].
    rewrite drawn_app, Hd1, Hd2.
    replace (kk + 1 - i) with ((j - i) + (kk + 1 - j)) by lia.
    rewrite <- (shown_split line y w i x (j - i) (kk + 1 - j)) by (fold len; lia).
    replace (i + (j - i)) with j by lia. reflexivity.
  - destruct (put_chars_spec line y j w (Z.to_nat (j - i)) x i
                ltac:(lia) ltac:(fold len; lia) (Nat.le_refl _))
      as (evs & He & Hd & Ha & Hp).
    cbv zeta in He. rewrite He.
    set (m := Z.max 0 (Z.min (j - i) (w - x))) in *.
    apply Hstep; [lia| |apply Ha|exact Hp|left; lia].
    rewrite Hd. unfold shown. f_equal. f_equal. lia.
Qed.

Lemma highlight_code_loop_unfold fuel line lang len y i col line_width :
  highlight_code_loop fuel line lang len y i col line_width
  = if (i <? len) && (col <? line_width) then
      match fuel with
      | O => None
      | Datatypes.S fuel' =>
          let ch := char_at line i in
          if slash_comment_lang lang && (i + 1 <? len)
             && Ascii.eqb (char_at line i) "/" && Ascii.eqb (char_at line (i + 1)) "/"
          then
            Some ([Attron COLOR_COMMENT false]
                    ++ (put_chars (Z.to_nat (len - i)) y col line i len line_width).1.1
                    ++ [Attroff COLOR_COMMENT false])
          else if hash_comment_lang lang && Ascii.eqb ch "#" then
            Some ([Attron COLOR_COMMENT false]
                    ++ (put_chars (Z.to_nat (len - i)) y col line i len line_width).1.1
                    ++ [Attroff COLOR_COMMENT false])
          else if Ascii.eqb ch DQUOTE || Ascii.eqb ch SQUOTE then
            let '(evs, i', col') :=
              string_loop (Z.to_nat (len - (i + 1))) y line len (i + 1) (col + 1)
                line_width ch in
            app ([Attron COLOR_STRING false; Mvaddch y col ch] ++ evs
                   ++ [Attroff COLOR_STRING false])
              <$> highlight_code_loop fuel' line lang len y i' col' line_width
          else if isdigit ch then
            let j := scan_while (fun c => isdigit c || Ascii.eqb c ".") line i in
            let '(evs, i', col') :=
              put_chars (Z.to_nat (j - i)) y col line i j line_width in
            app ([Attron COLOR_NUMBER false] ++ evs ++ [Attroff COLOR_NUMBER false])
              <$> highlight_code_loop fuel' line lang len y i' col' line_width
          else if isalpha ch || Ascii.eqb ch "_" then
            let w :=
              Z.min (scan_while (fun c => isalnum c || Ascii.eqb c "_") line i - i) 127 in
            let word := take (Z.to_nat w) (drop (Z.to_nat i) line) in
            let is_keyword := keyword_of_lang lang word in
            let '(evs, _, col') :=
              put_chars (Z.to_nat w) y col word 0 w line_width in
            app ((if is_keyword then [Attron COLOR_KEYWORD true] else [])
                   ++ evs
                   ++ (if is_keyword then [Attroff COLOR_KEYWORD true] else []))
              <$> highlight_code_loop fuel' line lang len y (i + w) col' line_width
          else
            app [Mvaddch y col ch]
              <$> highlight_code_loop fuel' line lang len y (i + 1) (col + 1) line_width
      end
    else Some [].
Proof. destruct fuel; reflexivity. Qed.

Lemma drawn_bracket (a b : list event) evs :
  drawn a = [] -> drawn b = [] -> drawn (a ++ evs ++ b) = drawn evs.
Proof. intros Ha Hb. now rewrite !drawn_app, Ha, Hb, app_nil_r. Qed.

Lemma highlight_code_loop_spec (line : cstr) (lang : Language) (y w : Z) :
  forall (fuel : nat) (i x : Z),
    0 <= i <= Z.of_nat (length line) ->
    (Z.to_nat (Z.of_nat (length line) - i) <= fuel)%nat ->
    exists evs,
      highlight_code_loop fuel line lang (Z.of_nat (length line)) y i x w
      = Some evs
      /\ drawn evs = shown line y w i x (Z.of_nat (length line) - i)
      /\ attr_run None evs = Some None
      /\ plain evs = true.
Proof.
  set (len := Z.of_nat (length line)).
  induction fuel as [|fuel IH]; intros i x Hi Hf;
    rewrite highlight_code_loop_unfold;
    destruct ((i <? len) && (x <? w)) eqn:E;
    try (exists []; split; [reflexivity|]; split; [|split; reflexivity];
         apply andb_false_iff in E as [E|E]; apply Z.ltb_ge in E;
         [now rewrite shown_none by lia|now rewrite shown_off by lia]).
  { apply andb_true_iff in E as [E _]. apply Z.ltb_lt in E. lia. }
  apply andb_true_iff in E as [E1 E2]. apply Z.ltb_lt in E1, E2.
  assert (Hstep : forall i' evs1 x',
            i + 1 <= i' <= len ->
            drawn evs1 = shown line y w i x (i' - i) ->
            attr_run None evs1 = Some None ->
            plain evs1 = true ->
            x' = x + (i' - i) \/ (w <= x' /\ w <= x + (i' - i)) ->
            exists evs,
              (app evs1 <$> highlight_code_loop fuel line lang len y i' x' w)
              = Some evs
              /\ drawn evs = shown line y w i x (len - i)
              /\ attr_run None evs = Some None
              /\ plain evs = true).
  { intros i' evs1 x' Hi' H1 Ha1 Hp1 Hx'.
    destruct (IH i' x') as (evs2 & He & Hd & Ha2 & Hp2); [lia|lia|].
    rewrite He. eexists. split; [reflexivity|].
    split; [|split; [now apply attr_run_closed|now rewrite plain_app, Hp1]].
    rewrite drawn_app, H1, Hd.
    replace (len - i) with ((i' - i) + (len - i')) by lia.
    rewrite <- (shown_split line y w i x (i' - i) (len - i')) by (fold len; lia).
    replace (i + (i' - i)) with i' by lia. f_equal.
    destruct Hx' as [->|[H2 H3]]; [reflexivity|].
    now rewrite !shown_off by lia. }
  assert (Hone : drawn [Mvaddch y x (char_at line i)] = shown line y w i x (i + 1 - i)).
  { replace (i + 1 - i) with 1 by lia. rewrite shown_one by (fold len; lia).
    reflexivity. }
  assert (Hcomment :
            exists evs,
              Some ([Attron COLOR_COMMENT false]
                      ++ (put_chars (Z.to_nat (len - i)) y x line i len w).1.1
                      ++ [Attroff COLOR_COMMENT false]) = Some evs
              /\ drawn evs = shown line y w i x (len - i)
              /\ attr_run None evs = Some None
              /\ plain evs = true).
  { destruct (put_chars_spec line y len w (Z.to_nat (len - i)) x i
                ltac:(lia) ltac:(fold len; lia) (Nat.le_refl _))
      as (evs & He & Hd & Ha & Hp).
    rewrite He. cbn [fst]. eexists. split; [reflexivity|].
    split; [now rewrite drawn_bracket|].
    split; [now apply attr_run_bracket|now apply plain_bracket]. }
  cbv zeta.
  destruct (slash_comment_lang lang && (i + 1 <? len)
            && Ascii.eqb (char_at line i) "/"
            && Ascii.eqb (char_at line (i + 1)) "/"); [exact Hcomment|].
  destruct (hash_comment_lang lang && Ascii.eqb (char_at line i) "#");
    [exact Hcomment|].
  destruct (Ascii.eqb (char_at line i) DQUOTE || Ascii.eqb (char_at line i) SQUOTE).
  { destruct (string_loop_spec line y w (char_at line i)
                (Z.to_nat (len - (i + 1))) (i + 1) (x + 1) ltac:(fold len; lia))
      as (ms & evs & He & Hm & Hw & Hd & Ha & Hp).
    fold len in He, Hm. rewrite He.
    apply Hstep; [lia| | |now rewrite !plain_app, Hp|left; lia].
    - rewrite !drawn_app.
      change (drawn [Attron COLOR_STRING false; Mvaddch y x (char_at line i)])
        with [(y, x, char_at line i)].
      change (drawn [Attroff COLOR_STRING false]) with (@nil (Z * Z * ascii)).
      rewrite app_nil_r, Hd.
      replace (i + 1 + ms - i) with (1 + ms) by lia.
      rewrite <- (shown_split line y w i x 1 ms) by (fold len; lia).
      now rewrite shown_one by (fold len; lia).
    - change ([Attron COLOR_STRING false; Mvaddch y x (char_at line i)]
                ++ evs ++ [Attroff COLOR_STRING false])
        with ([Attron COLOR_STRING false]
                ++ (Mvaddch y x (char_at line i) :: evs)
                ++ [Attroff COLOR_STRING false]).
      apply attr_run_bracket. intros o. cbn [attr_run]. apply Ha. }
  destruct (isdigit (char_at line i)) eqn:Edigit.
  { set (P := fun c => isdigit c || Ascii.eqb c ".").
    destruct (scan_while_bounds P line i ltac:(fold len; lia)) as [Hj Hj1].
    specialize (Hj1 E1 ltac:(unfold P; now rewrite Edigit)). fold len in Hj.
    set (j := scan_while P line i) in *.
    destruct (put_chars_spec line y j w (Z.to_nat (j - i)) x i
                ltac:(lia) ltac:(fold len; lia) (Nat.le_refl _))
      as (evs & He & Hd & Ha & Hp).
    cbv zeta in He. rewrite He.
    set (m := Z.max 0 (Z.min (j - i) (w - x))) in *.
    apply Hstep; [lia| |now apply attr_run_bracket|now apply plain_bracket
                 |left; lia].
    rewrite drawn_bracket by reflexivity.
    rewrite Hd. unfold shown. f_equal. f_equal. lia. }
  destruct (isalpha (char_at line i) || Ascii.eqb (char_at line i) "_") eqn:Ealpha.
  2:{ apply Hstep; [lia|exact Hone|reflexivity|reflexivity|left; lia]. }
  set (P := fun c => isalnum c || Ascii.eqb c "_").
  destruct (scan_while_bounds P line i ltac:(fold len; lia)) as [Hj Hj1].
  assert (HP : P (char_at line i) = true).
  { unfold P, isalnum. apply orb_true_iff in Ealpha as [H|H]; rewrite H;
      [reflexivity|now rewrite orb_true_r]. }
  specialize (Hj1 E1 HP). fold len in Hj.
  set (j := scan_while P line i) in *.
  set (n := Z.min (j - i) 127).
  set (word := take (Z.to_nat n) (drop (Z.to_nat i) line)).
  assert (Hword : Z.of_nat (length word) = n).
  { unfold word. rewrite length_take, length_drop. fold len. lia. }
  destruct (put_chars_spec word y n w (Z.to_nat n) x 0
              ltac:(lia) ltac:(lia) ltac:(lia))
    as (evs & He & Hd & Ha & Hp).
  cbv zeta in He. rewrite He.
  apply Hstep; [lia| | | |].
  - rewrite drawn_bracket by (destruct (keyword_of_lang lang word); reflexivity).
    rewrite Hd. unfold shown, word.
    replace (n - 0) with n by lia. replace (i + n - i) with n by lia.
    change (Z.to_nat 0) with 0%nat. rewrite drop_0. rewrite take_take.
    f_equal. f_equal. lia.
  - destruct (keyword_of_lang lang word).
    + now apply attr_run_bracket.
    + cbn [app]. rewrite app_nil_r. apply Ha.
  - destruct (keyword_of_lang lang word).
    + now apply plain_bracket.
    + cbn [app]. now rewrite app_nil_r.
  - destruct (Z_le_gt_dec n (w - x)); [left|right]; lia.
Qed.



(** ** Opening a file from the viewer *)





(** ** Drawing the buffer *)

Lemma written_app a b : written (a ++ b) = written a ++ written b.
Proof. unfold written. now rewrite flat_map_app. Qed.

Lemma call_rows_app a b : call_rows (a ++ b) = call_rows a ++ call_rows b.
Proof. unfold call_rows. now rewrite flat_map_app. Qed.

Lemma rows_app a b : rows (a ++ b) = rows a ++ rows b.
Proof. unfold rows. now rewrite flat_map_app. Qed.

Lemma call_rows_ncurses evs : call_rows (map Ncurses evs) = rows evs.
Proof.
  induction evs as [|e evs IH]; [reflexivity|].
  change (e :: evs) with ([e] ++ evs).
  rewrite map_app, call_rows_app, rows_app, IH. f_equal.
  cbn. now rewrite app_nil_r.
Qed.

Lemma plain_written evs :
  plain evs = true ->
  written (map Ncurses evs) = drawn evs
  /\ rows evs = map (fun cell : Z * Z * ascii => cell.1.1) (drawn evs).
Proof.
  induction evs as [|e evs IH]; intros H; [split; reflexivity|].
  change (e :: evs) with ([e] ++ evs) in *.
  rewrite plain_app in H.
  apply andb_true_iff in H as [He H]. destruct (IH H) as [IH1 IH2].
  rewrite map_app, written_app, rows_app, drawn_app, map_app, IH1, IH2.
  destruct e; try discriminate He; split; reflexivity.
Qed.

Lemma cells_rows y x (s : cstr) :
  Forall (eq y) (map (fun cell : Z * Z * ascii => cell.1.1) (cells y x s)).
Proof.
  revert x. induction s as [|c s IH]; intros x; [constructor|].
  rewrite cells_cons. cbn [map]. constructor; [reflexivity|apply IH].
Qed.

Lemma highlight_line_written (text : option cstr) (lang : Language)
    (y start_x line_width : Z) :
  exists evs,
    highlight_line text lang y start_x line_width = Some evs
    /\ written (map Ncurses evs)
       = cells y start_x
           (take (Z.to_nat (line_width - start_x)) (default [] text))
    /\ Forall (eq y) (rows evs).
Proof.
  destruct text as [line|].
  2:{ exists []. split; [reflexivity|]. split; [|constructor].
      cbn [default]. now rewrite take_nil. }
  cbn [default].
  assert (Hwhole : shown line y line_width 0 start_x (Z.of_nat (length line) - 0)
                   = cells y start_x
                       (take (Z.to_nat (line_width - start_x)) line)).
  { rewrite shown_rest by lia. reflexivity. }
  assert (Hplain : forall evs,
            plain evs = true ->
            drawn evs = shown line y line_width 0 start_x
                          (Z.of_nat (length line) - 0) ->
            written (map Ncurses evs)
            = cells y start_x (take (Z.to_nat (line_width - start_x)) line)
            /\ Forall (eq y) (rows evs)).
  { intros evs Hp Hd. destruct (plain_written evs Hp) as [H1 H2].
    rewrite H1, H2, Hd, Hwhole. split; [reflexivity|apply cells_rows]. }
  assert (Hcode : exists evs,
            highlight_code_loop (length line) line lang
              (Z.of_nat (length line)) y 0 start_x line_width = Some evs
            /\ written (map Ncurses evs)
               = cells y start_x (take (Z.to_nat (line_width - start_x)) line)
            /\ Forall (eq y) (rows evs)).
  { destruct (highlight_code_loop_spec line lang y line_width (length line)
                0 start_x ltac:(lia) ltac:(lia)) as (evs & He & Hd & _ & Hp).
    exists evs. split; [exact He|]. now apply Hplain. }
  unfold highlight_line.
  destruct lang; try exact Hcode.
  destruct (is_man_section_header (skip_spaces line)).
  - eexists. split; [reflexivity|]. split.
    + cbn [map written flat_map]. now rewrite app_nil_r.
    + repeat constructor.
  - destruct (highlight_man_loop_spec line y line_width (length line)
                0 start_x ltac:(lia) ltac:(lia)) as (evs & He & Hd & _ & Hp).
    exists evs. split; [exact He|]. now apply Hplain.
Qed.

Lemma draw_text_spec (st : ViewerState) (line_nr : Z) (text : option cstr)
    (lang : Language) (y start_x line_width : Z) :
  exists calls,
    draw_text st line_nr text lang y start_x line_width = Some calls
    /\ written calls
       = cells y start_x
           (take (Z.to_nat (line_width - start_x)) (default [] text))
    /\ Forall (eq y) (call_rows calls).
Proof.
  destruct (highlight_line_written text lang y start_x line_width)
    as (evs & He & Hw & Hr).
  unfold draw_text. rewrite He. eexists. split; [reflexivity|].
  rewrite !written_app, !call_rows_app, call_rows_ncurses, Hw.
  destruct (in_selection st line_nr);
    (split; [cbn [written flat_map app]|cbn [call_rows flat_map app]]);
    rewrite ?app_nil_r; trivial.
Qed.

Lemma rows_of_text_nil y x w : rows_of_text y x w [] = [].
Proof. reflexivity. Qed.

Lemma rows_of_text_cons y x w s l :
  rows_of_text y x w (s :: l)
  = cells y x (take (Z.to_nat (w - x)) s) ++ rows_of_text (y + 1) x w l.
Proof.
  unfold rows_of_text. rewrite imap_cons. cbn [concat]. f_equal.
  - now rewrite Z.add_0_r.
  - f_equal. apply imap_ext. intros r t _. unfold compose.
    replace (y + Z.of_nat (Datatypes.S r)) with (y + 1 + Z.of_nat r) by lia.
    reflexivity.
Qed.

Lemma rows_of_text_app y x w a b :
  rows_of_text y x w (a ++ b)
  = rows_of_text y x w a ++ rows_of_text (y + Z.of_nat (length a)) x w b.
Proof.
  revert y. induction a as [|s a IH]; intros y.
  - cbn [app length]. now rewrite Z.add_0_r.
  - cbn [app length]. rewrite !rows_of_text_cons, IH, <- app_assoc.
    replace (y + 1 + Z.of_nat (length a))
      with (y + Z.of_nat (Datatypes.S (length a))) by lia.
    reflexivity.
Qed.

Lemma wrap_line_total (line : option cstr) (width : Z) :
  exists wl,
    wrap_line line width = Some wl
    /\ count wl = Z.of_nat (length (segments_of line width))
    /\ (segments wl = Some (segments_of line width)
        \/ (segments wl = None /\ segments_of line width = []))
    /\ (forall seg, In seg (segments_of line width) ->
          Z.of_nat (length seg) <= width)
    /\ (0 < width -> forall l, line = Some l ->
          concat (segments_of line width) = l).
Proof.
  unfold segments_of.
  destruct line as [l|]; cbn [wrap_line].
  2:{ eexists. split; [reflexivity|]. cbn. split; [reflexivity|].
      split; [right; auto|]. split; [tauto|]. intros _ l H. discriminate. }
  destruct (width <=? 0) eqn:E.
  { apply Z.leb_le in E.
    eexists. split; [reflexivity|]. cbn. split; [reflexivity|].
    split; [right; auto|]. split; [tauto|]. lia. }
  apply Z.leb_gt in E. cbv zeta.
  destruct (Z.of_nat (length l) =? 0) eqn:E0.
  { apply Z.eqb_eq in E0. destruct l; [|cbn [length] in E0; lia].
    eexists. split; [reflexivity|]. cbn. split; [reflexivity|].
    split; [left; reflexivity|]. split; [intros seg [<-|[]]; cbn; lia|].
    intros _ l [= <-]. reflexivity. }
  destruct (wrap_line_loop_spec l width E (length l) 0 0 [])
    as (segs & Hr & Hcat & _ & Hlen); [lia|lia|].
  rewrite Hr. eexists. split; [reflexivity|]. cbn [count segments app].
  split; [lia|]. split; [left; reflexivity|]. split.
  - intros seg Hin. apply list_elem_of_In, list_elem_of_lookup in Hin as [i Hi].
    rewrite (Hlen i seg Hi). lia.
  - intros _ l' [= <-]. rewrite Hcat. reflexivity.
Qed.

Lemma draw_segments_spec (st : ViewerState) (lang : Language) (wl : WrappedLine)
    (segs : list cstr) (logical_line max_x content_height line_nr_width : Z) :
  count wl = Z.of_nat (length segs) ->
  segments wl = Some segs \/ (segments wl = None /\ segs = []) ->
  forall (n : nat) (seg y : Z),
    0 <= seg -> (Z.to_nat (count wl - seg) <= n)%nat ->
    let k := Z.to_nat (Z.min (count wl - seg) (1 + content_height - y)) in
    exists calls,
      draw_segments n st lang wl logical_line max_x content_height
        line_nr_width seg y = Some (calls, y + Z.of_nat k)
      /\ written calls
         = rows_of_text y (line_nr_width + 1) max_x
             (take k (drop (Z.to_nat seg) segs))
      /\ Forall (fun r => y <= r < y + Z.of_nat k) (call_rows calls).
Proof.
  intros Hcount Hsegs.
  induction n as [|n IH]; intros seg y Hseg Hn k.
  - exists []. cbn [draw_segments]. subst k.
    replace (Z.to_nat (Z.min (count wl - seg) (1 + content_height - y)))
      with 0%nat by lia.
    rewrite Z.add_0_r. split; [reflexivity|]. split; [reflexivity|constructor].
  - cbn [draw_segments].
    destruct ((seg <? count wl) && (y <? 1 + content_height)) eqn:E.
    2:{ exists []. subst k.
        replace (Z.to_nat (Z.min (count wl - seg) (1 + content_height - y)))
          with 0%nat
          by (apply andb_false_iff in E as [E|E]; apply Z.ltb_ge in E; lia).
        rewrite Z.add_0_r. split; [reflexivity|].
        split; [reflexivity|constructor]. }
    apply andb_true_iff in E as [E1 E2]. apply Z.ltb_lt in E1, E2.
    destruct Hsegs as [Hs|[_ ->]]; [|cbn [length] in Hcount; lia].
    rewrite Hs. cbv zeta.
    assert (Hlt : (Z.to_nat seg < length segs)%nat) by lia.
    destruct (lookup_lt_is_Some_2 segs _ Hlt) as [s Hlook].
    rewrite Hlook.
    destruct (draw_text_spec st logical_line (Some s) lang y
                (line_nr_width + 1) max_x) as (calls & Hc & Hw & Hr).
    rewrite Hc.
    destruct (IH (seg + 1) (y + 1) ltac:(lia) ltac:(lia))
      as (more & Hm & Hwm & Hrm).
    cbv zeta in Hm, Hwm, Hrm. rewrite Hm.
    set (k' := Z.to_nat (Z.min (count wl - (seg + 1))
                           (1 + content_height - (y + 1)))) in *.
    assert (Hk : k = Datatypes.S k') by (subst k k'; lia).
    eexists. split; [f_equal; f_equal; lia|]. split.
    + rewrite !written_app, Hw, Hwm. rewrite Hk.
      rewrite (drop_S segs s (Z.to_nat seg) Hlook).
      cbn [take]. rewrite rows_of_text_cons. cbn [default].
      replace (Z.to_nat (seg + 1)) with (Datatypes.S (Z.to_nat seg)) by lia.
      replace (max_x - (line_nr_width + 1)) with (max_x - (line_nr_width + 1))
        by reflexivity.
      destruct (negb (show_line_numbers st =? 0) && (seg =? 0));
        [reflexivity|].
      destruct (negb (show_line_numbers st =? 0)); reflexivity.
    + rewrite !call_rows_app. apply Forall_app. split; [|apply Forall_app; split].
      * destruct (negb (show_line_numbers st =? 0) && (seg =? 0));
          [repeat constructor; lia|].
        destruct (negb (show_line_numbers st =? 0));
          [repeat constructor; lia|constructor].
      * eapply Forall_impl; [exact Hr|]. cbn. intros r <-. lia.
      * eapply Forall_impl; [exact Hrm|]. cbn. intros r Hr'. lia.
Qed.

Lemma free_wrapped_line_quiet (wl : WrappedLine) :
  written (free_wrapped_line wl).1 = []
  /\ call_rows (free_wrapped_line wl).1 = [].
Proof.
  unfold free_wrapped_line. destruct (segments wl) as [segs|]; [|split; reflexivity].
  cbn [fst]. rewrite written_app, call_rows_app.
  assert (H : written (for_loop 0 (count wl)
                         (fun i calls =>
                            calls ++ [Ncurses (Free (segs !! Z.to_nat i))]) [])
              = []
              /\ call_rows (for_loop 0 (count wl)
                              (fun i calls =>
                                 calls ++ [Ncurses (Free (segs !! Z.to_nat i))]) [])
                 = []).
  { apply (for_loop_inv (fun calls => written calls = [] /\ call_rows calls = [])).
    - split; reflexivity.
    - intros i calls [H1 H2]. rewrite written_app, call_rows_app, H1, H2.
      split; reflexivity. }
  destruct H as [-> ->]. split; reflexivity.
Qed.

Lemma segments_from_step (buf : Buffer) (width logical_line : Z) :
  logical_line < line_count buf ->
  segments_from buf width logical_line
  = segments_of (line_ptr (lines buf) logical_line) width
    ++ segments_from buf width (logical_line + 1).
Proof.
  intros H. unfold segments_from.
  replace (Z.to_nat (line_count buf - logical_line))
    with (Datatypes.S (Z.to_nat (line_count buf - (logical_line + 1)))) by lia.
  rewrite <- cons_seq. cbn [map concat]. rewrite Z.add_0_r. f_equal.
  rewrite <- seq_shift, map_map. f_equal. apply map_ext. intros k.
  f_equal. f_equal. lia.
Qed.

Lemma segments_from_end (buf : Buffer) (width logical_line : Z) :
  line_count buf <= logical_line -> segments_from buf width logical_line = [].
Proof.
  intros H. unfold segments_from.
  replace (Z.to_nat (line_count buf - logical_line)) with 0%nat by lia.
  reflexivity.
Qed.

Lemma clear_rows (max_x y b : Z) :
  let calls := for_loop y b
                 (fun y calls => calls ++ [Ncurses (Mvhline y 0 SPACE max_x)]) [] in
  written calls = [] /\ Forall (fun r => y <= r < b) (call_rows calls).
Proof.
  cbv zeta. destruct (Z_le_gt_dec y b) as [Hle|Hgt].
  - apply (for_loop_ind
             (fun i calls => written calls = []
                             /\ Forall (fun r => y <= r < i) (call_rows calls))).
    + exact Hle.
    + split; [reflexivity|constructor].
    + intros i calls Hi [H1 H2]. rewrite written_app, call_rows_app, H1.
      split; [reflexivity|]. apply Forall_app. split.
      * eapply Forall_impl; [exact H2|]. cbn. intros r Hr. lia.
      * repeat constructor; lia.
  - rewrite for_loop_none by lia. split; [reflexivity|constructor].
Qed.

Lemma draw_wrapped_unfold fuel state buf max_x content_height line_nr_width y
    logical_line :
  draw_wrapped fuel state buf max_x content_height line_nr_width y logical_line
  = if (y <? 1 + content_height) && (logical_line <? line_count buf) then
      match fuel with
      | O => None
      | Datatypes.S fuel' =>
          let text_width := max_x - line_nr_width - 1 in
          let text_width := if text_width <=? 0 then max_x else text_width in
          match wrap_line (line_ptr (lines buf) logical_line) text_width with
          | None => None
          | Some wl =>
              match draw_segments (Z.to_nat (count wl)) state (lang buf) wl
                      logical_line max_x content_height line_nr_width 0 y with
              | None => None
              | Some (calls, y') =>
                  app ([Ncurses (Mvhline y 0 SPACE max_x)] ++ calls
                         ++ (free_wrapped_line wl).1)
                    <$> draw_wrapped fuel' state buf max_x content_height
                          line_nr_width y' (logical_line + 1)
              end
          end
      end
    else
      Some (for_loop y (1 + content_height)
              (fun y calls => calls ++ [Ncurses (Mvhline y 0 SPACE max_x)]) []).
Proof. destruct fuel; reflexivity. Qed.

Lemma draw_wrapped_spec (st : ViewerState) (buf : Buffer)
    (max_x content_height line_nr_width : Z) :
  let text_width :=
    if max_x - line_nr_width - 1 <=? 0 then max_x
    else max_x - line_nr_width - 1 in
  forall (fuel : nat) (y logical_line : Z),
    (Z.to_nat (line_count buf - logical_line) <= fuel)%nat ->
    exists calls,
      draw_wrapped fuel st buf max_x content_height line_nr_width y
        logical_line = Some calls
      /\ written calls
         = rows_of_text y (line_nr_width + 1) max_x
             (take (Z.to_nat (1 + content_height - y))
                (segments_from buf text_width logical_line))
      /\ Forall (fun r => y <= r <= content_height) (call_rows calls).
Proof.
  intros tw. induction fuel as [|fuel IH]; intros y ll Hf;
    rewrite draw_wrapped_unfold;
    destruct ((y <? 1 + content_height) && (ll <? line_count buf)) eqn:E;
    try (destruct (clear_rows max_x y (1 + content_height)) as [Hw Hr];
         cbv zeta in Hw, Hr; eexists; split; [reflexivity|];
         split;
         [rewrite Hw;
          apply andb_false_iff in E as [E|E]; apply Z.ltb_ge in E;
          [replace (Z.to_nat (1 + content_height - y)) with 0%nat by lia;
           reflexivity
          |rewrite segments_from_end by lia; now rewrite take_nil]
         |eapply Forall_impl; [exact Hr|]; cbn; intros r Hr'; lia]).
  { apply andb_true_iff in E as [_ E]. apply Z.ltb_lt in E. lia. }
  apply andb_true_iff in E as [E1 E2]. apply Z.ltb_lt in E1, E2.
  cbv zeta. fold tw.
  destruct (wrap_line_total (line_ptr (lines buf) ll) tw)
    as (wl & Hwl & Hcount & Hsegs & _).
  rewrite Hwl. set (segs := segments_of (line_ptr (lines buf) ll) tw) in *.
  destruct (draw_segments_spec st (lang buf) wl segs ll max_x content_height
              line_nr_width Hcount Hsegs (Z.to_nat (count wl)) 0 y
              ltac:(lia) ltac:(lia)) as (calls & Hc & Hw & Hr).
  cbv zeta in Hc, Hw, Hr. rewrite Z.sub_0_r in Hc, Hw, Hr.
  set (k := Z.to_nat (Z.min (count wl) (1 + content_height - y))) in *.
  rewrite Hc.
  destruct (IH (y + Z.of_nat k) (ll + 1) ltac:(lia)) as (rest & Hrest & Hwr & Hrr).
  rewrite Hrest. destruct (free_wrapped_line_quiet wl) as [Hfw Hfr].
  eexists. split; [reflexivity|]. split.
  - rewrite !written_app, Hw, Hfw, Hwr. cbn [written flat_map app].
    rewrite app_nil_r.
    rewrite (segments_from_step buf tw ll E2). fold segs.
    rewrite take_app, rows_of_text_app. change (Z.to_nat 0) with 0%nat.
    rewrite drop_0. f_equal.
    + f_equal. subst k. rewrite Hcount.
      destruct (Z_le_gt_dec (Z.of_nat (length segs)) (1 + content_height - y)).
      * rewrite !take_ge by lia. reflexivity.
      * f_equal. lia.
    + rewrite length_take. f_equal; [subst k; lia|].
      f_equal. subst k. lia.
  - rewrite !call_rows_app, Hfr.
    repeat (apply Forall_app; split);
      try (eapply Forall_impl; [exact Hr|]; cbn; intros r Hr'; subst k; lia);
      try (eapply Forall_impl; [exact Hrr|]; cbn; intros r Hr'; lia);
      try (cbn [call_rows flat_map rows app]; constructor; [lia|constructor]);
      constructor.
Qed.

Lemma draw_plain_spec (st : ViewerState) (buf : Buffer)
    (max_x line_nr_width content_height : Z) :
  0 <= content_height ->
  exists calls,
    for_loop 0 content_height
      (fun i acc =>
         match acc with
         | None => None
         | Some calls => app calls <$> draw_row st buf max_x line_nr_width i
         end)
      (Some [])
    = Some calls
    /\ written calls
       = rows_of_text 1 (line_nr_width + 1) max_x
           (map (fun i : nat => line_text buf (scroll_offset buf + Z.of_nat i))
              (seq 0 (Z.to_nat (Z.min content_height
                                  (line_count buf - scroll_offset buf)))))
    /\ Forall (fun r => 1 <= r <= content_height) (call_rows calls).
Proof.
  intros Hh.
  apply (for_loop_ind
           (fun i acc =>
              exists calls,
                acc = Some calls
                /\ written calls
                   = rows_of_text 1 (line_nr_width + 1) max_x
                       (map (fun k : nat =>
                               line_text buf (scroll_offset buf + Z.of_nat k))
                          (seq 0 (Z.to_nat (Z.min i
                                              (line_count buf - scroll_offset buf)))))
                /\ Forall (fun r => 1 <= r <= i) (call_rows calls))).
  - exact Hh.
  - exists []. split; [reflexivity|]. split; [|constructor].
    replace (Z.to_nat (Z.min 0 (line_count buf - scroll_offset buf)))
      with 0%nat by lia.
    reflexivity.
  - intros i acc Hi (calls & -> & Hw & Hr).
    assert (Hr' : Forall (fun r => 1 <= r <= i + 1) (call_rows calls)).
    { eapply Forall_impl; [exact Hr|]. cbn. intros r H. lia. }
    unfold draw_row. cbv zeta.
    destruct (scroll_offset buf + i >=? line_count buf) eqn:E;
      rewrite Z.geb_leb in E.
    + apply Z.leb_le in E. eexists. split; [reflexivity|]. split.
      * rewrite written_app, Hw. cbn [written flat_map]. rewrite app_nil_r.
        do 3 f_equal. lia.
      * rewrite call_rows_app. apply Forall_app. split; [exact Hr'|].
        cbn [call_rows flat_map rows app]. constructor; [lia|constructor].
    + apply Z.leb_gt in E.
      destruct (draw_text_spec st (scroll_offset buf + i)
                  (line_ptr (lines buf) (scroll_offset buf + i)) (lang buf)
                  (1 + i) (line_nr_width + 1) max_x) as (text & Ht & Hwt & Hrt).
      rewrite Ht. eexists. split; [reflexivity|]. split.
      * rewrite !written_app, Hw, Hwt.
        replace (Z.to_nat (Z.min (i + 1) (line_count buf - scroll_offset buf)))
          with (Z.to_nat i + 1)%nat by lia.
        replace (Z.to_nat (Z.min i (line_count buf - scroll_offset buf)))
          with (Z.to_nat i) by lia.
        rewrite seq_app, map_app, rows_of_text_app.
        rewrite length_map, length_seq. cbn [seq map plus].
        rewrite rows_of_text_cons, rows_of_text_nil, app_nil_r.
        rewrite Z2Nat.id by lia. unfold line_text.
        f_equal.
        destruct (negb (show_line_numbers st =? 0)); reflexivity.
      * rewrite !call_rows_app.
        repeat (apply Forall_app; split);
          try exact Hr';
          try (eapply Forall_impl; [exact Hrt|]; cbn; intros r <-; lia);
          try (destruct (negb (show_line_numbers st =? 0)));
          cbn [call_rows flat_map rows app]; repeat (constructor; try lia).
Qed.

(** X23.  [draw_buffer] stays in the content area.  For every state and
    every screen size it returns, and every call it makes that names a
    screen row (clearing a row, a line number, the text) names one of the
    rows 1, ..., [max_y - 3]: the tab bar in row 0 and the two rows at the
    bottom are never written, with wrapping on or off, whatever the scroll
    offset and however long the lines are. *)
Theorem draw_buffer_stays_in_content_area (max_y max_x : Z) (st : ViewerState) :
  exists calls,
    draw_buffer max_y max_x st = Some calls
    /\ Forall (fun r => 1 <= r <= max_y - 3) (call_rows calls).
Proof.
  unfold draw_buffer. cbv zeta.
  set (buf := buffer_at st (current_buffer st)).
  set (w := if show_line_numbers st =? 0 then 0 else 6).
  destruct (negb (wrap_enabled st =? 0)).
  - destruct (draw_wrapped_spec st buf max_x (max_y - 3) w
                (Z.to_nat (line_count buf - scroll_offset buf)) 1
                (scroll_offset buf) (Nat.le_refl _)) as (calls & Hc & _ & Hr).
    exists calls. split; [exact Hc|exact Hr].
  - destruct (Z_le_gt_dec 0 (max_y - 3)) as [Hh|Hh].
    + destruct (draw_plain_spec st buf max_x w (max_y - 3) Hh)
        as (calls & Hc & _ & Hr).
      exists calls. split; [exact Hc|exact Hr].
    + rewrite for_loop_none by lia. exists []. split; [reflexivity|constructor].
Qed.




(** ** The main loop *)




















(** ** The search prompt *)

Lemma count_matching_lines_none buf term n :
  (forall i, 0 <= i < n -> contains_substr (line_text buf i) term = false) ->
  count_matching_lines buf term n = 0.
Proof.
  intros H. destruct (Z_le_gt_dec 0 n) as [Hn|Hn].
  - unfold count_matching_lines.
    apply (for_loop_ind (fun (i : Z) (c : Z) => c = 0)); [exact Hn|reflexivity|].
    intros i c Hi ->. now rewrite H by lia.
  - apply count_matching_lines_zero. lia.
Qed.

Lemma find_all_matches_nonempty (st : ViewerState) :
  search_term st <> [] ->
  find_all_matches st
  = set_search_match_count
      (count_matching_lines (buffer_at st (current_buffer st)) (search_term st)
         (line_count (buffer_at st (current_buffer st)))) st.
Proof.
  intros H. unfold find_all_matches. cbv zeta.
  change (search_term (set_search_match_count 0 st)) with (search_term st).
  destruct (search_term st) eqn:E; [congruence|].
  destruct st; reflexivity.
Qed.

Lemma prompt_search_unfold (max_y max_x : Z) (typed : cstr) (st : ViewerState) :
  search_input typed <> [] ->
  (prompt_search max_y max_x typed st).2
  = let st0 := find_all_matches (set_search_term (search_input typed) st) in
    let found := search_buffer st0 (search_term st0) 0 1 in
    if found >=? 0 then jump_to_match found st0 else st0.
Proof.
  intros H. unfold prompt_search. cbv zeta. rewrite search_input_fits.
  destruct (search_input typed) as [|c l] eqn:E; [congruence|].
  destruct (_ >=? 0); reflexivity.
Qed.

(** X26.  What the search prompt leaves behind.  An input that is empty
    after trimming changes nothing, the old search term included.  Any other
    input becomes the search term (cut to 255 bytes, white space at the end
    removed), and [search_match_count] becomes the number of lines of the
    current buffer that contain it.  That number is 0 exactly when the
    search from the top finds nothing, and then the view stays where it was;
    otherwise the view moves to the first line of the buffer that contains
    the term. *)
Theorem prompt_search_outcome (max_y max_x : Z) (typed : cstr)
    (st : ViewerState) :
  let term := search_input typed in
  let buf := buffer_at st (current_buffer st) in
  let found := search_buffer st term 0 1 in
  let st' := (prompt_search max_y max_x typed st).2 in
  (term = [] -> st' = st)
  /\ (term <> [] ->
      search_term st' = term
      /\ search_match_count st'
         = count_matching_lines buf term (line_count buf)
      /\ (search_match_count st' = 0 <-> found = -1)
      /\ (found = -1 ->
          st' = set_search_match_count 0 (set_search_term term st))
      /\ (found <> -1 ->
          scroll_offset (buffer_at st' (current_buffer st')) = found
          /\ 0 <= found < line_count buf
          /\ contains_substr (line_text buf found) term = true
          /\ forall i, 0 <= i < found ->
               contains_substr (line_text buf i) term = false)).
Proof.
  intros term buf found st'. split.
  - intros H. subst st'. unfold prompt_search. fold term. rewrite H. reflexivity.
  - intros Hterm.
    set (st1 := set_search_term term st).
    set (st0 := find_all_matches st1).
    assert (Hcount : search_match_count st0
                     = count_matching_lines buf term (line_count buf)).
    { unfold st0. rewrite find_all_matches_count by exact Hterm. reflexivity. }
    destruct (find_all_matches_keeps st1) as (Hb0 & Hc0 & Ht0).
    fold st0 in Hb0, Hc0, Ht0.
    assert (Hfound0 : search_buffer st0 (search_term st0) 0 1 = found).
    { rewrite Ht0. apply search_buffer_reads; [exact Hb0|exact Hc0]. }
    assert (Hunfold : st' = if found >=? 0
                            then jump_to_match found st0 else st0).
    { subst st'. rewrite prompt_search_unfold by exact Hterm. cbv zeta.
      fold term. fold st1. fold st0. rewrite Hfound0. reflexivity. }
    pose proof (search_buffer_found_or_not st term 0 1 Hterm (or_introl eq_refl))
      as Hs.
    cbv zeta in Hs. fold buf in Hs. fold found in Hs.
    destruct Hs as [[Hr Hnone]|(k & Hk & Hr & Hrange & Hm & Hbefore)].
    + (* nothing found *)
      assert (Hzero : count_matching_lines buf term (line_count buf) = 0).
      { apply count_matching_lines_none. intros i Hi.
        destruct (contains_substr (line_text buf i) term) eqn:E; [|reflexivity].
        apply contains_substr_spec in E. now apply Hnone in E. }
      rewrite Hr in Hunfold. change (-1 >=? 0) with false in Hunfold.
      rewrite Hunfold.
      split; [exact Ht0|]. split; [exact Hcount|].
      split; [rewrite Hcount, Hzero; tauto|]. split; [|congruence].
      intros _. unfold st0. rewrite find_all_matches_nonempty by exact Hterm.
      change (buffer_at st1 (current_buffer st1)) with buf.
      change (search_term st1) with term.
      now rewrite Hzero.
    + (* found *)
      apply contains_substr_spec in Hm.
      assert (Hpos : 0 <= found) by lia.
      assert (Hge : (found >=? 0) = true)
        by (rewrite Z.geb_leb; apply Z.leb_le; lia).
      rewrite Hge in Hunfold. rewrite Hunfold.
      pose proof (count_matching_lines_before buf term found (line_count buf)
                    Hrange Hm) as Hlt.
      split; [exact Ht0|]. split; [exact Hcount|].
      split.
      { change (search_match_count (jump_to_match found st0))
          with (search_match_count st0).
        rewrite Hcount. split; lia. }
      split; [lia|]. intros _.
      split.
      { assert (Hn0 : 0 < line_count (buffer_at st0 (current_buffer st0))).
        { unfold buffer_at. rewrite Hb0, Hc0. change (0 < line_count buf). lia. }
        destruct (jump_to_match_spec st0 found Hn0) as (_ & Hc & Hbuf & _).
        rewrite Hc, Hbuf. reflexivity. }
      split; [exact Hrange|]. split; [exact Hm|].
      intros i Hi.
      assert (Hk0 : found = k).
      { rewrite Hr. unfold first_probe.
        change (0 <? 0) with false.
        replace (0 >=? line_count buf) with false
          by (symmetry; rewrite Z.geb_leb; apply Z.leb_gt; lia).
        rewrite Z.add_0_l, Z.mul_1_l. apply Z.mod_small. lia. }
      specialize (Hbefore i ltac:(lia)).
      unfold first_probe in Hbefore. change (0 <? 0) with false in Hbefore.
      replace (0 >=? line_count buf) with false in Hbefore
        by (symmetry; rewrite Z.geb_leb; apply Z.leb_gt; lia).
      rewrite Z.add_0_l, Z.mul_1_l, Z.mod_small in Hbefore by lia.
      destruct (contains_substr (line_text buf i) term) eqn:E; [|reflexivity].
      apply contains_substr_spec in E. contradiction.
Qed.

Lemma prompt_search_outcome_witness :
  (prompt_search 24 80 (cs "qux  ") foo_bar_baz).2
  = set_search_match_count 0 (set_search_term (cs "qux") foo_bar_baz).
Proof.
  pose proof (prompt_search_outcome 24 80 (cs "qux  ") foo_bar_baz) as H.
  cbv zeta in H. destruct H as [_ H].
  destruct H as (_ & _ & _ & H & _).
  - vm_compute. discriminate.
  - etransitivity; [apply H; vm_compute; reflexivity|].
    apply (f_equal (fun t => set_search_match_count 0 (set_search_term t _))).
    vm_compute. reflexivity.
Defined.
